(** * LoopForge: the loop-orchestration core, embedded in Rocq

    The development follows [lib/cli/ProcessManager] (the process
    supervisor and loop controller), [lib/ralph/reviewParser.ts] (the
    review-report parser) and the two functions of [lib/ralph/templates.ts]
    that build the continuation documents.  JavaScript strings are lists of UTF-16 code
    units, the [Map]s of the process manager are [gmap]s keyed by session
    id, regular expressions are terms of a small backtracking matcher that
    follows the ECMAScript semantics of the constructs the source uses. *)

From Stdlib Require Import ZArith NArith QArith.QArith_base Strings.String Strings.Ascii List Bool Lia.
From Stdlib Require Import DecimalString Sorting.Sorted.
From stdpp Require Import gmap strings list fin_maps.

Set Default Proof Using "Type".
Set Warnings "-register-all".
Set Warnings "-notation-overridden".
Set Warnings "-notation-incompatible-prefix".
Open Scope N_scope.

(** ** JavaScript strings *)

Module JsString.

(** A string is a sequence of UTF-16 code units. *)
Definition cu := N.
Definition jstring := list N.

Fixpoint js (s : string) : jstring :=
  match s with
  | EmptyString => []
  | String a s' => N_of_ascii a :: js s'
  end.

Definition LF : cu := 10.
Definition CR : cu := 13.

Definition cu_eqb (a b : cu) : bool := N.eqb a b.

Fixpoint jeqb (a b : jstring) : bool :=
  match a, b with
  | [], [] => true
  | x :: a', y :: b' => N.eqb x y && jeqb a' b'
  | _, _ => false
  end.

(** WhiteSpace and LineTerminator code units: the class [\s] of a regular
    expression, and what [String.prototype.trim] strips. *)
Definition is_space (c : cu) : bool :=
  ((9 <=? c) && (c <=? 13)) || (c =? 32) || (c =? 160) || (c =? 5760)
  || ((8192 <=? c) && (c <=? 8202)) || (c =? 8232) || (c =? 8233)
  || (c =? 8239) || (c =? 8287) || (c =? 12288) || (c =? 65279).

(** LineTerminator: where [^] matches under the [m] flag. *)
Definition is_line_terminator (c : cu) : bool :=
  (c =? 10) || (c =? 13) || (c =? 8232) || (c =? 8233).

Definition is_digit (c : cu) : bool := (48 <=? c) && (c <=? 57).

Fixpoint drop_while (p : cu -> bool) (s : jstring) : jstring :=
  match s with
  | [] => []
  | x :: s' => if p x then drop_while p s' else s
  end.

(** [s.trim()] *)
Definition trim (s : jstring) : jstring :=
  rev (drop_while is_space (rev (drop_while is_space s))).

(** [s.split(sep)] for a separator of one code unit: never empty. *)
Fixpoint split_on (sep : cu) (s : jstring) : list jstring :=
  match s with
  | [] => [[]]
  | x :: s' =>
      if N.eqb x sep then [] :: split_on sep s'
      else match split_on sep s' with
           | [] => [[x]]
           | l :: ls => (x :: l) :: ls
           end
  end.

(** [s.startsWith(p)], returning what follows the prefix. *)
Fixpoint strip_prefix (p s : jstring) : option jstring :=
  match p, s with
  | [], _ => Some s
  | a :: p', b :: s' => if N.eqb a b then strip_prefix p' s' else None
  | _ :: _, [] => None
  end.

(** [s.includes(p)] *)
Fixpoint includes (s p : jstring) : bool :=
  match strip_prefix p s with
  | Some _ => true
  | None => match s with
            | [] => false
            | _ :: s' => includes s' p
            end
  end.

(** [s.replace(/c/g, '')] for one code unit [c]. *)
Definition remove_all (c : cu) (s : jstring) : jstring :=
  List.filter (fun x => negb (N.eqb x c)) s.

Definition nonempty (s : jstring) : bool :=
  match s with [] => false | _ :: _ => true end.

Definition is_some {A} (o : option A) : bool :=
  match o with Some _ => true | None => false end.

Definition is_ascii_lower (c : cu) : bool := (97 <=? c) && (c <=? 122).
Definition ascii_upper (c : cu) : cu := if is_ascii_lower c then c - 32 else c.
Definition all_ascii (s : jstring) : bool := forallb (fun c => c <? 128) s.

End JsString.
Import JsString.

(** ** Regular expressions

    The fragment of ECMAScript regular expressions that the sources use:
    literals, classes, greedy and lazy repetition of a class, alternation,
    capture groups, positive lookahead, [^] under the [m] flag and [$]
    without it.  The matcher is the backtracking one of the language
    definition, in continuation-passing style: the first alternative, the
    longest greedy and the shortest lazy repetition are tried first. *)

Module Regex.

Inductive re : Type :=
| REps
| RLit (s : jstring)                 (* the characters of [s], in order *)
| RLitI (s : jstring)                (* the same under the [i] flag, [s] in ASCII *)
| RSet (p : cu -> bool)              (* one code unit of a class *)
| RSeq (r1 r2 : re)
| RAlt (r1 r2 : re)
| RStarG (p : cu -> bool)            (* [p*]  *)
| RStarL (p : cu -> bool)            (* [p*?] *)
| RGroup (i : nat) (r : re)          (* the [i]-th capture group *)
| RLook (r : re)                     (* [(?=r)] *)
| RBol                               (* [^] with the [m] flag *)
| REnd.                              (* [$] without the [m] flag *)

Definition ROpt (r : re) : re := RAlt r REps.            (* [r?] *)
Definition RPlusG (p : cu -> bool) : re := RSeq (RSet p) (RStarG p).  (* [p+] *)

Fixpoint rseq (rs : list re) : re :=
  match rs with
  | [] => REps
  | [r] => r
  | r :: rs' => RSeq r (rseq rs')
  end.

(** Captures: the latest binding of a group comes first. *)
Definition caps := list (nat * jstring).

Fixpoint cap_lookup (i : nat) (c : caps) : option jstring :=
  match c with
  | [] => None
  | (j, v) :: c' => if Nat.eqb i j then Some v else cap_lookup i c'
  end.

(** The continuation receives the code unit before the position, the rest
    of the input and the captures. *)
Definition cont := option cu -> jstring -> caps -> option (jstring * caps).

Fixpoint last_cu (l : jstring) (pv : option cu) : option cu :=
  match l with
  | [] => pv
  | x :: l' => last_cu l' (Some x)
  end.

Fixpoint strip_prefix_ci (p s : jstring) : option jstring :=
  match p, s with
  | [], _ => Some s
  | a :: p', b :: s' =>
      if (b <? 128) && N.eqb (ascii_upper a) (ascii_upper b)
      then strip_prefix_ci p' s' else None
  | _ :: _, [] => None
  end.

Fixpoint star_greedy (p : cu -> bool) (k : cont) (pv : option cu) (s : jstring) (c : caps)
  : option (jstring * caps) :=
  match s with
  | x :: s' =>
      if p x then
        match star_greedy p k (Some x) s' c with
        | Some r => Some r
        | None => k pv s c
        end
      else k pv s c
  | [] => k pv s c
  end.

Fixpoint star_lazy (p : cu -> bool) (k : cont) (pv : option cu) (s : jstring) (c : caps)
  : option (jstring * caps) :=
  match k pv s c with
  | Some r => Some r
  | None =>
      match s with
      | x :: s' => if p x then star_lazy p k (Some x) s' c else None
      | [] => None
      end
  end.

Definition at_line_start (pv : option cu) : bool :=
  match pv with
  | None => true
  | Some x => is_line_terminator x
  end.

Definition consumed (s s' : jstring) : jstring :=
  take (length s - length s')%nat s.

Fixpoint rmatch (r : re) (pv : option cu) (s : jstring) (c : caps) (k : cont)
  : option (jstring * caps) :=
  match r with
  | REps => k pv s c
  | RLit l =>
      match strip_prefix l s with
      | Some s' => k (last_cu l pv) s' c
      | None => None
      end
  | RLitI l =>
      match strip_prefix_ci l s with
      | Some s' => k (last_cu (consumed s s') pv) s' c
      | None => None
      end
  | RSet p =>
      match s with
      | x :: s' => if p x then k (Some x) s' c else None
      | [] => None
      end
  | RSeq r1 r2 => rmatch r1 pv s c (fun pv' s' c' => rmatch r2 pv' s' c' k)
  | RAlt r1 r2 =>
      match rmatch r1 pv s c k with
      | Some x => Some x
      | None => rmatch r2 pv s c k
      end
  | RStarG p => star_greedy p k pv s c
  | RStarL p => star_lazy p k pv s c
  | RGroup i r1 =>
      rmatch r1 pv s c (fun pv' s' c' => k pv' s' ((i, consumed s s') :: c'))
  | RLook r1 =>
      match rmatch r1 pv s c (fun _ s' c' => Some (s', c')) with
      | Some (_, c') => k pv s c'
      | None => None
      end
  | RBol => if at_line_start pv then k pv s c else None
  | REnd => match s with [] => k pv s c | _ :: _ => None end
  end.

Definition accept : cont := fun _ s c => Some (s, c).

(** What [String.prototype.match] (no [g] flag) and [RegExp.prototype.exec]
    return: where the match starts, the matched text and the groups. *)
Record rmatch_result := { m_index : nat; m_text : jstring; m_caps : caps }.

Fixpoint search_from (r : re) (pv : option cu) (s : jstring) (idx : nat)
  : option rmatch_result :=
  match rmatch r pv s [] accept with
  | Some (s', c) =>
      Some {| m_index := idx; m_text := consumed s s'; m_caps := c |}
  | None =>
      match s with
      | [] => None
      | x :: s' => search_from r (Some x) s' (S idx)
      end
  end.

(** [text.match(r)] *)
Definition str_match (r : re) (text : jstring) : option rmatch_result :=
  search_from r None text 0.

(** [r.test(text)] *)
Definition test (r : re) (text : jstring) : bool :=
  match str_match r text with Some _ => true | None => false end.

(** An expression without capture groups. *)
Fixpoint groupless (r : re) : bool :=
  match r with
  | RSeq r1 r2 | RAlt r1 r2 => groupless r1 && groupless r2
  | RGroup _ _ => false
  | RLook r1 => groupless r1
  | _ => true
  end.

(** [m[i]] for a group that takes part in every match of its expression. *)
Definition group (i : nat) (m : rmatch_result) : jstring :=
  default [] (cap_lookup i (m_caps m)).

End Regex.
Import Regex.

(** ** The status block: [parseRalphStatus] *)

Record RalphStatus := {
  taskCompleted : jstring;
  filesCreated : list jstring;
  nextTask : jstring;
  exitSignal : bool;
  notes : jstring
}.

Definition any_cu (_ : cu) : bool := true.
Definition not_dquote (c : cu) : bool := negb (c =? 34).

(** /RALPH_STATUS:\s*([\s\S]*?)(?=\n\n|\z)/ : without the [u] flag [\z] is
    an identity escape, the letter z. *)
Definition re_status_block : re :=
  rseq [RLit (js "RALPH_STATUS:"); RStarG is_space; RGroup 1 (RStarL any_cu);
        RLook (RAlt (RLit [LF; LF]) (RLit (js "z")))].

(** /KEY:\s*Q([^Q]+)Q/ where Q stands for the double quote (code unit 34). *)
Definition re_quoted_field (key : string) : re :=
  rseq [RLit (js key); RStarG is_space; RLit [34]; RGroup 1 (RPlusG not_dquote); RLit [34]].

(** /FILES_CREATED:\s*\[(.*?)\]/s *)
Definition re_files_created : re :=
  rseq [RLit (js "FILES_CREATED:"); RStarG is_space; RLit (js "["); RGroup 1 (RStarL any_cu);
        RLit (js "]")].

(** /EXIT_SIGNAL:\s*(true|false)/ *)
Definition re_exit_signal : re :=
  rseq [RLit (js "EXIT_SIGNAL:"); RStarG is_space;
        RGroup 1 (RAlt (RLit (js "true")) (RLit (js "false")))].

Definition parseRalphStatus (text : jstring) : option RalphStatus :=
  match str_match re_status_block text with
  | None => None
  | Some statusMatch =>
      let statusBlock := group 1 statusMatch in
      let taskCompleted :=
        match str_match (re_quoted_field "TASK_COMPLETED:") statusBlock with
        | Some m => group 1 m
        | None => []
        end in
      let filesCreated :=
        match str_match re_files_created statusBlock with
        | Some m =>
            List.filter nonempty
              (List.map (fun f => remove_all 34 (trim f)) (split_on 44 (group 1 m)))
        | None => []
        end in
      let nextTask :=
        match str_match (re_quoted_field "NEXT_TASK:") statusBlock with
        | Some m => group 1 m
        | None => []
        end in
      let exitSignal :=
        match str_match re_exit_signal statusBlock with
        | Some m => jeqb (group 1 m) (js "true")
        | None => false
        end in
      let notes :=
        match str_match (re_quoted_field "NOTES:") statusBlock with
        | Some m => group 1 m
        | None => []
        end in
      Some {| taskCompleted := taskCompleted; filesCreated := filesCreated;
              nextTask := nextTask; exitSignal := exitSignal; notes := notes |}
  end.

(** No position of [s] is followed by an empty line or by the letter z:
    nowhere can the lookahead of the block expression succeed. *)
Fixpoint unterminated (s : jstring) : bool :=
  negb (is_some (strip_prefix [LF; LF] s)) && negb (is_some (strip_prefix (js "z") s))
  && match s with
     | [] => true
     | _ :: s' => unterminated s'
     end.

(** ** The file system seen by the process manager

    [existsSync], [fs.readFile] and [path.join] of the runtime: a snapshot of
    the disk at the time of a call.  [readFile] is [None] when the read
    throws (file missing or unreadable). *)

Record FileSystem := {
  join : string -> string -> string;
  existsSync : string -> bool;
  readFile : string -> option jstring
}.

(** ** Plan exhaustion: [checkPlanExhausted] *)

(** /^-\s*\[\s*\]/m *)
Definition re_unchecked_body : re :=
  rseq [RLit (js "-"); RStarG is_space; RLit (js "["); RStarG is_space; RLit (js "]")].

Definition re_unchecked : re := RSeq RBol re_unchecked_body.

Definition checkPlanExhausted (fs : FileSystem) (projectPath : string) : bool :=
  let planPath := join fs projectPath "IMPLEMENTATION_PLAN.md" in
  match readFile fs planPath with
  | Some content =>
      let hasRemainingTasks := test re_unchecked content in
      negb hasRemainingTasks
  | None => false
  end.

(** The reading of the specification: the document is split into its lines
    and each line is tried against the marker pattern on its own. *)
Definition spec_line_unchecked (line : jstring) : bool := test re_unchecked line.

Definition spec_plan_exhausted (content : jstring) : bool :=
  forallb (fun line => negb (spec_line_unchecked line)) (split_on LF content).

(** What the expression amounts to at one position: a dash, white space
    (line breaks included), an opening bracket, white space, a closing
    bracket. *)
Definition marker_at (s : jstring) : bool :=
  match s with
  | x :: t =>
      (x =? 45)
      && match drop_while is_space t with
         | y :: u =>
             (y =? 91)
             && match drop_while is_space u with
                | z :: _ => z =? 93
                | [] => false
                end
         | [] => false
         end
  | [] => false
  end.

(** [f] holds at some position of [s] that starts a line. *)
Fixpoint any_line_start (f : jstring -> bool) (pv : option cu) (s : jstring) : bool :=
  (at_line_start pv && f s)
  || match s with
     | [] => false
     | x :: s' => any_line_start f (Some x) s'
     end.

(** ** JavaScript values

    What [JSON.parse] returns and what the parsers build: dynamically typed
    values.  A number is a rational or an infinity or NaN: the numbers of
    [JSON.parse] are the doubles it returns, [parseInt] rounds the integer it
    reads to the nearest double, and the counters of the process manager are
    integers far below 2^53.  An object lists its own properties in insertion
    order, each name once; no value is a function, so an own property never
    is callable. *)

Module JsValue.

Inductive num : Type :=
| NFin (q : Q)
| NInf (negative : bool)
| NNaN.

Inductive jsval : Type :=
| JUndefined
| JNull
| JBool (b : bool)
| JNum (n : num)
| JStr (s : jstring)
| JArr (items : list jsval)
| JObj (fields : list (jstring * jsval)).

(** What a function throws. *)
Inductive JsError : Type :=
| TypeError
| Error_ (message : jstring).

Inductive exn (A : Type) : Type :=
| Ok (a : A)
| Throw (e : JsError).
Arguments Ok {A} a.
Arguments Throw {A} e.

Definition bind {A B} (m : exn A) (f : A -> exn B) : exn B :=
  match m with
  | Ok a => f a
  | Throw e => Throw e
  end.

Notation "x <- m ;; k" := (bind m (fun x => k))
  (at level 100, m at next level, right associativity).

(** [try { m } catch { h }] *)
Definition try_catch {A} (m : exn A) (h : JsError -> A) : A :=
  match m with
  | Ok a => a
  | Throw e => h e
  end.

Fixpoint mapM {A B} (f : A -> exn B) (l : list A) : exn (list B) :=
  match l with
  | [] => Ok []
  | a :: l' => b <- f a ;; bs <- mapM f l' ;; Ok (b :: bs)
  end.

Definition num_of_Z (z : Z) : num := NFin (inject_Z z).

Definition num_neg (a : num) : num :=
  match a with
  | NFin q => NFin (- q)
  | NInf negative => NInf (negb negative)
  | NNaN => NNaN
  end.

(** The double nearest to a natural number, ties to the even significand;
    Infinity from 2^1024 - 2^970 on. *)
Definition round_to_double (z : Z) : num :=
  let bits := (Z.log2 z + 1)%Z in
  if (bits <=? 53)%Z then num_of_Z z
  else
    let e := (bits - 53)%Z in
    let q := Z.shiftr z e in
    let r := (z - Z.shiftl q e)%Z in
    let half := Z.shiftl 1 (e - 1) in
    let q' := if (half <? r)%Z || ((r =? half)%Z && Z.odd q) then (q + 1)%Z else q in
    let m := Z.shiftl q' e in
    if (Z.shiftl 1 1024 <=? m)%Z then NInf false else num_of_Z m.

(** [a < b] on numbers: false as soon as one side is NaN. *)
Definition num_ltb (a b : num) : bool :=
  match a, b with
  | NNaN, _ | _, NNaN => false
  | NFin x, NFin y => negb (Qle_bool y x)
  | NFin _, NInf neg => negb neg
  | NInf neg, NFin _ => neg
  | NInf n1, NInf n2 => n1 && negb n2
  end.

Definition num_is_zero (a : num) : bool :=
  match a with
  | NFin x => Qeq_bool x 0
  | _ => false
  end.

(** [Math.min], [Math.max]: NaN if one argument is. *)
Definition Math_min (a b : num) : num :=
  match a, b with
  | NNaN, _ | _, NNaN => NNaN
  | _, _ => if num_ltb b a then b else a
  end.

Definition Math_max (a b : num) : num :=
  match a, b with
  | NNaN, _ | _, NNaN => NNaN
  | _, _ => if num_ltb a b then b else a
  end.

(** ToBoolean *)
Definition truthy (v : jsval) : bool :=
  match v with
  | JUndefined | JNull => false
  | JBool b => b
  | JNum n => match n with NNaN => false | _ => negb (num_is_zero n) end
  | JStr s => nonempty s
  | JArr _ | JObj _ => true
  end.

(** [a || b] *)
Definition js_or (a b : jsval) : jsval := if truthy a then a else b.

Inductive JsType := TUndefined | TObject | TBoolean | TNumber | TString.

Definition typeof (v : jsval) : JsType :=
  match v with
  | JUndefined => TUndefined
  | JNull | JArr _ | JObj _ => TObject
  | JBool _ => TBoolean
  | JNum _ => TNumber
  | JStr _ => TString
  end.

Definition isArray (v : jsval) : bool :=
  match v with JArr _ => true | _ => false end.

Fixpoint lookup_field (key : jstring) (fields : list (jstring * jsval)) : jsval :=
  match fields with
  | [] => JUndefined
  | (k, v) :: fields' => if jeqb k key then v else lookup_field key fields'
  end.

(** [o[key] = v] on the properties of an object. *)
Fixpoint set_field (key : jstring) (v : jsval) (fields : list (jstring * jsval))
  : list (jstring * jsval) :=
  match fields with
  | [] => [(key, v)]
  | (k, v0) :: fields' =>
      if jeqb k key then (k, v) :: fields' else (k, v0) :: set_field key v fields'
  end.

Definition show_nat (n : nat) : jstring := js (NilEmpty.string_of_uint (Nat.to_uint n)).
Definition show_Z (z : Z) : jstring := js (NilEmpty.string_of_int (Z.to_int z)).

(** [v.key] for the property names the sources read: reading a property of
    [undefined] or [null] throws; a string and an array have a [length];
    other values have none of these properties. *)
Definition get_prop (v : jsval) (key : string) : exn jsval :=
  match v with
  | JUndefined | JNull => Throw TypeError
  | JObj fields => Ok (lookup_field (js key) fields)
  | JArr items =>
      Ok (if String.eqb key "length" then JNum (num_of_Z (Z.of_nat (length items)))
          else JUndefined)
  | JStr s =>
      Ok (if String.eqb key "length" then JNum (num_of_Z (Z.of_nat (length s)))
          else JUndefined)
  | JBool _ | JNum _ => Ok JUndefined
  end.

(** [v?.key] *)
Definition get_prop_opt (v : jsval) (key : string) : jsval :=
  match v with
  | JUndefined | JNull => JUndefined
  | _ => try_catch (get_prop v key) (fun _ => JUndefined)
  end.

(** [a === b] against a string literal. *)
Definition is_str (v : jsval) (lit : string) : bool :=
  match v with
  | JStr s => jeqb s (js lit)
  | _ => false
  end.

(** [[l1, l2, ...].includes(v)] for string literals. *)
Definition str_in (v : jsval) (lits : list string) : bool :=
  existsb (is_str v) lits.

(** [Object.hasOwn(o, key)] on the properties of an object. *)
Definition has_own (key : jstring) (fields : list (jstring * jsval)) : bool :=
  existsb (fun kv => jeqb (fst kv) key) fields.

Definition own_fields (v : jsval) : list (jstring * jsval) :=
  match v with
  | JObj fields => fields
  | JArr items => imap (fun i x => (show_nat i, x)) items
  | JStr s => imap (fun i c => (show_nat i, JStr [c])) s
  | _ => []
  end.

(** The runtime: [JSON.parse] ([None] when it throws), the printing of a
    number, the upper case of text outside ASCII, and what the language
    leaves to the implementation: the value [parseInt] gives a run of more
    than 20 significant decimal digits (the digits after the 20th may be
    read as 0), and the order [Array.prototype.sort] gives items under a
    comparison function that is not consistent. *)
Record Runtime := {
  JSON_parse : jstring -> option jsval;
  Number_toString : num -> jstring;
  String_toNumber : jstring -> num;
  unicode_toUpperCase : jstring -> jstring;
  TypeError_message : jstring;
  parseInt_long : jstring -> num;
  sort_inconsistent : list jsval -> list jsval
}.

Section WithRuntime.
Variable rt : Runtime.

Definition join_with (sep : jstring) (parts : list jstring) : jstring :=
  match parts with
  | [] => []
  | p :: ps => p ++ flat_map (fun q => sep ++ q) ps
  end.

(** [String(v)], and the conversion of [v] in a template literal.  An
    array is joined with commas ([undefined] and [null] give the empty
    string).  An object is converted by its [toString]: the inherited one
    answers [[object Object]]; an own property of that name is not callable,
    and then neither [valueOf] gives a primitive: a TypeError. *)
Fixpoint String_ (v : jsval) : exn jstring :=
  match v with
  | JUndefined => Ok (js "undefined")
  | JNull => Ok (js "null")
  | JBool b => Ok (if b then js "true" else js "false")
  | JNum n => Ok (Number_toString rt n)
  | JStr s => Ok s
  | JArr items =>
      parts <-
        (fix each (l : list jsval) : exn (list jstring) :=
           match l with
           | [] => Ok []
           | x :: l' =>
               s <- match x with
                    | JUndefined | JNull => Ok []
                    | _ => String_ x
                    end ;;
               ss <- each l' ;;
               Ok (s :: ss)
           end) items ;;
      Ok (join_with (js ",") parts)
  | JObj fields =>
      if has_own (js "toString") fields then Throw TypeError
      else Ok (js "[object Object]")
  end.

(** [parts.join(sep)] *)
Definition join_values (sep : jstring) (parts : list jsval) : exn jstring :=
  ss <- mapM (fun x => match x with
                       | JUndefined | JNull => Ok []
                       | _ => String_ x
                       end) parts ;;
  Ok (join_with sep ss).

(** ToNumber: an array or an object goes through its conversion to a
    string. *)
Definition ToNumber (v : jsval) : exn num :=
  match v with
  | JUndefined => Ok NNaN
  | JNull => Ok (num_of_Z 0)
  | JBool b => Ok (num_of_Z (if b then 1 else 0))
  | JNum n => Ok n
  | JStr s => Ok (String_toNumber rt s)
  | JArr _ | JObj _ => s <- String_ v ;; Ok (String_toNumber rt s)
  end.

(** [error instanceof Error ? error.message : ...]: every value thrown
    here is an [Error]. *)
Definition error_message (e : JsError) : jstring :=
  match e with
  | TypeError => TypeError_message rt
  | Error_ m => m
  end.

(** [s.toUpperCase()] *)
Definition toUpperCase (s : jstring) : jstring :=
  if all_ascii s then List.map ascii_upper s else unicode_toUpperCase rt s.

Fixpoint digits_value (ds : jstring) (acc : Z) : Z :=
  match ds with
  | [] => acc
  | d :: ds' => digits_value ds' (10 * acc + Z.of_N (d - 48))%Z
  end.

Fixpoint take_while (p : cu -> bool) (s : jstring) : jstring :=
  match s with
  | [] => []
  | x :: s' => if p x then x :: take_while p s' else []
  end.

(** [parseInt(s, 10)]: white space, a sign, then the decimal digits, read
    as the nearest double. *)
Definition parseInt10 (s : jstring) : num :=
  let s1 := drop_while is_space s in
  let '(neg, s2) :=
    match s1 with
    | 45 :: t => (true, t)
    | 43 :: t => (false, t)
    | _ => (false, s1)
    end in
  match take_while is_digit s2 with
  | [] => NNaN
  | ds =>
      let significant := drop_while (fun c => c =? 48) ds in
      let magnitude :=
        if (20 <? length significant)%nat then parseInt_long rt significant
        else round_to_double (digits_value ds 0) in
      if neg then num_neg magnitude else magnitude
  end.

End WithRuntime.

End JsValue.
Import JsValue.

(** ** The review report: [lib/ralph/reviewParser.ts] *)

Module ReviewParser.

Section WithRuntime.
Variable rt : Runtime.

Definition review_statuses : list string :=
  ["COMPLETE"; "PARTIAL"; "INCOMPLETE"; "ERROR"; "PENDING"].

Definition dquote : jstring := [34].

(** [extractTextFromStreamJson]: one line of the loop; what is pushed on
    [textParts]. *)
Definition stream_line_parts (line : jstring) : list jsval :=
  let trimmed := trim line in
  if negb (nonempty trimmed) then []
  else
    let on_catch :=
      if negb (is_some (strip_prefix (js "{") trimmed)) then [JStr trimmed] else [] in
    match JSON_parse rt trimmed with
    | None => on_catch
    | Some event =>
        try_catch
          (ty <- get_prop event "type" ;;
           let delta_text := get_prop_opt (get_prop_opt event "delta") "text" in
           let p1 :=
             if is_str ty "content_block_delta" && truthy delta_text
             then [delta_text] else [] in
           let block_text := get_prop_opt (get_prop_opt event "content_block") "text" in
           let p2 :=
             if is_str ty "content_block_start" && truthy block_text
             then [block_text] else [] in
           Ok (p1 ++ p2))
          (fun _ => on_catch)
    end.

(** The [join] at the end is outside every [try]: it throws when a text
    that was pushed cannot be converted to a string. *)
Definition extractTextFromStreamJson (output : jstring) : exn jstring :=
  let lines := split_on LF output in
  let textParts := flat_map stream_line_parts lines in
  join_values rt [] textParts.

Inductive ValidationError :=
| NotAnObject
| InvalidReviewStatus
| ScoreNotANumber
| ScoreOutOfRange
| RequirementsNotAnArray.

Definition hundred : num := num_of_Z 100.
Definition zero : num := num_of_Z 0.

(** [validateReviewResultWithDetails]: the list of errors; [valid] is its
    emptiness.  The message of an invalid status is a template literal over
    the status, which is converted to a string there. *)
Definition validateReviewResultWithDetails (result : jsval) : exn (list ValidationError) :=
  if negb (truthy result) || negb (match typeof result with TObject => true | _ => false end)
  then Ok [NotAnObject]
  else
    let prop key := get_prop_opt result key in
    statusErrors <-
      (if negb (str_in (prop "reviewStatus") review_statuses)
       then _ <- String_ rt (prop "reviewStatus") ;; Ok [InvalidReviewStatus]
       else Ok []) ;;
    Ok (statusErrors
        ++ (match prop "overallScore" with
            | JNum n => if num_ltb n zero || num_ltb hundred n then [ScoreOutOfRange] else []
            | _ => [ScoreNotANumber]
            end)
        ++ (if negb (isArray (prop "requirements")) then [RequirementsNotAnArray] else [])).

Definition valid (errors : list ValidationError) : bool :=
  match errors with [] => true | _ :: _ => false end.

Definition fix_status (reviewStatus : jsval) : exn jsval :=
  text <- String_ rt (js_or reviewStatus (JStr [])) ;;
  let status := toUpperCase rt text in
  Ok (if str_in (JStr status) review_statuses then JStr status
      else if includes status (js "COMPLETE") then JStr (js "COMPLETE")
      else if includes status (js "PARTIAL") then JStr (js "PARTIAL")
      else JStr (js "INCOMPLETE")).

Definition fix_score (overallScore : jsval) : jsval :=
  match overallScore with
  | JNum n => JNum (Math_max zero (Math_min hundred n))
  | JStr s => js_or (JNum (parseInt10 rt s)) (JNum zero)
  | _ => JNum zero
  end.

Definition fix_requirement (idx : nat) (req : jsval) : exn jsval :=
  id <- get_prop req "id" ;;
  description <- get_prop req "description" ;;
  name <- get_prop req "name" ;;
  status <- get_prop req "status" ;;
  evidence <- get_prop req "evidence" ;;
  notes <- get_prop req "notes" ;;
  text <- String_ rt status ;;
  let upper := toUpperCase rt text in
  Ok (JObj [
    (js "id", js_or id (JStr (js "REQ-" ++ show_nat (idx + 1))));
    (js "description", js_or description (js_or name (JStr (js "Unknown requirement"))));
    (js "status",
       if str_in (JStr upper) ["COMPLETE"; "PARTIAL"; "MISSING"]
       then JStr upper else JStr (js "MISSING"));
    (js "evidence", evidence);
    (js "notes", notes)]).

Definition fix_missing_item (item : jsval) : exn jsval :=
  description <- get_prop item "description" ;;
  priority <- get_prop item "priority" ;;
  suggestedFix <- get_prop item "suggestedFix" ;;
  (* [item.description || String(item)]: the item is converted only when it
     has no description *)
  described <-
    (if truthy description then Ok description
     else text <- String_ rt item ;; Ok (JStr text)) ;;
  text <- String_ rt priority ;;
  let upper := toUpperCase rt text in
  Ok (JObj [
    (js "description", described);
    (js "priority",
       if str_in (JStr upper) ["HIGH"; "MEDIUM"; "LOW"]
       then JStr upper else JStr (js "MEDIUM"));
    (js "suggestedFix", suggestedFix)]).

Fixpoint mapM_idx {A B} (f : nat -> A -> exn B) (i : nat) (l : list A) : exn (list B) :=
  match l with
  | [] => Ok []
  | a :: l' => b <- f i a ;; bs <- mapM_idx f (S i) l' ;; Ok (b :: bs)
  end.

(** [Array.isArray(v) ? v.map(String) : otherwise] *)
Definition strings_of (v : jsval) (otherwise : list jstring) : exn jsval :=
  match v with
  | JArr items =>
      texts <- mapM (fun x => text <- String_ rt x ;; Ok (JStr text)) items ;;
      Ok (JArr texts)
  | _ => Ok (JArr (List.map JStr otherwise))
  end.

(** [String(v || otherwise)] *)
Definition string_or (v : jsval) (otherwise : string) : exn jsval :=
  text <- String_ rt (js_or v (JStr (js otherwise))) ;; Ok (JStr text).

(** [fixReviewResult]: the properties of [fixed], in the order they are
    assigned.  Reading a property of [null] and converting an object with an
    own [toString] throw; the callers catch it. *)
Definition fixReviewResult (result : jsval) : exn (list (jstring * jsval)) :=
  reviewStatus <- get_prop result "reviewStatus" ;;
  fixedStatus <- fix_status reviewStatus ;;
  overallScore <- get_prop result "overallScore" ;;
  requirements <- get_prop result "requirements" ;;
  fixedRequirements <-
    match requirements with
    | JArr items => mapM_idx fix_requirement 0 items
    | _ => Ok []
    end ;;
  missingItems <- get_prop result "missingItems" ;;
  fixedMissing <-
    match missingItems with
    | JArr items => mapM fix_missing_item items
    | _ => Ok []
    end ;;
  summary <- get_prop result "summary" ;;
  fixedSummary <- string_or summary "Review completed" ;;
  testingNotes <- get_prop result "testingNotes" ;;
  fixedNotes <- string_or testingNotes "" ;;
  setup <- get_prop result "setupInstructions" ;;
  let fixed := [
    (js "reviewStatus", fixedStatus);
    (js "overallScore", fix_score overallScore);
    (js "requirements", JArr fixedRequirements);
    (js "missingItems", JArr fixedMissing);
    (js "summary", fixedSummary);
    (js "testingNotes", fixedNotes)] in
  if truthy setup && match typeof setup with TObject => true | _ => false end
  then
    let sp key := get_prop_opt setup key in
    envVars <- strings_of (sp "envVars") [] ;;
    installCommands <- strings_of (sp "installCommands") [js "npm install"] ;;
    buildCommand <- string_or (sp "buildCommand") "npm run build" ;;
    testCommand <- string_or (sp "testCommand") "npm test" ;;
    runCommand <- string_or (sp "runCommand") "npm start" ;;
    Ok (fixed ++ [
      (js "setupInstructions", JObj [
         (js "envVars", envVars);
         (js "installCommands", installCommands);
         (js "buildCommand", buildCommand);
         (js "testCommand", testCommand);
         (js "runCommand", runCommand)])])
  else Ok fixed.

Definition default_setup : jsval :=
  JObj [
    (js "envVars", JArr []);
    (js "installCommands", JArr []);
    (js "buildCommand", JStr (js "npm run build"));
    (js "testCommand", JStr (js "npm test"));
    (js "runCommand", JStr (js "npm start"))].

Definition quote_cu (c : cu) : bool := (c =? 34) || (c =? 39).
Definition colon_or_eq (c : cu) : bool := (c =? 58) || (c =? 61).
Definition not_quote_cu (c : cu) : bool := negb (quote_cu c).

(** /reviewStatus[Qq]?\s*[:=]\s*[Qq]?(COMPLETE|PARTIAL|INCOMPLETE)[Qq]?/i,
    [Qq] the class of the double and the single quote. *)
Definition re_partial_status : re :=
  rseq [RLitI (js "reviewStatus"); ROpt (RSet quote_cu); RStarG is_space;
        RSet colon_or_eq; RStarG is_space; ROpt (RSet quote_cu);
        RGroup 1 (RAlt (RLitI (js "COMPLETE"))
                    (RAlt (RLitI (js "PARTIAL")) (RLitI (js "INCOMPLETE"))));
        ROpt (RSet quote_cu)].

(** /overallScore[Qq]?\s*[:=]\s*(\d+)/ *)
Definition re_partial_score : re :=
  rseq [RLit (js "overallScore"); ROpt (RSet quote_cu); RStarG is_space;
        RSet colon_or_eq; RStarG is_space; RGroup 1 (RPlusG is_digit)].

(** /summary[Qq]?\s*[:=]\s*[Qq]([^Qq]+)[Qq]/ *)
Definition re_partial_summary : re :=
  rseq [RLit (js "summary"); ROpt (RSet quote_cu); RStarG is_space;
        RSet colon_or_eq; RStarG is_space; RSet quote_cu;
        RGroup 1 (RPlusG not_quote_cu); RSet quote_cu].

(** [extractPartialReview] *)
Definition extractPartialReview (output : jstring) : option (list (jstring * jsval)) :=
  let statusMatch := str_match re_partial_status output in
  let scoreMatch := str_match re_partial_score output in
  let summaryMatch := str_match re_partial_summary output in
  let result := [
    (js "reviewStatus",
       match statusMatch with
       | Some m => JStr (toUpperCase rt (group 1 m))
       | None => JStr (js "ERROR")
       end);
    (js "overallScore",
       match scoreMatch with
       | Some m => JNum (parseInt10 rt (group 1 m))
       | None => JNum zero
       end);
    (js "requirements", JArr []);
    (js "missingItems", JArr []);
    (js "setupInstructions", default_setup);
    (js "testingNotes", JStr []);
    (js "summary",
       match summaryMatch with
       | Some m => JStr (group 1 m)
       | None =>
           JStr (js "Review output could not be fully parsed. See raw output for details.")
       end)] in
  if is_some statusMatch || is_some scoreMatch then Some result else None.

(** [createErrorReviewResult] *)
Definition createErrorReviewResult (now : Z) (error : jstring) (rawOutput : jsval) : jsval :=
  JObj [
    (js "reviewStatus", JStr (js "ERROR"));
    (js "overallScore", JNum zero);
    (js "requirements", JArr []);
    (js "missingItems", JArr []);
    (js "setupInstructions", JObj [
       (js "envVars", JArr []);
       (js "installCommands", JArr []);
       (js "buildCommand", JStr []);
       (js "testCommand", JStr []);
       (js "runCommand", JStr [])]);
    (js "testingNotes", JStr []);
    (js "summary", JStr (js "Review failed: " ++ error));
    (js "timestamp", JNum (num_of_Z now));
    (js "rawOutput", rawOutput)].

(** [normalizeReviewResult] *)
Definition normalizeReviewResult (now : Z) (partial : list (jstring * jsval)) : jsval :=
  let p key := lookup_field (js key) partial in
  JObj [
    (js "reviewStatus", js_or (p "reviewStatus") (JStr (js "ERROR")));
    (js "overallScore", js_or (p "overallScore") (JNum zero));
    (js "requirements", js_or (p "requirements") (JArr []));
    (js "missingItems", js_or (p "missingItems") (JArr []));
    (js "setupInstructions", js_or (p "setupInstructions") default_setup);
    (js "testingNotes", js_or (p "testingNotes") (JStr []));
    (js "summary", js_or (p "summary") (JStr (js "No summary available")));
    (js "timestamp", js_or (p "timestamp") (JNum (num_of_Z now)));
    (js "rawOutput", p "rawOutput");
    (js "reviewDurationMs", p "reviewDurationMs")].

(** Three backquotes and the word json, white space, the block, three
    backquotes. *)
Definition re_json_block : re :=
  rseq [RLit (js "```json"); RStarG is_space; RGroup 1 (RStarL any_cu); RLit (js "```")].

Definition not_rbrace (c : cu) : bool := negb (c =? 125).

(** /\{[\s\S]*?QreviewStatusQ[\s\S]*?\}(?=\s*$|[^}])/ with Q the double
    quote. *)
Definition re_raw_json : re :=
  rseq [RLit (js "{"); RStarL any_cu; RLit (dquote ++ js "reviewStatus" ++ dquote);
        RStarL any_cu; RLit (js "}");
        RLook (RAlt (RSeq (RStarG is_space) REnd) (RSet not_rbrace))].

(** [text.indexOf(needle)] *)
Fixpoint indexOf (text needle : jstring) (i : nat) : option nat :=
  match strip_prefix needle text with
  | Some _ => Some i
  | None => match text with
            | [] => None
            | _ :: text' => indexOf text' needle (S i)
            end
  end.

(** The loop that looks for the brace closing the one at [startIdx]: the
    end index, [startIdx] itself when the depth never returns to 0. *)
Fixpoint brace_end (text : jstring) (i : nat) (depth : Z) (startIdx : nat) : nat :=
  match text with
  | [] => startIdx
  | c :: text' =>
      let depth1 := if c =? 123 then (depth + 1)%Z else depth in
      if c =? 125 then
        let depth2 := (depth1 - 1)%Z in
        if (depth2 =? 0)%Z then S i else brace_end text' (S i) depth2 startIdx
      else brace_end text' (S i) depth1 startIdx
  end.

Definition substring (text : jstring) (from to : nat) : jstring :=
  take (to - from) (drop from text).

(** What both JSON tiers do with the text they have cut out: parse,
    validate, return the object as it is or repaired. *)
Definition parse_candidate (now : Z) (output jsonStr : jstring) : exn jsval :=
  match JSON_parse rt jsonStr with
  | None => Throw (Error_ (js "SyntaxError"))
  | Some parsed =>
      validation <- validateReviewResultWithDetails parsed ;;
      if valid validation then
        Ok (JObj (set_field (js "rawOutput") (JStr output)
                    (set_field (js "timestamp") (JNum (num_of_Z now)) (own_fields parsed))))
      else
        fixed <- fixReviewResult parsed ;;
        Ok (normalizeReviewResult now
              (set_field (js "rawOutput") (JStr output)
                 (set_field (js "timestamp") (JNum (num_of_Z now)) fixed)))
  end.

Definition is_stream_json (output : jstring) : bool :=
  includes output (dquote ++ js "type" ++ dquote ++ js ":" ++ dquote
                     ++ js "content_block_delta" ++ dquote)
  || includes output (dquote ++ js "type" ++ dquote ++ js ":" ++ dquote
                        ++ js "message_start" ++ dquote).

(** The status of a result is one of the five of [review_statuses]. *)
Definition status_ok (r : jsval) : bool :=
  str_in (get_prop_opt r "reviewStatus") review_statuses.

(** [parseReviewOutput] once it has its text content: the fenced block,
    the raw object, the partial extraction.  [Ok None] is the [null] of the
    source. *)
Definition parse_text (now : Z) (output textContent : jstring) : exn (option jsval) :=
  let tier3 :=
    match extractPartialReview textContent with
    | Some partialResult =>
        Ok (Some (normalizeReviewResult now
                    (set_field (js "rawOutput") (JStr output)
                       (set_field (js "timestamp") (JNum (num_of_Z now)) partialResult))))
    | None => Ok None
    end in
  let tier2 :=
    match str_match re_raw_json textContent with
    | Some rawJsonMatch =>
        let attempt :=
          match indexOf textContent (m_text rawJsonMatch) 0 with
          | Some startIdx =>
              let endIdx := brace_end (drop startIdx textContent) startIdx 0 startIdx in
              let jsonStr := substring textContent startIdx endIdx in
              parse_candidate now output jsonStr
          | None => parse_candidate now output []
          end in
        match attempt with
        | Ok r => Ok (Some r)
        | Throw _ => tier3
        end
    | None => tier3
    end in
  match str_match re_json_block textContent with
  | Some jsonCodeBlockMatch =>
      match parse_candidate now output (trim (group 1 jsonCodeBlockMatch)) with
      | Ok r => Ok (Some r)
      | Throw _ => tier2
      end
  | None => tier2
  end.

(** [parseReviewOutput].  The text of a stream is extracted before the
    first [try]: what the extraction throws, the parser throws. *)
Definition parseReviewOutput (now : Z) (output : jstring) : exn (option jsval) :=
  textContent <-
    (if is_stream_json output then extractTextFromStreamJson output else Ok output) ;;
  parse_text now output textContent.

End WithRuntime.

End ReviewParser.

(** ** The process manager: [lib/cli/ProcessManager]

    The twelve [Map]s of the class, keyed by session id, and what the manager
    has done to the outside so far: the events it emitted, the processes it
    spawned, the signals it sent and the timers it armed, oldest first. *)

Inductive Mode := plan | build.

Record AutoContinueConfig := {
  enabled : bool;
  maxAutoIterations : Z;
  currentAutoIteration : Z
}.

Record LoopConfig := {
  projectPath : string;
  promptFile : string;
  mode : Mode;
  model : string;
  sessionId : string;
  claudeCliPath : option string;
  maxIterations : option Z;
  autoPush : option bool;
  verbose : option bool;
  autoReview : option bool;
  autoContinue : option AutoContinueConfig
}.

Record ReviewConfig := {
  rv_projectPath : string;
  rv_sessionId : string;
  rv_model : string;
  rv_claudeCliPath : option string
}.

(** What [spawn] was called with. *)
Record ChildProcess := {
  pid : nat;
  shell : string;
  shell_args : list string;
  cwd : string;
  env_RALPH_MODE : string;
  env_RALPH_SESSION_ID : option string
}.

Inductive Signal := SIGTERM | SIGKILL | SIGSTOP | SIGCONT.

(** [setTimeout]: the forced kill of [stopLoop], five seconds later. *)
Inductive Timer := ForceKill (sid : string) (p : nat).

Inductive SystemMessage :=
| MsgPlanMissing
| MsgBanner (m : Mode) (prompt : string) (branch : jstring) (maxIter : Z)
| MsgPlanCompleted
| MsgPushed (branch : jstring)
| MsgIteration (iteration : Z)
| MsgExitSignal
| MsgStartingAutoReview
| MsgAutoContinue (nextAutoIteration maxAuto : Z)
| MsgMaxAutoContinue (maxAuto : Z)
| MsgReviewStarting
| MsgReviewComplete (reviewStatus overallScore : jsval)
| MsgContinuationDocs.

(** The reason carried by the completion event. *)
Inductive Reason :=
| PlanExhausted
| ExitSignal
| MaxIterations (m : option Z)
| LoopStopped
| ExitCode (code : option Z)
| Unknown.

Definition show_code (code : option Z) : string :=
  match code with
  | Some z => NilEmpty.string_of_int (Z.to_int z)
  | None => "null"
  end.

Definition reason_text (r : Reason) : string :=
  match r with
  | PlanExhausted => "All tasks completed in IMPLEMENTATION_PLAN.md"
  | ExitSignal => "EXIT_SIGNAL received"
  | MaxIterations m =>
      "Max iterations ("
      +:+ match m with
         | Some z => NilEmpty.string_of_int (Z.to_int z)
         | None => "undefined"
         end
      +:+ ") reached"
  | LoopStopped => "Loop was stopped"
  | ExitCode code => "Exit code " +:+ show_code code
  | Unknown => "Unknown"
  end.

(** A [StreamEvent], by [type]; the [timestamp], a reading of the clock, is
    left out. *)
Inductive StreamEvent :=
| EvSystem (m : SystemMessage)
| EvStdoutParsed (data : jsval)
| EvStdoutRaw (raw : jstring)
| EvStderr (message : jstring)
| EvRalphStatus (status : RalphStatus)
| EvComplete (exitCode : option Z) (reason : Reason) (totalIterations : Z)
| EvError (message : jstring).

(** What [emit] published.  [emitEvent] publishes one event on the two
    channels [event] and [session:<id>]: one [OnEvent]. *)
Inductive Emitted :=
| OnEvent (sid : string) (ev : StreamEvent)
| OnIterationUpdate (sid : string) (iteration : Z) (maxIter : option Z)
| OnSessionEnd (sid : string) (exitCode : option Z)
| OnReviewStart (sid : string)
| OnReviewComplete (sid : string) (result : jsval)
| OnReviewError (sid : string) (error : jsval).

Record ProcessManager := {
  processes : gmap string ChildProcess;
  outputBuffers : gmap string jstring;
  sessionConfigs : gmap string LoopConfig;
  iterationCounts : gmap string Z;
  claudeSessionIds : gmap string jsval;
  shouldContinueLoop : gmap string bool;
  exitSignalReceived : gmap string bool;
  currentBranches : gmap string jstring;
  reviewInProgress : gmap string bool;
  latestReviewResults : gmap string jsval;
  e2eInProgress : gmap string bool;
  latestE2EResults : gmap string jsval;
  emitted : list Emitted;
  spawned : list ChildProcess;
  signals : list (nat * Signal);
  timers : list Timer
}.

Definition upd_processes (f : gmap string ChildProcess -> gmap string ChildProcess) (s : ProcessManager) : ProcessManager :=
  {| processes := f (processes s);
     outputBuffers := outputBuffers s;
     sessionConfigs := sessionConfigs s;
     iterationCounts := iterationCounts s;
     claudeSessionIds := claudeSessionIds s;
     shouldContinueLoop := shouldContinueLoop s;
     exitSignalReceived := exitSignalReceived s;
     currentBranches := currentBranches s;
     reviewInProgress := reviewInProgress s;
     latestReviewResults := latestReviewResults s;
     e2eInProgress := e2eInProgress s;
     latestE2EResults := latestE2EResults s;
     emitted := emitted s;
     spawned := spawned s;
     signals := signals s;
     timers := timers s |}.

Definition upd_outputBuffers (f : gmap string jstring -> gmap string jstring) (s : ProcessManager) : ProcessManager :=
  {| processes := processes s;
     outputBuffers := f (outputBuffers s);
     sessionConfigs := sessionConfigs s;
     iterationCounts := iterationCounts s;
     claudeSessionIds := claudeSessionIds s;
     shouldContinueLoop := shouldContinueLoop s;
     exitSignalReceived := exitSignalReceived s;
     currentBranches := currentBranches s;
     reviewInProgress := reviewInProgress s;
     latestReviewResults := latestReviewResults s;
     e2eInProgress := e2eInProgress s;
     latestE2EResults := latestE2EResults s;
     emitted := emitted s;
     spawned := spawned s;
     signals := signals s;
     timers := timers s |}.

Definition upd_sessionConfigs (f : gmap string LoopConfig -> gmap string LoopConfig) (s : ProcessManager) : ProcessManager :=
  {| processes := processes s;
     outputBuffers := outputBuffers s;
     sessionConfigs := f (sessionConfigs s);
     iterationCounts := iterationCounts s;
     claudeSessionIds := claudeSessionIds s;
     shouldContinueLoop := shouldContinueLoop s;
     exitSignalReceived := exitSignalReceived s;
     currentBranches := currentBranches s;
     reviewInProgress := reviewInProgress s;
     latestReviewResults := latestReviewResults s;
     e2eInProgress := e2eInProgress s;
     latestE2EResults := latestE2EResults s;
     emitted := emitted s;
     spawned := spawned s;
     signals := signals s;
     timers := timers s |}.

Definition upd_iterationCounts (f : gmap string Z -> gmap string Z) (s : ProcessManager) : ProcessManager :=
  {| processes := processes s;
     outputBuffers := outputBuffers s;
     sessionConfigs := sessionConfigs s;
     iterationCounts := f (iterationCounts s);
     claudeSessionIds := claudeSessionIds s;
     shouldContinueLoop := shouldContinueLoop s;
     exitSignalReceived := exitSignalReceived s;
     currentBranches := currentBranches s;
     reviewInProgress := reviewInProgress s;
     latestReviewResults := latestReviewResults s;
     e2eInProgress := e2eInProgress s;
     latestE2EResults := latestE2EResults s;
     emitted := emitted s;
     spawned := spawned s;
     signals := signals s;
     timers := timers s |}.

Definition upd_claudeSessionIds (f : gmap string jsval -> gmap string jsval) (s : ProcessManager) : ProcessManager :=
  {| processes := processes s;
     outputBuffers := outputBuffers s;
     sessionConfigs := sessionConfigs s;
     iterationCounts := iterationCounts s;
     claudeSessionIds := f (claudeSessionIds s);
     shouldContinueLoop := shouldContinueLoop s;
     exitSignalReceived := exitSignalReceived s;
     currentBranches := currentBranches s;
     reviewInProgress := reviewInProgress s;
     latestReviewResults := latestReviewResults s;
     e2eInProgress := e2eInProgress s;
     latestE2EResults := latestE2EResults s;
     emitted := emitted s;
     spawned := spawned s;
     signals := signals s;
     timers := timers s |}.

Definition upd_shouldContinueLoop (f : gmap string bool -> gmap string bool) (s : ProcessManager) : ProcessManager :=
  {| processes := processes s;
     outputBuffers := outputBuffers s;
     sessionConfigs := sessionConfigs s;
     iterationCounts := iterationCounts s;
     claudeSessionIds := claudeSessionIds s;
     shouldContinueLoop := f (shouldContinueLoop s);
     exitSignalReceived := exitSignalReceived s;
     currentBranches := currentBranches s;
     reviewInProgress := reviewInProgress s;
     latestReviewResults := latestReviewResults s;
     e2eInProgress := e2eInProgress s;
     latestE2EResults := latestE2EResults s;
     emitted := emitted s;
     spawned := spawned s;
     signals := signals s;
     timers := timers s |}.

Definition upd_exitSignalReceived (f : gmap string bool -> gmap string bool) (s : ProcessManager) : ProcessManager :=
  {| processes := processes s;
     outputBuffers := outputBuffers s;
     sessionConfigs := sessionConfigs s;
     iterationCounts := iterationCounts s;
     claudeSessionIds := claudeSessionIds s;
     shouldContinueLoop := shouldContinueLoop s;
     exitSignalReceived := f (exitSignalReceived s);
     currentBranches := currentBranches s;
     reviewInProgress := reviewInProgress s;
     latestReviewResults := latestReviewResults s;
     e2eInProgress := e2eInProgress s;
     latestE2EResults := latestE2EResults s;
     emitted := emitted s;
     spawned := spawned s;
     signals := signals s;
     timers := timers s |}.

Definition upd_currentBranches (f : gmap string jstring -> gmap string jstring) (s : ProcessManager) : ProcessManager :=
  {| processes := processes s;
     outputBuffers := outputBuffers s;
     sessionConfigs := sessionConfigs s;
     iterationCounts := iterationCounts s;
     claudeSessionIds := claudeSessionIds s;
     shouldContinueLoop := shouldContinueLoop s;
     exitSignalReceived := exitSignalReceived s;
     currentBranches := f (currentBranches s);
     reviewInProgress := reviewInProgress s;
     latestReviewResults := latestReviewResults s;
     e2eInProgress := e2eInProgress s;
     latestE2EResults := latestE2EResults s;
     emitted := emitted s;
     spawned := spawned s;
     signals := signals s;
     timers := timers s |}.

Definition upd_reviewInProgress (f : gmap string bool -> gmap string bool) (s : ProcessManager) : ProcessManager :=
  {| processes := processes s;
     outputBuffers := outputBuffers s;
     sessionConfigs := sessionConfigs s;
     iterationCounts := iterationCounts s;
     claudeSessionIds := claudeSessionIds s;
     shouldContinueLoop := shouldContinueLoop s;
     exitSignalReceived := exitSignalReceived s;
     currentBranches := currentBranches s;
     reviewInProgress := f (reviewInProgress s);
     latestReviewResults := latestReviewResults s;
     e2eInProgress := e2eInProgress s;
     latestE2EResults := latestE2EResults s;
     emitted := emitted s;
     spawned := spawned s;
     signals := signals s;
     timers := timers s |}.

Definition upd_latestReviewResults (f : gmap string jsval -> gmap string jsval) (s : ProcessManager) : ProcessManager :=
  {| processes := processes s;
     outputBuffers := outputBuffers s;
     sessionConfigs := sessionConfigs s;
     iterationCounts := iterationCounts s;
     claudeSessionIds := claudeSessionIds s;
     shouldContinueLoop := shouldContinueLoop s;
     exitSignalReceived := exitSignalReceived s;
     currentBranches := currentBranches s;
     reviewInProgress := reviewInProgress s;
     latestReviewResults := f (latestReviewResults s);
     e2eInProgress := e2eInProgress s;
     latestE2EResults := latestE2EResults s;
     emitted := emitted s;
     spawned := spawned s;
     signals := signals s;
     timers := timers s |}.

Definition upd_e2eInProgress (f : gmap string bool -> gmap string bool) (s : ProcessManager) : ProcessManager :=
  {| processes := processes s;
     outputBuffers := outputBuffers s;
     sessionConfigs := sessionConfigs s;
     iterationCounts := iterationCounts s;
     claudeSessionIds := claudeSessionIds s;
     shouldContinueLoop := shouldContinueLoop s;
     exitSignalReceived := exitSignalReceived s;
     currentBranches := currentBranches s;
     reviewInProgress := reviewInProgress s;
     latestReviewResults := latestReviewResults s;
     e2eInProgress := f (e2eInProgress s);
     latestE2EResults := latestE2EResults s;
     emitted := emitted s;
     spawned := spawned s;
     signals := signals s;
     timers := timers s |}.

Definition upd_latestE2EResults (f : gmap string jsval -> gmap string jsval) (s : ProcessManager) : ProcessManager :=
  {| processes := processes s;
     outputBuffers := outputBuffers s;
     sessionConfigs := sessionConfigs s;
     iterationCounts := iterationCounts s;
     claudeSessionIds := claudeSessionIds s;
     shouldContinueLoop := shouldContinueLoop s;
     exitSignalReceived := exitSignalReceived s;
     currentBranches := currentBranches s;
     reviewInProgress := reviewInProgress s;
     latestReviewResults := latestReviewResults s;
     e2eInProgress := e2eInProgress s;
     latestE2EResults := f (latestE2EResults s);
     emitted := emitted s;
     spawned := spawned s;
     signals := signals s;
     timers := timers s |}.

Definition upd_emitted (f : list Emitted -> list Emitted) (s : ProcessManager) : ProcessManager :=
  {| processes := processes s;
     outputBuffers := outputBuffers s;
     sessionConfigs := sessionConfigs s;
     iterationCounts := iterationCounts s;
     claudeSessionIds := claudeSessionIds s;
     shouldContinueLoop := shouldContinueLoop s;
     exitSignalReceived := exitSignalReceived s;
     currentBranches := currentBranches s;
     reviewInProgress := reviewInProgress s;
     latestReviewResults := latestReviewResults s;
     e2eInProgress := e2eInProgress s;
     latestE2EResults := latestE2EResults s;
     emitted := f (emitted s);
     spawned := spawned s;
     signals := signals s;
     timers := timers s |}.

Definition upd_spawned (f : list ChildProcess -> list ChildProcess) (s : ProcessManager) : ProcessManager :=
  {| processes := processes s;
     outputBuffers := outputBuffers s;
     sessionConfigs := sessionConfigs s;
     iterationCounts := iterationCounts s;
     claudeSessionIds := claudeSessionIds s;
     shouldContinueLoop := shouldContinueLoop s;
     exitSignalReceived := exitSignalReceived s;
     currentBranches := currentBranches s;
     reviewInProgress := reviewInProgress s;
     latestReviewResults := latestReviewResults s;
     e2eInProgress := e2eInProgress s;
     latestE2EResults := latestE2EResults s;
     emitted := emitted s;
     spawned := f (spawned s);
     signals := signals s;
     timers := timers s |}.

Definition upd_signals (f : list (nat * Signal) -> list (nat * Signal)) (s : ProcessManager) : ProcessManager :=
  {| processes := processes s;
     outputBuffers := outputBuffers s;
     sessionConfigs := sessionConfigs s;
     iterationCounts := iterationCounts s;
     claudeSessionIds := claudeSessionIds s;
     shouldContinueLoop := shouldContinueLoop s;
     exitSignalReceived := exitSignalReceived s;
     currentBranches := currentBranches s;
     reviewInProgress := reviewInProgress s;
     latestReviewResults := latestReviewResults s;
     e2eInProgress := e2eInProgress s;
     latestE2EResults := latestE2EResults s;
     emitted := emitted s;
     spawned := spawned s;
     signals := f (signals s);
     timers := timers s |}.

Definition upd_timers (f : list Timer -> list Timer) (s : ProcessManager) : ProcessManager :=
  {| processes := processes s;
     outputBuffers := outputBuffers s;
     sessionConfigs := sessionConfigs s;
     iterationCounts := iterationCounts s;
     claudeSessionIds := claudeSessionIds s;
     shouldContinueLoop := shouldContinueLoop s;
     exitSignalReceived := exitSignalReceived s;
     currentBranches := currentBranches s;
     reviewInProgress := reviewInProgress s;
     latestReviewResults := latestReviewResults s;
     e2eInProgress := e2eInProgress s;
     latestE2EResults := latestE2EResults s;
     emitted := emitted s;
     spawned := spawned s;
     signals := signals s;
     timers := f (timers s) |}.


Definition empty_manager : ProcessManager :=
  {| processes := ∅; outputBuffers := ∅; sessionConfigs := ∅; iterationCounts := ∅;
     claudeSessionIds := ∅; shouldContinueLoop := ∅; exitSignalReceived := ∅;
     currentBranches := ∅; reviewInProgress := ∅; latestReviewResults := ∅;
     e2eInProgress := ∅; latestE2EResults := ∅;
     emitted := []; spawned := []; signals := []; timers := [] |}.

(** ** The outside world at the time of a call *)

(** What the review subprocess does once spawned: it closes with an exit code
    ([None] when a signal ended it) after writing to its two streams, or the
    ten minutes pass, or the spawn fails. *)
Inductive ReviewOutcome :=
| RvClose (code : option Z) (stdout stderr : jstring)
| RvTimeout
| RvError (message : jstring).

Record World := {
  fs : FileSystem;
  isWindows : bool;                                  (* process.platform === 'win32' *)
  git_branch : string -> option jstring;             (* execSync in a directory, None: it throws *)
  git_push : string -> jstring -> option jstring;    (* the push of a branch, Some m: it fails with m *)
  writeFile : string -> option jstring;              (* fs.writeFile, Some m: it throws m *)
  now : Z;                                           (* Date.now() *)
  review_outcome : ReviewOutcome;
  review_end : Z                                     (* Date.now() when the review is over *)
}.

Definition result (A : Type) : Type := exn A * ProcessManager.

(** ** Events and clean-up *)

Definition emit (e : Emitted) (s : ProcessManager) : ProcessManager :=
  upd_emitted (fun l => l ++ [e]) s.

Definition emitEvent (sid : string) (ev : StreamEvent) (s : ProcessManager) : ProcessManager :=
  emit (OnEvent sid ev) s.

Definition cleanupSession (sid : string) (s : ProcessManager) : ProcessManager :=
  upd_e2eInProgress (delete sid)
    (upd_reviewInProgress (delete sid)
      (upd_currentBranches (delete sid)
        (upd_exitSignalReceived (delete sid)
          (upd_shouldContinueLoop (delete sid)
            (upd_claudeSessionIds (delete sid)
              (upd_iterationCounts (delete sid)
                (upd_sessionConfigs (delete sid)
                  (upd_outputBuffers (delete sid)
                    (upd_processes (delete sid) s))))))))).

(** ** [startLoop] *)

Definition dq : string := String (ascii_of_nat 34) EmptyString.

Definition has_space (s : string) : bool := includes (js s) (js " ").

(** [a || b] on an optional string. *)
Definition str_or (a : option string) (b : string) : string :=
  match a with
  | Some s => if String.eqb s "" then b else s
  | None => b
  end.

Definition mode_text (m : Mode) : string :=
  match m with plan => "plan" | build => "build" end.

Definition loopCommand (w : World) (config : LoopConfig) : string :=
  let cliCommand := str_or (claudeCliPath config) "claude" in
  let quotedCli := if has_space cliCommand then dq +:+ cliCommand +:+ dq else cliCommand in
  let quotedPrompt :=
    if has_space (promptFile config) then dq +:+ promptFile config +:+ dq else promptFile config in
  let verboseFlag := if default false (verbose config) then " --verbose" else "" in
  if isWindows w
  then "type " +:+ quotedPrompt +:+ " | " +:+ quotedCli
       +:+ " -p --dangerously-skip-permissions --output-format=stream-json --model="
       +:+ model config +:+ verboseFlag
  else "cat " +:+ dq +:+ promptFile config +:+ dq +:+ " | " +:+ dq +:+ cliCommand +:+ dq
       +:+ " -p --dangerously-skip-permissions --output-format=stream-json --model="
       +:+ model config +:+ verboseFlag.

(** [spawn]: the new process gets the next process id. *)
Definition spawn (w : World) (command dir ralph_mode : string) (session : option string)
    (s : ProcessManager) : ChildProcess * ProcessManager :=
  let proc := {| pid := length (spawned s);
                 shell := if isWindows w then "cmd.exe" else "bash";
                 shell_args := [if isWindows w then "/c" else "-c"; command];
                 cwd := dir;
                 env_RALPH_MODE := ralph_mode;
                 env_RALPH_SESSION_ID := session |} in
  (proc, upd_spawned (fun l => l ++ [proc]) s).

Definition startLoop (w : World) (config : LoopConfig) (s : ProcessManager) : result unit :=
  let sid := sessionId config in
  let maxIter := default 0%Z (maxIterations config) in
  (* Check if already running *)
  if is_some (processes s !! sid) then
    (Throw (Error_ (js ("Session " +:+ sid +:+ " is already running"))), s)
  else
    (* Validate prompt file exists *)
    let promptPath := join (fs w) (projectPath config) (promptFile config) in
    if negb (existsSync (fs w) promptPath) then
      (Throw (Error_ (js ("Prompt file not found: " +:+ promptPath))), s)
    else
      let planPath := join (fs w) (projectPath config) "IMPLEMENTATION_PLAN.md" in
      let s1 :=
        if negb (existsSync (fs w) planPath)
        then emitEvent sid (EvSystem MsgPlanMissing) s else s in
      (* Get current git branch *)
      let '(currentBranch, s2) :=
        match git_branch w (projectPath config) with
        | Some out =>
            let b := match trim out with [] => js "HEAD" | t => t end in
            (b, upd_currentBranches (insert sid b) s1)
        | None => (js "not a git repo", s1)
        end in
      let '(proc, s3) :=
        spawn w (loopCommand w config) (projectPath config) (mode_text (mode config))
          (Some sid) s2 in
      let s4 := upd_processes (insert sid proc) s3 in
      let s5 := upd_outputBuffers (insert sid []) s4 in
      let s6 := upd_sessionConfigs (insert sid config) s5 in
      let s7 := upd_iterationCounts
                  (insert sid (match iterationCounts s6 !! sid with
                               | Some n => n
                               | None => 0%Z
                               end)) s6 in
      let s8 := upd_shouldContinueLoop (insert sid true) s7 in
      let s9 := upd_exitSignalReceived (insert sid false) s8 in
      (Ok tt,
       emitEvent sid
         (EvSystem (MsgBanner (mode config) (promptFile config) currentBranch maxIter)) s9).

(** ** The output of the supervised process *)

Definition handleRalphStatus (sid : string) (status : RalphStatus) (s : ProcessManager)
  : ProcessManager :=
  let s1 := emitEvent sid (EvRalphStatus status) s in
  if exitSignal status then
    emitEvent sid (EvSystem MsgExitSignal) (upd_exitSignalReceived (insert sid true) s1)
  else s1.

Definition scan_status (sid : string) (text : jstring) (s : ProcessManager) : ProcessManager :=
  match parseRalphStatus text with
  | Some status => handleRalphStatus sid status s
  | None => s
  end.

(** The [catch] of the line loop: not JSON, emit as raw output. *)
Definition stdout_raw (sid : string) (line : jstring) (s : ProcessManager) : ProcessManager :=
  scan_status sid line (emitEvent sid (EvStdoutRaw line) s).

(** The [try] of the line loop once [JSON.parse] has returned; the state is
    the one reached when something throws. *)
Definition stdout_parsed (sid : string) (parsed : jsval) (s : ProcessManager) : result unit :=
  let s1 := emitEvent sid (EvStdoutParsed parsed) s in
  match get_prop parsed "type" with
  | Throw e => (Throw e, s1)
  | Ok ty =>
      let session_id := get_prop_opt parsed "session_id" in
      let s2 :=
        if is_str ty "system" && is_str (get_prop_opt parsed "subtype") "init"
           && truthy session_id
        then upd_claudeSessionIds (insert sid session_id) s1 else s1 in
      let text := get_prop_opt (get_prop_opt (get_prop_opt parsed "event") "delta") "text" in
      if truthy text then
        match text with
        | JStr t => (Ok tt, scan_status sid t s2)
        | _ => (Throw TypeError, s2)       (* text.match is not a function *)
        end
      else (Ok tt, s2)
  end.

Definition stdout_line (rt : Runtime) (sid : string) (s : ProcessManager) (line : jstring)
  : ProcessManager :=
  if negb (nonempty (trim line)) then s
  else
    match JSON_parse rt line with
    | None => stdout_raw sid line s
    | Some parsed =>
        match stdout_parsed sid parsed s with
        | (Ok _, s') => s'
        | (Throw _, s') => stdout_raw sid line s'
        end
    end.

(** [proc.stdout.on('data', ...)] *)
Definition onStdout (rt : Runtime) (sid : string) (chunk : jstring) (s : ProcessManager)
  : ProcessManager :=
  let buffer := default [] (outputBuffers s !! sid) ++ chunk in
  let lines := split_on LF buffer in
  let s1 := upd_outputBuffers (insert sid (List.last lines [])) s in
  fold_left (stdout_line rt sid) (removelast lines) s1.

(** [proc.stderr.on('data', ...)] *)
Definition onStderr (sid : string) (chunk : jstring) (s : ProcessManager) : ProcessManager :=
  emitEvent sid (EvStderr chunk) s.

(** [proc.on('error', ...)] *)
Definition onError (rt : Runtime) (sid : string) (error : JsError) (s : ProcessManager)
  : ProcessManager :=
  emitEvent sid (EvError (error_message rt error)) s.

(** ** Reviews: [runAutoReview] and [generateContinuationDocs] *)

(** [code === 0] *)
Definition exit_ok (code : option Z) : bool :=
  match code with Some 0%Z => true | _ => false end.

(** The [close] handler of the review subprocess: what the promise of its
    output settles to. *)
Definition reviewClose (code : option Z) (stdout stderr : jstring) : exn jstring :=
  if exit_ok code || (0 <? length stdout)%nat
  then Ok (stdout ++ stderr)
  else Throw (Error_ (js ("Review process exited with code " +:+ show_code code +:+ ": ")
                      ++ stderr)).

Definition reviewCommand (w : World) (config : ReviewConfig) : string :=
  let cliCommand := str_or (rv_claudeCliPath config) "claude" in
  let quotedCli := if has_space cliCommand then dq +:+ cliCommand +:+ dq else cliCommand in
  if isWindows w
  then "type PROMPT_review.md | " +:+ quotedCli +:+ " -p --model=" +:+ rv_model config
  else "cat PROMPT_review.md | " +:+ dq +:+ cliCommand +:+ dq +:+ " -p --model="
       +:+ rv_model config.

(** What the promise of the output settles to once the review subprocess
    [proc] closes, fails or runs out of time; the time-out sends it SIGTERM
    first. *)
Definition review_promise (proc : ChildProcess) (outcome : ReviewOutcome)
    (s : ProcessManager) : result jstring :=
  match outcome with
  | RvClose code stdout stderr => (reviewClose code stdout stderr, s)
  | RvTimeout =>
      (Throw (Error_ (js "Review timed out after 10 minutes")),
       upd_signals (fun l => l ++ [(pid proc, SIGTERM)]) s)
  | RvError message => (Throw (Error_ message), s)
  end.

(** The promise of the output of the review subprocess. *)
Definition review_output (w : World) (config : ReviewConfig) (s : ProcessManager)
  : result jstring :=
  let '(proc, s1) :=
    spawn w (reviewCommand w config) (rv_projectPath config) "review" None s in
  review_promise proc (review_outcome w) s1.

Definition set_duration (ms : Z) (r : jsval) : jsval :=
  JObj (set_field (js "reviewDurationMs") (JNum (num_of_Z ms)) (own_fields r)).

(** The [try] block of [runAutoReview] from the output on. *)
Definition review_after_output (w : World) (rt : Runtime) (config : ReviewConfig)
    (startTime : Z) (output : jstring) (s1 : ProcessManager) : result jsval :=
  let sid := rv_sessionId config in
  let dir := rv_projectPath config in
  match writeFile w (join (fs w) dir ".review-debug-output.txt") with
  | Some m => (Throw (Error_ m), s1)
  | None =>
      match ReviewParser.parseReviewOutput rt (review_end w) output with
      | Throw e => (Throw e, s1)
      | Ok None =>
          let errorResult :=
            set_duration (review_end w - startTime)
              (ReviewParser.createErrorReviewResult (review_end w)
                 (js "Failed to parse review output") (JStr output)) in
          let s2 := upd_latestReviewResults (insert sid errorResult) s1 in
          (Ok errorResult, emit (OnReviewComplete sid errorResult) s2)
      | Ok (Some parsed) =>
          let reviewResult := set_duration (review_end w - startTime) parsed in
          let s2 := upd_latestReviewResults (insert sid reviewResult) s1 in
          let s3 :=
            emitEvent sid
              (EvSystem (MsgReviewComplete (get_prop_opt reviewResult "reviewStatus")
                           (get_prop_opt reviewResult "overallScore"))) s2 in
          (Ok reviewResult, emit (OnReviewComplete sid reviewResult) s3)
      end
  end.

(** The [try] block of [runAutoReview]. *)
Definition review_try (w : World) (rt : Runtime) (config : ReviewConfig) (startTime : Z)
    (s : ProcessManager) : result jsval :=
  match writeFile w (join (fs w) (rv_projectPath config) "PROMPT_review.md") with
  | Some m => (Throw (Error_ m), s)
  | None =>
      match review_output w config s with
      | (Throw e, s1) => (Throw e, s1)
      | (Ok output, s1) => review_after_output w rt config startTime output s1
      end
  end.

(** The [catch] block of [runAutoReview]. *)
Definition review_catch (w : World) (rt : Runtime) (config : ReviewConfig) (startTime : Z)
    (error : JsError) (s' : ProcessManager) : jsval * ProcessManager :=
  let sid := rv_sessionId config in
  let errorMessage := error_message rt error in
  let errorResult :=
    set_duration (review_end w - startTime)
      (ReviewParser.createErrorReviewResult (review_end w) errorMessage (JStr [])) in
  let s4 := upd_latestReviewResults (insert sid errorResult) s' in
  let s5 := emitEvent sid (EvError (js "Review failed: " ++ errorMessage)) s4 in
  (errorResult, emit (OnReviewError sid (JStr errorMessage)) s5).

(** [runAutoReview], the review taken in one piece: the subprocess has
    settled by the time anything else happens to the manager. *)
Definition runAutoReview (w : World) (rt : Runtime) (config : ReviewConfig)
    (s : ProcessManager) : result jsval :=
  let sid := rv_sessionId config in
  (* Guard: check not already reviewing *)
  if default false (reviewInProgress s !! sid) then
    (Throw (Error_ (js "Review already in progress")), s)
  else if negb (existsSync (fs w) (join (fs w) (rv_projectPath config) "IMPLEMENTATION_PLAN.md"))
  then
    let errorResult :=
      ReviewParser.createErrorReviewResult (now w)
        (js "Missing required files: IMPLEMENTATION_PLAN.md") (JStr []) in
    (Ok errorResult, emit (OnReviewError sid (get_prop_opt errorResult "summary")) s)
  else
    let s1 := upd_reviewInProgress (insert sid true) s in
    let startTime := now w in
    let s2 := emitEvent sid (EvSystem MsgReviewStarting) (emit (OnReviewStart sid) s1) in
    let '(r, s3) :=
      match review_try w rt config startTime s2 with
      | (Ok r, s') => (r, s')
      | (Throw error, s') => review_catch w rt config startTime error s'
      end in
    (* finally *)
    (Ok r, upd_reviewInProgress (delete sid) s3).

(** The same run in the two parts its subprocess cuts it into.  [reviewBegin]
    goes up to the [await] on the output: the run has thrown, or returned, or
    waits for the process it has spawned, with the guard flag set.
    [reviewSettle] is what the run does when the outcome arrives, in the
    state the manager then is in. *)
Inductive ReviewPhase :=
| ReviewThrew (e : JsError)
| ReviewReturned (r : jsval)
| ReviewWaiting (startTime : Z) (proc : ChildProcess).

Definition reviewBegin (w : World) (rt : Runtime) (config : ReviewConfig)
    (s : ProcessManager) : ReviewPhase * ProcessManager :=
  let sid := rv_sessionId config in
  if default false (reviewInProgress s !! sid) then
    (ReviewThrew (Error_ (js "Review already in progress")), s)
  else if negb (existsSync (fs w) (join (fs w) (rv_projectPath config) "IMPLEMENTATION_PLAN.md"))
  then
    let errorResult :=
      ReviewParser.createErrorReviewResult (now w)
        (js "Missing required files: IMPLEMENTATION_PLAN.md") (JStr []) in
    (ReviewReturned errorResult,
     emit (OnReviewError sid (get_prop_opt errorResult "summary")) s)
  else
    let s1 := upd_reviewInProgress (insert sid true) s in
    let startTime := now w in
    let s2 := emitEvent sid (EvSystem MsgReviewStarting) (emit (OnReviewStart sid) s1) in
    match writeFile w (join (fs w) (rv_projectPath config) "PROMPT_review.md") with
    | Some m =>
        let '(r, s3) := review_catch w rt config startTime (Error_ m) s2 in
        (ReviewReturned r, upd_reviewInProgress (delete sid) s3)
    | None =>
        let '(proc, s3) :=
          spawn w (reviewCommand w config) (rv_projectPath config) "review" None s2 in
        (ReviewWaiting startTime proc, s3)
    end.

Definition reviewSettle (w : World) (rt : Runtime) (config : ReviewConfig)
    (startTime : Z) (proc : ChildProcess) (outcome : ReviewOutcome) (s : ProcessManager)
  : jsval * ProcessManager :=
  let sid := rv_sessionId config in
  let '(r, s3) :=
    match review_promise proc outcome s with
    | (Throw error, s1) => review_catch w rt config startTime error s1
    | (Ok output, s1) =>
        match review_after_output w rt config startTime output s1 with
        | (Ok r, s') => (r, s')
        | (Throw error, s') => review_catch w rt config startTime error s'
        end
    end in
  (* finally *)
  (r, upd_reviewInProgress (delete sid) s3).

(** ** The continuation documents: [lib/ralph/templates.ts]

    The two documents are built from the review result.  What is written to
    the disk is not part of the model; what is, is whether building a
    document throws (the conversions of a template literal, the methods of a
    value that is not an array) and what it does to the review result it is
    given: the findings section sorts [missingItems] in place. *)

Section Templates.
Variable rt : Runtime.

(** A value in a template literal. *)
Definition interpolate (v : jsval) : exn unit := _ <- String_ rt v ;; Ok tt.

(** [cond ? `... ${v}` : ''] *)
Definition interpolate_if_truthy (v : jsval) : exn unit :=
  if truthy v then interpolate v else Ok tt.

Fixpoint forM {A} (f : A -> exn unit) (l : list A) : exn unit :=
  match l with
  | [] => Ok tt
  | a :: l' => _ <- f a ;; forM f l'
  end.

(** [formatItems(items, priority)] of [generateContinuationPromptMd] over
    the items that the filter has kept. *)
Definition formatItems (items : list jsval) : exn unit :=
  forM (fun item =>
          description <- get_prop item "description" ;;
          _ <- interpolate description ;;
          suggestedFix <- get_prop item "suggestedFix" ;;
          interpolate_if_truthy suggestedFix) items.

(** [items.filter(i => i.priority === priority)] *)
Fixpoint filter_priority (priority : string) (items : list jsval) : exn (list jsval) :=
  match items with
  | [] => Ok []
  | i :: items' =>
      p <- get_prop i "priority" ;;
      rest <- filter_priority priority items' ;;
      Ok (if is_str p priority then i :: rest else rest)
  end.

(** [generateContinuationPromptMd]: [missingItems] has a [filter] only when
    it is an array. *)
Definition generateContinuationPromptMd (reviewResult : jsval) : exn unit :=
  missingItems <- get_prop reviewResult "missingItems" ;;
  match missingItems with
  | JArr items =>
      highPriority <- filter_priority "HIGH" items ;;
      mediumPriority <- filter_priority "MEDIUM" items ;;
      lowPriority <- filter_priority "LOW" items ;;
      reviewStatus <- get_prop reviewResult "reviewStatus" ;;
      _ <- interpolate reviewStatus ;;
      overallScore <- get_prop reviewResult "overallScore" ;;
      _ <- interpolate overallScore ;;
      summary <- get_prop reviewResult "summary" ;;
      _ <- interpolate summary ;;
      _ <- formatItems highPriority ;;
      _ <- formatItems mediumPriority ;;
      formatItems lowPriority
  | _ => Throw TypeError
  end.

(** [priorityOrder[priority]]: the property key is the priority as a
    string; a key other than the three gives no number. *)
Definition priority_rank (priority : jsval) : exn (option nat) :=
  key <- String_ rt priority ;;
  Ok (if jeqb key (js "HIGH") then Some 0%nat
      else if jeqb key (js "MEDIUM") then Some 1%nat
      else if jeqb key (js "LOW") then Some 2%nat
      else None).

Fixpoint insert_ranked (x : nat * jsval) (l : list (nat * jsval)) : list (nat * jsval) :=
  match l with
  | [] => [x]
  | y :: l' => if (fst x <=? fst y)%nat then x :: l else y :: insert_ranked x l'
  end.

(** A stable sort by rank: an item goes before the items after it that do
    not rank lower. *)
Definition sort_ranked (l : list (nat * jsval)) : list (nat * jsval) :=
  fold_right insert_ranked [] l.

(** [priorityOrder[item.priority]] *)
Definition item_rank (item : jsval) : exn (option nat) :=
  p <- get_prop item "priority" ;; priority_rank p.

(** [missingItems.sort((a, b) => priorityOrder[a.priority] -
    priorityOrder[b.priority])].  A difference with a missing number is NaN
    and counts as 0.  When every item has one of the three priorities the
    sort is the stable one by rank; when no two items have different ranks
    nothing moves; otherwise an item without rank equals items that differ,
    the comparison is not consistent and the order is the runtime's.  The
    items are values of JSON: none is [undefined], which the sort would move
    to the end without comparing it. *)
Definition sort_by_priority (items : list jsval) : exn (list jsval) :=
  ranks <- mapM item_rank items ;;
  let known := omap id ranks in
  Ok (if forallb is_some ranks
      then List.map snd (sort_ranked (combine known items))
      else match known with
           | [] => items
           | r :: known' =>
               if forallb (Nat.eqb r) known' then items else sort_inconsistent rt items
           end).

(** The line of an item in [formatMissingItems]. *)
Definition formatMissingItem (item : jsval) : exn unit :=
  priority <- get_prop item "priority" ;;
  _ <- interpolate priority ;;
  description <- get_prop item "description" ;;
  _ <- interpolate description ;;
  suggestedFix <- get_prop item "suggestedFix" ;;
  interpolate_if_truthy suggestedFix.

(** The line of a requirement. *)
Definition formatRequirement (req : jsval) : exn unit :=
  status <- get_prop req "status" ;;
  description <- get_prop req "description" ;;
  _ <- interpolate description ;;
  _ <- interpolate status ;;
  notes <- get_prop req "notes" ;;
  interpolate_if_truthy notes.

(** [generateReviewFindingsSection]: whether it returns, and the review
    result as the call leaves it. *)
Definition generateReviewFindingsSection (reviewResult : jsval) : exn unit * jsval :=
  match
    (reviewStatus <- get_prop reviewResult "reviewStatus" ;;
     _ <- interpolate reviewStatus ;;
     overallScore <- get_prop reviewResult "overallScore" ;;
     _ <- interpolate overallScore ;;
     summary <- get_prop reviewResult "summary" ;;
     _ <- interpolate summary ;;
     missingItems <- get_prop reviewResult "missingItems" ;;
     match missingItems with
     | JArr items => sort_by_priority items
     | _ => Throw TypeError
     end)
  with
  | Throw e => (Throw e, reviewResult)
  | Ok sorted =>
      let reviewResult' :=
        JObj (set_field (js "missingItems") (JArr sorted) (own_fields reviewResult)) in
      (_ <- forM formatMissingItem sorted ;;
       requirements <- get_prop reviewResult "requirements" ;;
       match requirements with
       | JArr reqs => forM formatRequirement reqs
       | _ => Throw TypeError
       end,
       reviewResult')
  end.

End Templates.

(** ** [generateContinuationDocs]

    The outcome, the review result as the call leaves it, and the
    manager. *)
Definition generateContinuationDocs (w : World) (rt : Runtime) (dir sid : string)
    (reviewResult : jsval) (s : ProcessManager) : exn unit * jsval * ProcessManager :=
  match generateContinuationPromptMd rt reviewResult with
  | Throw e => (Throw e, reviewResult, s)
  | Ok _ =>
      match writeFile w (join (fs w) dir "PROMPT_continue.md") with
      | Some m => (Throw (Error_ m), reviewResult, s)
      | None =>
          (* the plan is read inside a [try] of its own: a plan that cannot be
             read is replaced by a heading *)
          let '(built, reviewResult') := generateReviewFindingsSection rt reviewResult in
          match built with
          | Throw e => (Throw e, reviewResult', s)
          | Ok _ =>
              match writeFile w (join (fs w) dir "IMPLEMENTATION_PLAN.md") with
              | Some m => (Throw (Error_ m), reviewResult', s)
              | None =>
                  (Ok tt, reviewResult', emitEvent sid (EvSystem MsgContinuationDocs) s)
              end
          end
      end
  end.

Definition getLatestReviewResult (sid : string) (s : ProcessManager) : option jsval :=
  latestReviewResults s !! sid.

Definition isReviewInProgress (sid : string) (s : ProcessManager) : bool :=
  default false (reviewInProgress s !! sid).

(** ** The exit of the supervised process *)

(** What the [close] handler reads before its first [await]. *)
Record CloseContext := {
  cx_config : option LoopConfig;
  cx_shouldContinue : option bool;
  cx_exitSignal : option bool;
  cx_currentIteration : Z;
  cx_maxReached : bool
}.

Definition closeBegin (sid : string) (s : ProcessManager) : CloseContext * ProcessManager :=
  let s1 := upd_outputBuffers (delete sid) (upd_processes (delete sid) s) in
  let config := sessionConfigs s1 !! sid in
  let currentIteration := default 0%Z (iterationCounts s1 !! sid) in
  let maxReached :=
    match config with
    | Some c =>
        match maxIterations c with
        | Some m => negb (m =? 0)%Z && (0 <? m)%Z && (m <=? currentIteration)%Z
        | None => false
        end
    | None => false
    end in
  ({| cx_config := config;
      cx_shouldContinue := shouldContinueLoop s1 !! sid;
      cx_exitSignal := exitSignalReceived s1 !! sid;
      cx_currentIteration := currentIteration;
      cx_maxReached := maxReached |}, s1).

(** The plan check of the handler, with its message. *)
Definition closePlanCheck (w : World) (sid : string) (cx : CloseContext) (s : ProcessManager)
  : bool * ProcessManager :=
  match cx_config cx with
  | Some config =>
      let planExhausted := checkPlanExhausted (fs w) (projectPath config) in
      (planExhausted,
       if planExhausted then emitEvent sid (EvSystem MsgPlanCompleted) s else s)
  | None => (false, s)
  end.

(** The condition of the restart branch. *)
Definition shouldRestart (code : option Z) (cx : CloseContext) (planExhausted : bool) : bool :=
  exit_ok code && default false (cx_shouldContinue cx) && negb (default false (cx_exitSignal cx))
  && negb (cx_maxReached cx) && negb planExhausted && is_some (cx_config cx).

Definition closeReason (code : option Z) (cx : CloseContext) (planExhausted : bool) : Reason :=
  if planExhausted then PlanExhausted
  else if default false (cx_exitSignal cx) then ExitSignal
  else if cx_maxReached cx then MaxIterations (cx_config cx ≫= maxIterations)
  else if negb (default false (cx_shouldContinue cx)) then LoopStopped
  else if negb (exit_ok code) then ExitCode code
  else Unknown.

(** The restart branch up to its two seconds of delay. *)
Definition closeIterate (w : World) (sid : string) (config : LoopConfig) (cx : CloseContext)
    (s : ProcessManager) : ProcessManager :=
  let s1 :=
    if default false (autoPush config) then
      let branch := match currentBranches s !! sid with
                    | Some (_ :: _ as b) => b
                    | _ => js "HEAD"
                    end in
      match git_push w (projectPath config) branch with
      | None => emitEvent sid (EvSystem (MsgPushed branch)) s
      | Some m => emitEvent sid (EvStderr (js "Git push failed: " ++ m)) s
      end
    else s in
  let nextIteration := (cx_currentIteration cx + 1)%Z in
  let s2 := upd_iterationCounts (insert sid nextIteration) s1 in
  let s3 := emit (OnIterationUpdate sid nextIteration (maxIterations config)) s2 in
  emitEvent sid (EvSystem (MsgIteration nextIteration)) s3.

(** After the delay: restart the loop if it hasn't been stopped. *)
Definition closeRestart (w : World) (rt : Runtime) (sid : string) (config : LoopConfig)
    (s : ProcessManager) : ProcessManager :=
  if default false (shouldContinueLoop s !! sid) then
    match startLoop w config s with
    | (Ok _, s') => s'
    | (Throw error, s') =>
        let s1 := cleanupSession sid s' in
        let s2 :=
          emitEvent sid
            (EvError (js "Failed to restart loop: " ++ error_message rt error)) s1 in
        emit (OnSessionEnd sid (Some 1%Z)) s2
    end
  else s.

(** [a > 0] *)
Definition positive (rt : Runtime) (v : jsval) : exn bool :=
  n <- ToNumber rt v ;; Ok (num_ltb (num_of_Z 0) n).

(** The [try] of the completed branch: the review, then the continuation.
    [Ok true]: a continuation cycle has started and the handler returns.
    The review result handed to [generateContinuationDocs] is the object that
    [runAutoReview] has just cached (a result that is not cached has no
    missing item), so what the call does to it shows in the cache. *)
Definition autoReviewAndContinue (w : World) (rt : Runtime) (sid : string)
    (config : LoopConfig) (s : ProcessManager) : result bool :=
  let s1 := emitEvent sid (EvSystem MsgStartingAutoReview) s in
  match runAutoReview w rt
          {| rv_projectPath := projectPath config; rv_sessionId := sid;
             rv_model := model config; rv_claudeCliPath := claudeCliPath config |} s1 with
  | (Throw e, s2) => (Throw e, s2)
  | (Ok reviewResult, s2) =>
      match autoContinue config with
      | Some ac =>
          if negb (enabled ac) then (Ok false, s2)
          else
            match
              (st <- get_prop reviewResult "reviewStatus" ;;
               if is_str st "COMPLETE" then Ok false
               else
                 items <- get_prop reviewResult "missingItems" ;;
                 len <- get_prop items "length" ;;
                 some <- positive rt len ;;
                 Ok (some && (currentAutoIteration ac <? maxAutoIterations ac)%Z))
            with
            | Throw e => (Throw e, s2)
            | Ok true =>
                let '(built, reviewResult', s2') :=
                  generateContinuationDocs w rt (projectPath config) sid reviewResult s2 in
                let s3 := upd_latestReviewResults (insert sid reviewResult') s2' in
                match built with
                | Throw e => (Throw e, s3)
                | Ok _ =>
                    let nextAutoIteration := (currentAutoIteration ac + 1)%Z in
                    let s4 :=
                      emitEvent sid
                        (EvSystem (MsgAutoContinue nextAutoIteration (maxAutoIterations ac)))
                        s3 in
                    let continueConfig :=
                      {| projectPath := projectPath config;
                         promptFile := "PROMPT_continue.md";
                         mode := mode config; model := model config;
                         sessionId := sessionId config;
                         claudeCliPath := claudeCliPath config;
                         maxIterations := maxIterations config;
                         autoPush := autoPush config; verbose := verbose config;
                         autoReview := autoReview config;
                         autoContinue :=
                           Some {| enabled := enabled ac;
                                   maxAutoIterations := maxAutoIterations ac;
                                   currentAutoIteration := nextAutoIteration |} |} in
                    let s5 := upd_iterationCounts (insert sid 0%Z) s4 in
                    match startLoop w continueConfig s5 with
                    | (Throw e, s6) => (Throw e, s6)
                    | (Ok _, s6) => (Ok true, s6)
                    end
                end
            | Ok false =>
                if (maxAutoIterations ac <=? currentAutoIteration ac)%Z
                then (Ok false,
                      emitEvent sid (EvSystem (MsgMaxAutoContinue (maxAutoIterations ac))) s2)
                else (Ok false, s2)
            end
      | None => (Ok false, s2)
      end
  end.

Inductive CloseOutcome :=
| RestartPending (config : LoopConfig)   (* waiting the two seconds before the restart *)
| Continued                              (* a continuation cycle was started *)
| SessionEnded.

(** The completed branch: loop is done. *)
Definition closeFinish (w : World) (rt : Runtime) (sid : string) (code : option Z)
    (cx : CloseContext) (planExhausted : bool) (s : ProcessManager)
  : CloseOutcome * ProcessManager :=
  let reason := closeReason code cx planExhausted in
  let s1 := emitEvent sid (EvComplete code reason (cx_currentIteration cx)) s in
  let finish s' := (SessionEnded, emit (OnSessionEnd sid code) (cleanupSession sid s')) in
  match cx_config cx with
  | Some config =>
      if exit_ok code && default false (autoReview config)
         && negb (default false (cx_exitSignal cx))
      then
        match autoReviewAndContinue w rt sid config s1 with
        | (Ok true, s2) => (Continued, s2)
        | (Ok false, s2) => finish s2
        | (Throw error, s2) =>
            finish (emitEvent sid
                      (EvError (js "Auto-review failed: " ++ error_message rt error)) s2)
        end
      else finish s1
  | None => finish s1
  end.

(** [proc.on('close', ...)] up to the delay before a restart. *)
Definition onClose (w : World) (rt : Runtime) (sid : string) (code : option Z)
    (s : ProcessManager) : CloseOutcome * ProcessManager :=
  let '(cx, s1) := closeBegin sid s in
  let '(planExhausted, s2) := closePlanCheck w sid cx s1 in
  if shouldRestart code cx planExhausted then
    match cx_config cx with
    | Some config => (RestartPending config, closeIterate w sid config cx s2)
    | None => closeFinish w rt sid code cx planExhausted s2
    end
  else closeFinish w rt sid code cx planExhausted s2.

(** ** Stop, pause, resume *)

Definition kill (p : ChildProcess) (sig : Signal) (s : ProcessManager) : ProcessManager :=
  upd_signals (fun l => l ++ [(pid p, sig)]) s.

(** The first statement of [stopLoop]: mark loop as stopped so it won't
    restart. *)
Definition stopLoop_mark (sid : string) (s : ProcessManager) : ProcessManager :=
  upd_shouldContinueLoop (insert sid false) s.

(** The rest of [stopLoop]. *)
Definition stopLoop_terminate (sid : string) (s : ProcessManager) : result bool :=
  match processes s !! sid with
  | None => (Ok false, cleanupSession sid s)
  | Some proc =>
      let s1 := kill proc SIGTERM s in
      (Ok true, upd_timers (fun l => l ++ [ForceKill sid (pid proc)]) s1)
  end.

Definition stopLoop (sid : string) (s : ProcessManager) : result bool :=
  stopLoop_terminate sid (stopLoop_mark sid s).

(** The timer of [stopLoop] going off. *)
Definition onForceKill (sid : string) (p : ChildProcess) (s : ProcessManager) : ProcessManager :=
  if is_some (processes s !! sid) then kill p SIGKILL s else s.

Definition pauseLoop (w : World) (sid : string) (s : ProcessManager) : bool * ProcessManager :=
  match processes s !! sid with
  | None => (false, s)
  | Some proc => (true, if negb (isWindows w) then kill proc SIGSTOP s else s)
  end.

Definition resumeLoop (w : World) (sid : string) (s : ProcessManager) : bool * ProcessManager :=
  match processes s !! sid with
  | None => (false, s)
  | Some proc => (true, if negb (isWindows w) then kill proc SIGCONT s else s)
  end.

Definition isRunning (sid : string) (s : ProcessManager) : bool :=
  is_some (processes s !! sid).

Definition getIterationCount (sid : string) (s : ProcessManager) : Z :=
  default 0%Z (iterationCounts s !! sid).

Definition setSessionConfig (sid : string) (config : LoopConfig) (s : ProcessManager)
  : ProcessManager :=
  upd_sessionConfigs (insert sid config) s.

(** What the handlers of the output may change: the line buffer, the
    session id of the agent, the events emitted (more of them) and the exit
    flag (raised, never lowered). *)
Record output_frame (a b : ProcessManager) : Prop := {
  of_processes : processes b = processes a;
  of_configs : sessionConfigs b = sessionConfigs a;
  of_iterations : iterationCounts b = iterationCounts a;
  of_continue : shouldContinueLoop b = shouldContinueLoop a;
  of_branches : currentBranches b = currentBranches a;
  of_reviewing : reviewInProgress b = reviewInProgress a;
  of_results : latestReviewResults b = latestReviewResults a;
  of_e2e : e2eInProgress b = e2eInProgress a;
  of_e2e_results : latestE2EResults b = latestE2EResults a;
  of_spawned : spawned b = spawned a;
  of_signals : signals b = signals a;
  of_timers : timers b = timers a;
  of_emitted : exists news, emitted b = emitted a ++ news;
  of_exit : forall sid, exitSignalReceived a !! sid = Some true ->
                        exitSignalReceived b !! sid = Some true
}.

(** The twelve maps of two managers agree. *)
Definition same_registry (a b : ProcessManager) : Prop :=
  processes a = processes b
  /\ outputBuffers a = outputBuffers b
  /\ sessionConfigs a = sessionConfigs b
  /\ iterationCounts a = iterationCounts b
  /\ claudeSessionIds a = claudeSessionIds b
  /\ shouldContinueLoop a = shouldContinueLoop b
  /\ exitSignalReceived a = exitSignalReceived b
  /\ currentBranches a = currentBranches b
  /\ reviewInProgress a = reviewInProgress b
  /\ latestReviewResults a = latestReviewResults b
  /\ e2eInProgress a = e2eInProgress b
  /\ latestE2EResults a = latestE2EResults b.

(** ** Driving a session *)

(** The supervised process exits with [code] every time; each pending
    restart is taken after its delay.  [fuel] bounds the number of exits. *)
Fixpoint run_exits (fuel : nat) (w : World) (rt : Runtime) (sid : string) (code : option Z)
    (s : ProcessManager) : ProcessManager :=
  match fuel with
  | O => s
  | S fuel' =>
      match onClose w rt sid code s with
      | (RestartPending config, s1) =>
          run_exits fuel' w rt sid code (closeRestart w rt sid config s1)
      | (_, s1) => s1
      end
  end.

(** A session in the middle of a cycle: the process is attached, [count]
    iterations are counted, [runs] processes were spawned so far and the flags
    are as [startLoop] leaves them. *)
Definition mid_cycle (config : LoopConfig) (count : Z) (runs : nat) (s : ProcessManager)
  : Prop :=
  sessionConfigs s !! sessionId config = Some config
  /\ is_Some (processes s !! sessionId config)
  /\ iterationCounts s !! sessionId config = Some count
  /\ shouldContinueLoop s !! sessionId config = Some true
  /\ exitSignalReceived s !! sessionId config = Some false
  /\ length (spawned s) = runs.

(** What can happen to the manager between a stop and the next exit, short
    of a new start of the stopped session. *)
Inductive LoopEvent :=
| Stdout (sid : string) (chunk : jstring)
| Stderr (sid : string) (chunk : jstring)
| Stop (sid : string)
| Pause (sid : string)
| Resume (sid : string)
| ForceKillFired (sid : string) (p : ChildProcess)
| Start (config : LoopConfig).

Definition apply_event (w : World) (rt : Runtime) (s : ProcessManager) (e : LoopEvent)
  : ProcessManager :=
  match e with
  | Stdout sid chunk => onStdout rt sid chunk s
  | Stderr sid chunk => onStderr sid chunk s
  | Stop sid => snd (stopLoop sid s)
  | Pause sid => snd (pauseLoop w sid s)
  | Resume sid => snd (resumeLoop w sid s)
  | ForceKillFired sid p => onForceKill sid p s
  | Start config => snd (startLoop w config s)
  end.

Definition event_starts (sid : string) (e : LoopEvent) : bool :=
  match e with
  | Start config => String.eqb (sessionId config) sid
  | _ => false
  end.

(** The completion events among what was emitted for a session. *)
Definition completions (sid : string) (s : ProcessManager)
  : list (option Z * Reason * Z) :=
  flat_map (fun e => match e with
                     | OnEvent sid' (EvComplete code reason total) =>
                         if String.eqb sid' sid then [(code, reason, total)] else []
                     | _ => []
                     end) (emitted s).

(** The events of [stdout] type among what was emitted for a session. *)
Definition stdout_events (sid : string) (l : list Emitted) : list StreamEvent :=
  flat_map (fun e => match e with
                     | OnEvent sid' (EvStdoutParsed v) =>
                         if String.eqb sid' sid then [EvStdoutParsed v] else []
                     | OnEvent sid' (EvStdoutRaw r) =>
                         if String.eqb sid' sid then [EvStdoutRaw r] else []
                     | _ => []
                     end) l.

Definition with_outcome (w : World) (o : ReviewOutcome) : World :=
  {| fs := fs w; isWindows := isWindows w; git_branch := git_branch w;
     git_push := git_push w; writeFile := writeFile w; now := now w;
     review_outcome := o; review_end := review_end w |}.

(** ** A sample project *)

Module Sample.

(** A runtime whose [JSON.parse] accepts nothing. *)
Definition rt : Runtime :=
  {| JSON_parse := fun _ => None;
     Number_toString := fun _ => [];
     String_toNumber := fun _ => NNaN;
     unicode_toUpperCase := fun s => s;
     TypeError_message := js "TypeError";
     parseInt_long := fun _ => NInf false;
     sort_inconsistent := fun items => items |}.

(** A disk where every file exists and holds the plan [content]. *)
Definition disk (content : option jstring) : FileSystem :=
  {| join := fun a b => a +:+ "/" +:+ b;
     existsSync := fun _ => true;
     readFile := fun _ => content |}.

Definition world (plan : option jstring) : World :=
  {| fs := disk plan;
     isWindows := false;
     git_branch := fun _ => Some (js "main" ++ [LF]);
     git_push := fun _ _ => None;
     writeFile := fun _ => None;
     now := 1000;
     review_outcome := RvClose (Some 0%Z) [] [];
     review_end := 2000 |}.

(** One task left and one done. *)
Definition open_plan : jstring :=
  js "# Plan" ++ [LF] ++ js "- [ ] build it" ++ [LF] ++ js "- [x] set up" ++ [LF].

Definition done_plan : jstring :=
  js "# Plan" ++ [LF] ++ js "- [x] build it" ++ [LF] ++ js "- [x] set up" ++ [LF].

(** A dash that ends a line and a bracket pair that starts the next. *)
Definition split_marker_plan : jstring := js "-" ++ [LF] ++ js "[ ]".

Definition config (maxIter : option Z) : LoopConfig :=
  {| projectPath := "/work/app"; promptFile := "PROMPT_build.md"; mode := build;
     model := "opus"; sessionId := "s1"; claudeCliPath := None;
     maxIterations := maxIter; autoPush := None; verbose := None;
     autoReview := None; autoContinue := None |}.

Definition review_config : ReviewConfig :=
  {| rv_projectPath := "/work/app"; rv_sessionId := "s1"; rv_model := "opus";
     rv_claudeCliPath := None |}.

Definition started (maxIter : option Z) : ProcessManager :=
  snd (startLoop (world (Some open_plan)) (config maxIter) empty_manager).

Definition status_line : jstring := js "RALPH_STATUS: EXIT_SIGNAL: true".

(** A review report cut short, with a score of 250. *)
Definition truncated_report : jstring :=
  js "{" ++ [34] ++ js "reviewStatus" ++ [34] ++ js ": " ++ [34] ++ js "PARTIAL" ++ [34]
  ++ js ", " ++ [34] ++ js "overallScore" ++ [34] ++ js ": 250, " ++ [34]
  ++ js "requirements" ++ [34] ++ js ": [".

Definition a_result : jsval :=
  ReviewParser.createErrorReviewResult 0 (js "none") JUndefined.

End Sample.


(** ** The type guards of [lib/ralph/reviewParser.ts] *)

(** [validateRequirementReview] *)
Definition validateRequirementReview (req : jsval) : bool :=
  if negb (truthy req) || negb (match typeof req with TObject => true | _ => false end)
  then false
  else
    match get_prop_opt req "id", get_prop_opt req "description" with
    | JStr _, JStr _ => str_in (get_prop_opt req "status") ["COMPLETE"; "PARTIAL"; "MISSING"]
    | _, _ => false
    end.

(** [validateMissingItem] *)
Definition validateMissingItem (item : jsval) : bool :=
  if negb (truthy item) || negb (match typeof item with TObject => true | _ => false end)
  then false
  else
    match get_prop_opt item "description" with
    | JStr _ => str_in (get_prop_opt item "priority") ["HIGH"; "MEDIUM"; "LOW"]
    | _ => false
    end.

(** [validateReviewResult].  The loop over [r.missingItems], reached when
    the value is an array that is truthy, visits its items. *)
Definition validateReviewResult (result : jsval) : bool :=
  if negb (truthy result) || negb (match typeof result with TObject => true | _ => false end)
  then false
  else
    let r key := get_prop_opt result key in
    if negb (str_in (r "reviewStatus") ReviewParser.review_statuses) then false
    else
      match r "overallScore" with
      | JNum n =>
          if num_ltb n ReviewParser.zero || num_ltb ReviewParser.hundred n then false
          else
            match r "requirements" with
            | JArr reqs =>
                if negb (forallb validateRequirementReview reqs) then false
                else
                  match r "missingItems" with
                  | JUndefined => true
                  | JArr items => forallb validateMissingItem items
                  | _ => false
                  end
            | _ => false
            end
      | _ => false
      end.

(** A text without backquote, opening brace, colon and equals sign: nothing
    in it can start a fenced block, an object or an assignment. *)
Definition plain_text (s : jstring) : bool :=
  forallb (fun c => negb ((c =? 96) || (c =? 123) || ReviewParser.colon_or_eq c)) s.

(** What the parser returns for a report it takes as it is. *)
Definition accepted_report (now : Z) (output : jstring) (fields : list (jstring * jsval))
  : jsval :=
  JObj (set_field (js "rawOutput") (JStr output)
          (set_field (js "timestamp") (JNum (num_of_Z now)) fields)).

Module SampleReport.

(** The text of a report and the object [JSON.parse] makes of it. *)
Definition report_text : jstring :=
  js "{" ++ [34] ++ js "reviewStatus" ++ [34] ++ js ":" ++ [34] ++ js "COMPLETE" ++ [34]
  ++ js "," ++ [34] ++ js "overallScore" ++ [34] ++ js ":95," ++ [34] ++ js "requirements"
  ++ [34] ++ js ":[]}".

Definition report_fields : list (jstring * jsval) :=
  [(js "reviewStatus", JStr (js "COMPLETE"));
   (js "overallScore", JNum (num_of_Z 95));
   (js "requirements", JArr [])].

(** A runtime whose [JSON.parse] knows this one text. *)
Definition rt : Runtime :=
  {| JSON_parse := fun s => if jeqb s report_text then Some (JObj report_fields) else None;
     Number_toString := fun _ => [];
     String_toNumber := fun _ => NNaN;
     unicode_toUpperCase := fun s => s;
     TypeError_message := js "TypeError";
     parseInt_long := fun _ => NInf false;
     sort_inconsistent := fun items => items |}.

(** The report in a fenced block, after a sentence. *)
Definition fenced : jstring :=
  js "Here is the review." ++ [LF] ++ js "```json" ++ [LF] ++ report_text ++ [LF]
  ++ js "```" ++ [LF].

End SampleReport.

(** [b] occurs in [s] as a contiguous piece. *)
Definition infix_of (b s : jstring) : Prop := exists pre post, s = pre ++ b ++ post.

(** ** Sessions side by side *)

(** The cap does not stop a session that has counted [count] iterations:
    there is none, or it is not positive, or it is not reached. *)
Definition cap_open (m : option Z) (count : Z) : Prop :=
  match m with
  | Some cap => (cap <= 0 \/ count < cap)%Z
  | None => True
  end.

(** What the twelve maps hold for one session. *)
Definition session_entries (sid : string) (s : ProcessManager) :=
  (processes s !! sid, outputBuffers s !! sid, sessionConfigs s !! sid,
   iterationCounts s !! sid, claudeSessionIds s !! sid, shouldContinueLoop s !! sid,
   exitSignalReceived s !! sid, currentBranches s !! sid, reviewInProgress s !! sid,
   latestReviewResults s !! sid, e2eInProgress s !! sid, latestE2EResults s !! sid).

(** The manager only adds to what it emitted. *)
Definition emits_more (a b : ProcessManager) : Prop := emitted a `prefix_of` emitted b.

Module SampleRuns.

(** A disk on which the files named [missing] do not exist. *)
Definition disk_without (missing : list string) (content : option jstring) : FileSystem :=
  {| join := fun a b => a +:+ "/" +:+ b;
     existsSync := fun p => negb (existsb (String.eqb p) missing);
     readFile := fun _ => content |}.

Definition world_without (missing : list string) (outcome : ReviewOutcome) : World :=
  {| fs := disk_without missing (Some Sample.open_plan);
     isWindows := false;
     git_branch := fun _ => None;
     git_push := fun _ _ => Some (js "rejected");
     writeFile := fun _ => None;
     now := 1000;
     review_outcome := outcome;
     review_end := 2000 |}.

(** A session that reviews when it is done and may continue twice. *)
Definition reviewing_config : LoopConfig :=
  {| projectPath := "/work/app"; promptFile := "PROMPT_build.md"; mode := build;
     model := "opus"; sessionId := "s1"; claudeCliPath := None;
     maxIterations := Some 1%Z; autoPush := Some true; verbose := None;
     autoReview := Some true;
     autoContinue := Some {| enabled := true; maxAutoIterations := 2;
                             currentAutoIteration := 0 |} |}.

End SampleRuns.

(** The configuration of a continuation cycle: the one of the session with
    the continuation prompt and one more automatic iteration counted. *)
Definition continueConfig (config : LoopConfig) (ac : AutoContinueConfig) : LoopConfig :=
  {| projectPath := projectPath config;
     promptFile := "PROMPT_continue.md";
     mode := mode config; model := model config;
     sessionId := sessionId config;
     claudeCliPath := claudeCliPath config;
     maxIterations := maxIterations config;
     autoPush := autoPush config; verbose := verbose config;
     autoReview := autoReview config;
     autoContinue :=
       Some {| enabled := enabled ac;
               maxAutoIterations := maxAutoIterations ac;
               currentAutoIteration := (currentAutoIteration ac + 1)%Z |} |}.

(** The session has nothing left in the maps that clean-up empties. *)
Definition cleaned_up (sid : string) (s : ProcessManager) : Prop :=
  processes s !! sid = None
  /\ outputBuffers s !! sid = None
  /\ sessionConfigs s !! sid = None
  /\ iterationCounts s !! sid = None
  /\ claudeSessionIds s !! sid = None
  /\ shouldContinueLoop s !! sid = None
  /\ exitSignalReceived s !! sid = None
  /\ currentBranches s !! sid = None
  /\ reviewInProgress s !! sid = None
  /\ e2eInProgress s !! sid = None.

Module SampleContinuation.

(** The text of a report that names one missing item, and the object
    [JSON.parse] makes of it. *)
Definition report_text : jstring :=
  js "{" ++ [34] ++ js "reviewStatus" ++ [34] ++ js ":" ++ [34] ++ js "PARTIAL" ++ [34]
  ++ js "," ++ [34] ++ js "overallScore" ++ [34] ++ js ":50," ++ [34] ++ js "requirements"
  ++ [34] ++ js ":[]," ++ [34] ++ js "missingItems" ++ [34] ++ js ":[{" ++ [34]
  ++ js "description" ++ [34] ++ js ":" ++ [34] ++ js "tests" ++ [34] ++ js "," ++ [34]
  ++ js "priority" ++ [34] ++ js ":" ++ [34] ++ js "HIGH" ++ [34] ++ js "}]}".

Definition report_fields : list (jstring * jsval) :=
  [(js "reviewStatus", JStr (js "PARTIAL"));
   (js "overallScore", JNum (num_of_Z 50));
   (js "requirements", JArr []);
   (js "missingItems",
    JArr [JObj [(js "description", JStr (js "tests")); (js "priority", JStr (js "HIGH"))]])].

Definition rt : Runtime :=
  {| JSON_parse := fun s => if jeqb s report_text then Some (JObj report_fields) else None;
     Number_toString := fun _ => [];
     String_toNumber := fun _ => NNaN;
     unicode_toUpperCase := fun s => s;
     TypeError_message := js "TypeError";
     parseInt_long := fun _ => NInf false;
     sort_inconsistent := fun items => items |}.

Definition fenced : jstring :=
  js "```json" ++ [LF] ++ report_text ++ [LF] ++ js "```" ++ [LF].

(** Every task of the plan is checked, and the review prints the report. *)
Definition world : World :=
  with_outcome (Sample.world (Some Sample.done_plan)) (RvClose (Some 0%Z) fenced []).

Definition started : ProcessManager :=
  snd (startLoop world SampleRuns.reviewing_config empty_manager).

End SampleContinuation.

(** The entries of every session but [sid] are in [b] what they are in [a]. *)
Definition others_kept (sid : string) (a b : ProcessManager) : Prop :=
  forall other, sid <> other -> session_entries other b = session_entries other a.

(** The session an event is about. *)
Definition event_session (e : LoopEvent) : string :=
  match e with
  | Stdout sid _ | Stderr sid _ | Stop sid | Pause sid | Resume sid | ForceKillFired sid _ => sid
  | Start config => sessionId config
  end.

(** An exit of the process of a session, followed after the delay by the
    restart if one is pending: one step of [run_exits]. *)
Definition exit_step (w : World) (rt : Runtime) (sid : string) (code : option Z)
    (s : ProcessManager) : ProcessManager :=
  match onClose w rt sid code s with
  | (RestartPending config, s1) => closeRestart w rt sid config s1
  | (_, s1) => s1
  end.

(** Every configuration is registered under the id it carries. *)
Definition config_ids_ok (s : ProcessManager) : Prop :=
  forall sid config, sessionConfigs s !! sid = Some config -> sessionId config = sid.

(** The configurations of [b] are those of [a] or carry their id. *)
Definition configs_from (a b : ProcessManager) : Prop :=
  forall sid config,
    sessionConfigs b !! sid = Some config ->
    sessionConfigs a !! sid = Some config \/ sessionId config = sid.

(** What is done to a manager, each step in the world of its time: an event
    of a session, a review, or the exit of a process with what follows. *)
Inductive Step :=
| StepEvent (e : LoopEvent)
| StepReview (config : ReviewConfig)
| StepExit (sid : string) (code : option Z).

Definition apply_step (rt : Runtime) (s : ProcessManager) (ws : World * Step)
  : ProcessManager :=
  match ws with
  | (w, StepEvent e) => apply_event w rt s e
  | (w, StepReview config) => snd (runAutoReview w rt config s)
  | (w, StepExit sid code) => exit_step w rt sid code s
  end.

(** ** The result of a review, in the words of the specification *)

(** The guards of a review pass and its two files can be written. *)
Definition review_runs (w : World) (config : ReviewConfig) (s : ProcessManager) : Prop :=
  isReviewInProgress (rv_sessionId config) s = false
  /\ existsSync (fs w) (join (fs w) (rv_projectPath config) "IMPLEMENTATION_PLAN.md") = true
  /\ writeFile w (join (fs w) (rv_projectPath config) "PROMPT_review.md") = None
  /\ writeFile w (join (fs w) (rv_projectPath config) ".review-debug-output.txt") = None.

(** The ERROR result of a run that failed with [message]. *)
Definition spec_failed_result (w : World) (message : jstring) : jsval :=
  set_duration (review_end w - now w)
    (ReviewParser.createErrorReviewResult (review_end w) message (JStr [])).

(** What a run makes of the text it hands to the review parser: the result
    of the parser with the duration of the run, the error result of a text
    that cannot be parsed, or the one of a parser that throws. *)
Definition spec_parsed_result (w : World) (rt : Runtime) (output : jstring) : jsval :=
  match ReviewParser.parseReviewOutput rt (review_end w) output with
  | Ok (Some parsed) => set_duration (review_end w - now w) parsed
  | Ok None =>
      set_duration (review_end w - now w)
        (ReviewParser.createErrorReviewResult (review_end w)
           (js "Failed to parse review output") (JStr output))
  | Throw e => spec_failed_result w (error_message rt e)
  end.

(** The message of the promise rejected for an exit code. *)
Definition exit_code_message (code : option Z) (stderr : jstring) : jstring :=
  js ("Review process exited with code " +:+ show_code code +:+ ": ") ++ stderr.

Module SampleStream.

(** One event of a stream whose text is an object with a property named
    toString: the line, and the object [JSON.parse] makes of it. *)
Definition event_line : jstring :=
  js "{" ++ [34] ++ js "type" ++ [34] ++ js ":" ++ [34] ++ js "content_block_delta" ++ [34]
  ++ js "," ++ [34] ++ js "delta" ++ [34] ++ js ":{" ++ [34] ++ js "text" ++ [34]
  ++ js ":{" ++ [34] ++ js "toString" ++ [34] ++ js ":1}}}".

Definition event : jsval :=
  JObj [(js "type", JStr (js "content_block_delta"));
        (js "delta", JObj [(js "text", JObj [(js "toString", JNum (num_of_Z 1))])])].

Definition rt : Runtime :=
  {| JSON_parse := fun s => if jeqb s event_line then Some event else None;
     Number_toString := fun _ => [];
     String_toNumber := fun _ => NNaN;
     unicode_toUpperCase := fun s => s;
     TypeError_message := js "TypeError";
     parseInt_long := fun _ => NInf false;
     sort_inconsistent := fun items => items |}.

End SampleStream.

(** The processes spawned for a session that have not exited, [exited]
    being the ids of the processes whose exit has been handled. *)
Definition active_handles (exited : list nat) (sid : string) (s : ProcessManager)
  : list ChildProcess :=
  List.filter
    (fun p => match env_RALPH_SESSION_ID p with
              | Some tag => String.eqb tag sid && negb (existsb (Nat.eqb (pid p)) exited)
              | None => false
              end)
    (spawned s).

Module SampleRestart.

Definition w : World := Sample.world (Some Sample.open_plan).
Definition config : LoopConfig := Sample.config None.

(** The first process of the session has exited with code 0: the handler
    has counted the iteration and waits its two seconds. *)
Definition exited : CloseOutcome * ProcessManager :=
  onClose w Sample.rt "s1" (Some 0%Z) (Sample.started None).

(** The session is started again during the wait. *)
Definition started_again : result unit := startLoop w config (snd exited).

(** The wait is over: the restart of the handler. *)
Definition restarted : ProcessManager :=
  closeRestart w Sample.rt "s1" config (snd started_again).

(** The next start of the session. *)
Definition started_third : result unit := startLoop w config restarted.

Definition handle (n : nat) : ChildProcess :=
  {| pid := n; shell := "bash"; shell_args := ["-c"; loopCommand w config];
     cwd := "/work/app"; env_RALPH_MODE := "build";
     env_RALPH_SESSION_ID := Some "s1" |}.

End SampleRestart.

Module SampleFindings.

Definition item (priority description : string) : jsval :=
  JObj [(js "description", JStr (js description)); (js "priority", JStr (js priority))].

(** A review result whose missing items are not in the order of their
    priorities. *)
Definition report : jsval :=
  JObj [(js "reviewStatus", JStr (js "PARTIAL"));
        (js "overallScore", JNum (num_of_Z 50));
        (js "summary", JStr (js "Half done"));
        (js "requirements", JArr []);
        (js "missingItems",
         JArr [item "LOW" "docs"; item "HIGH" "tests"; item "MEDIUM" "lint";
               item "HIGH" "build"])].

(** A result that passes the validation of the parser with a text where
    the missing items should be. *)
Definition odd_report : jsval :=
  JObj [(js "reviewStatus", JStr (js "PARTIAL"));
        (js "overallScore", JNum (num_of_Z 50));
        (js "requirements", JArr []);
        (js "missingItems", JStr (js "tests"))].

End SampleFindings.

(** * Properties *)

(** ** The matcher on the plan marker *)

Section MatcherFacts.

Lemma star_greedy_skip (p : cu -> bool) (k : cont) :
  (forall pv x s c, p x = true -> k pv (x :: s) c = None) ->
  forall s pv c, exists pv', star_greedy p k pv s c = k pv' (drop_while p s) c.
Proof.
  intros Hk s. induction s as [|x s IH]; intros pv c; simpl.
  - by exists pv.
  - destruct (p x) eqn:Hp.
    + destruct (IH (Some x) c) as [pv' E]. rewrite E.
      destruct (k pv' (drop_while p s) c) eqn:Ek.
      * by exists pv'.
      * exists pv'. rewrite Ek. by apply Hk.
    + by exists pv.
Qed.

Lemma drop_while_head (p : cu -> bool) s x t :
  drop_while p s = x :: t -> p x = false.
Proof.
  induction s as [|y s IH]; simpl; [done|].
  destruct (p y) eqn:Hp; [done|]. intros [= -> ->]. done.
Qed.

Lemma drop_while_app (p : cu -> bool) s x t post :
  drop_while p s = x :: t -> drop_while p (s ++ post) = x :: t ++ post.
Proof.
  induction s as [|y s IH]; simpl; [done|].
  destruct (p y) eqn:Hp; [done|]. by intros [= -> ->].
Qed.

Local Ltac skip_spaces E :=
  match goal with
  | |- context [star_greedy is_space ?k0 ?pv0 ?s0 ?c0] =>
      let pv' := fresh "pv" in
      destruct (star_greedy_skip is_space k0) with (s := s0) (pv := pv0) (c := c0) as [pv' E];
      [ let y := fresh "y" in
        intros ? y ? ? ?; cbn beta;
        repeat match goal with
               | |- context [N.eqb ?a y] => destruct (N.eqb_spec a y) as [<-|]
               end; done
      | rewrite E; clear E; cbn beta ]
  end.

Local Ltac no_match := split; [by intros [? ?]|done].

Lemma unchecked_body_match pv s c :
  is_Some (rmatch re_unchecked_body pv s c accept) <-> marker_at s = true.
Proof.
  unfold re_unchecked_body, marker_at.
  change (js "-") with [45]. change (js "[") with [91]. change (js "]") with [93].
  cbn [rseq rmatch strip_prefix last_cu].
  destruct s as [|x t]; [no_match|].
  rewrite (N.eqb_sym x 45). destruct (45 =? x); [|no_match]. cbn [andb].
  skip_spaces E1.
  destruct (drop_while is_space t) as [|y u] eqn:Ht; [no_match|].
  rewrite (N.eqb_sym y 91). destruct (91 =? y); [|no_match]. cbn [andb].
  skip_spaces E2.
  destruct (drop_while is_space u) as [|z v] eqn:Hu; [no_match|].
  rewrite (N.eqb_sym z 93). destruct (93 =? z); [|no_match].
  split; [done|]. intros _. by eexists.
Qed.

Lemma unchecked_match_bol pv s :
  is_Some (rmatch re_unchecked pv s [] accept) <-> at_line_start pv && marker_at s = true.
Proof.
  unfold re_unchecked. cbn [rmatch].
  destruct (at_line_start pv); cbn [andb].
  - apply unchecked_body_match.
  - split; [by intros [? ?]|done].
Qed.

Lemma search_unchecked s : forall pv idx,
  is_Some (search_from re_unchecked pv s idx) <-> any_line_start marker_at pv s = true.
Proof.
  induction s as [|x s IH]; intros pv idx; cbn [search_from any_line_start].
  - pose proof (unchecked_match_bol pv []) as H.
    destruct (rmatch re_unchecked pv [] [] accept) as [[s' c']|].
    + rewrite (proj1 H); [|by eexists]. split; [done|]. intros _. by eexists.
    + rewrite orb_false_r. split; [by intros [? ?]|]. intros E.
      destruct (proj2 H E) as [? [=]].
  - pose proof (unchecked_match_bol pv (x :: s)) as H.
    destruct (rmatch re_unchecked pv (x :: s) [] accept) as [[s' c']|].
    + rewrite (proj1 H); [|by eexists]. split; [done|]. intros _. by eexists.
    + rewrite IH. destruct (at_line_start pv && marker_at (x :: s)) eqn:E; [|done].
      destruct (proj2 H eq_refl) as [? [=]].
Qed.

Lemma test_unchecked s : test re_unchecked s = any_line_start marker_at None s.
Proof.
  unfold test, str_match. pose proof (search_unchecked s None 0%nat) as H.
  destruct (search_from re_unchecked None s 0) as [m|].
  - symmetry. apply H. by eexists.
  - destruct (any_line_start marker_at None s); [|done].
    destruct (proj2 H eq_refl) as [? [=]].
Qed.

(** A marker found in a text is still there when the text goes on. *)
Lemma marker_at_app s post : marker_at s = true -> marker_at (s ++ post) = true.
Proof.
  unfold marker_at. destruct s as [|x t]; [done|]. cbn [app].
  intros [-> H]%andb_true_iff. cbn [andb].
  destruct (drop_while is_space t) as [|y u] eqn:Ht; [done|].
  rewrite (drop_while_app _ _ _ _ post Ht).
  apply andb_true_iff in H as [-> H]. cbn [andb].
  destruct (drop_while is_space u) as [|z v] eqn:Hu; [done|].
  by rewrite (drop_while_app _ _ _ _ post Hu).
Qed.

Lemma any_line_start_app_r f s post pv :
  (forall a b, f a = true -> f (a ++ b) = true) ->
  any_line_start f pv s = true -> any_line_start f pv (s ++ post) = true.
Proof.
  intros Hf. revert pv. induction s as [|x s IH]; intros pv; cbn [any_line_start app].
  - rewrite orb_false_r. intros [Hp Hs]%andb_true_iff.
    specialize (Hf [] post Hs). cbn [app] in Hf.
    destruct post; cbn [any_line_start]; by rewrite Hp, Hf.
  - intros [[Hp Hs]%andb_true_iff|H]%orb_true_iff.
    + specialize (Hf (x :: s) post Hs). cbn [app] in Hf. by rewrite Hp, Hf.
    + rewrite (IH _ H). apply orb_true_r.
Qed.

Lemma any_line_start_pv f s pv pv' :
  at_line_start pv = at_line_start pv' ->
  any_line_start f pv s = any_line_start f pv' s.
Proof. intros E. destruct s; cbn [any_line_start]; by rewrite E. Qed.

Lemma any_line_start_app_l f pre s pv :
  any_line_start f (last_cu pre pv) s = true -> any_line_start f pv (pre ++ s) = true.
Proof.
  revert pv. induction pre as [|x pre IH]; intros pv; cbn [last_cu app]; [done|].
  intros H. cbn [any_line_start]. rewrite (IH _ H). apply orb_true_r.
Qed.

(** The first piece of [split_on] starts the text, the others follow a
    separator. *)
Lemma split_on_pieces sep s : forall l0 ls,
  split_on sep s = l0 :: ls ->
  (exists post, s = l0 ++ post)
  /\ (forall l, l ∈ ls -> exists pre post, s = pre ++ [sep] ++ l ++ post).
Proof.
  induction s as [|x s IH]; intros l0 ls; cbn [split_on].
  - intros [= <- <-]. split; [by exists []|]. by intros l ?%elem_of_nil.
  - destruct (N.eqb_spec x sep) as [->|Hx].
    + intros [= <- <-]. split; [by eexists|]. intros l Hl.
      destruct (split_on sep s) as [|l1 ls1] eqn:E; [by apply elem_of_nil in Hl|].
      destruct (IH _ _ eq_refl) as [[post ->] Hls].
      apply elem_of_cons in Hl as [->|Hl].
      * by exists [], post.
      * destruct (Hls _ Hl) as (pre & post' & E'). exists (sep :: pre), post'.
        cbn [app]. f_equal. exact E'.
    + destruct (split_on sep s) as [|l1 ls1] eqn:E.
      * exfalso. destruct s as [|y s]; cbn in E; [done|].
        destruct (y =? sep); [done|]. by destruct (split_on sep s).
      * intros [= <- <-]. destruct (IH _ _ eq_refl) as [[post ->] Hls].
        split; [by exists post|]. intros l Hl.
        destruct (Hls _ Hl) as (pre & post' & E'). exists (x :: pre), post'.
        cbn [app]. f_equal. exact E'.
Qed.

Lemma last_cu_snoc pre x pv : last_cu (pre ++ [x]) pv = Some x.
Proof. revert pv. induction pre as [|y pre IH]; intros pv; cbn; [done|apply IH]. Qed.

(** An unchecked marker on a line is one of the document. *)
Lemma line_marker_in_document content line :
  line ∈ split_on LF content ->
  any_line_start marker_at None line = true ->
  any_line_start marker_at None content = true.
Proof.
  intros Hl Hm. destruct (split_on LF content) as [|l0 ls] eqn:E; [by apply elem_of_nil in Hl|].
  destruct (split_on_pieces _ _ _ _ E) as [[post ->] Hls].
  apply elem_of_cons in Hl as [->|Hl].
  - by apply any_line_start_app_r; [apply marker_at_app|].
  - destruct (Hls _ Hl) as (pre & post' & ->).
    rewrite app_assoc. apply any_line_start_app_l. rewrite last_cu_snoc.
    rewrite (any_line_start_pv _ _ _ None) by done.
    by apply any_line_start_app_r; [apply marker_at_app|].
Qed.

End MatcherFacts.

(** ** Plan exhaustion *)

(** What the check computes: a missing or unreadable tracking document is
    never exhausted; a readable one is exhausted exactly when no position
    that starts a line carries a dash, white space, an opening bracket, white
    space and a closing bracket, the white space running over line breaks;
    so a document with a line that matches the marker is never exhausted. *)
Lemma checkPlanExhausted_whole_text (fs : FileSystem) (projectPath : string) :
  match readFile fs (join fs projectPath "IMPLEMENTATION_PLAN.md") with
  | None => checkPlanExhausted fs projectPath = false
  | Some content =>
      checkPlanExhausted fs projectPath = negb (any_line_start marker_at None content)
      /\ existsb spec_line_unchecked (split_on LF content)
         && checkPlanExhausted fs projectPath = false
  end.
Proof.
  unfold checkPlanExhausted.
  destruct (readFile fs (join fs projectPath "IMPLEMENTATION_PLAN.md")) as [content|]; [|done].
  rewrite test_unchecked. split; [done|].
  destruct (existsb spec_line_unchecked (split_on LF content)) eqn:E; [|done].
  apply existsb_exists in E as (line & Hin & Hline). cbn [andb].
  unfold spec_line_unchecked in Hline. rewrite test_unchecked in Hline.
  apply list_elem_of_In in Hin.
  by rewrite (line_marker_in_document _ _ Hin Hline).
Qed.

(** C4: the check does not answer "exhausted" for every document without a
    line that matches the unchecked marker.  The document made of a line
    that is a lone dash and a line that starts with an empty bracket pair
    has two lines, neither of which matches the marker, so that by the
    reading of the claim it is exhausted; the check answers "not exhausted",
    the white space of its pattern running over the line break. *)
Theorem C4_marker_across_line_break :
  split_on LF Sample.split_marker_plan = [js "-"; js "[ ]"]
  /\ existsb spec_line_unchecked (split_on LF Sample.split_marker_plan) = false
  /\ spec_plan_exhausted Sample.split_marker_plan = true
  /\ readFile (Sample.disk (Some Sample.split_marker_plan))
       (join (Sample.disk (Some Sample.split_marker_plan)) "/work/app"
          "IMPLEMENTATION_PLAN.md")
     = Some Sample.split_marker_plan
  /\ checkPlanExhausted (Sample.disk (Some Sample.split_marker_plan)) "/work/app" = false.
Proof. repeat split; vm_compute; reflexivity. Qed.

(** ** The status block *)

Section StatusBlock.

Lemma search_needs_literal (lit : jstring) (r : re) (s : jstring) : forall pv idx,
  includes s lit = false -> search_from (RSeq (RLit lit) r) pv s idx = None.
Proof.
  induction s as [|x s IH]; intros pv idx; cbn [includes search_from rmatch].
  - by destruct (strip_prefix lit []).
  - destruct (strip_prefix lit (x :: s)); [done|]. apply IH.
Qed.

(** No marker, no status. *)
Lemma parseRalphStatus_without_marker (text : jstring) :
  includes text (js "RALPH_STATUS:") = false -> parseRalphStatus text = None.
Proof.
  intros H. unfold parseRalphStatus, str_match, re_status_block. cbn [rseq].
  by rewrite search_needs_literal.
Qed.

Lemma unterminated_tail x s : unterminated (x :: s) = true -> unterminated s = true.
Proof. cbn [unterminated]. by intros [_ H]%andb_true_iff. Qed.

Lemma unterminated_strip p : forall s s',
  strip_prefix p s = Some s' -> unterminated s = true -> unterminated s' = true.
Proof.
  induction p as [|a p IH]; intros s s'; cbn [strip_prefix]; [by intros [= ->]|].
  destruct s as [|b s]; [done|]. destruct (a =? b); [|done].
  intros E H. apply (IH _ _ E). by apply unterminated_tail in H.
Qed.

Lemma lookahead_unterminated s pv c k :
  unterminated s = true ->
  rmatch (RLook (RAlt (RLit [LF; LF]) (RLit (js "z")))) pv s c k = None.
Proof.
  intros H. cbn [rmatch]. destruct s as [|x s]; [done|].
  cbn [unterminated] in H. apply andb_true_iff in H as [[H1 H2]%andb_true_iff _].
  destruct (strip_prefix [LF; LF] (x :: s)); [done|].
  by destruct (strip_prefix (js "z") (x :: s)).
Qed.

Lemma star_lazy_unterminated (p : cu -> bool) (k : cont) s : forall pv c,
  (forall s' pv' c', unterminated s' = true -> k pv' s' c' = None) ->
  unterminated s = true -> star_lazy p k pv s c = None.
Proof.
  induction s as [|x s IH]; intros pv c Hk H; cbn [star_lazy]; rewrite (Hk _ _ _ H); [done|].
  destruct (p x); [|done]. apply IH; [done|]. by apply unterminated_tail in H.
Qed.

Lemma star_greedy_unterminated (p : cu -> bool) (k : cont) s : forall pv c,
  (forall s' pv' c', unterminated s' = true -> k pv' s' c' = None) ->
  unterminated s = true -> star_greedy p k pv s c = None.
Proof.
  induction s as [|x s IH]; intros pv c Hk H; cbn [star_greedy]; [by apply Hk|].
  destruct (p x); [|by apply Hk].
  rewrite IH; [by apply Hk|done|]. by apply unterminated_tail in H.
Qed.

Lemma status_block_unterminated s : forall pv idx,
  unterminated s = true -> search_from re_status_block pv s idx = None.
Proof.
  assert (forall s pv, unterminated s = true -> rmatch re_status_block pv s [] accept = None)
    as Hm.
  { intros t pv H. unfold re_status_block. cbn [rseq rmatch].
    destruct (strip_prefix (js "RALPH_STATUS:") t) as [t'|] eqn:E; [|done].
    apply star_greedy_unterminated; [|by apply (unterminated_strip _ _ _ E)].
    intros t1 pv1 c1 H1. apply star_lazy_unterminated; [|done].
    intros t2 pv2 c2 H2. by apply lookahead_unterminated. }
  induction s as [|x s IH]; intros pv idx H; cbn [search_from]; rewrite (Hm _ _ H); [done|].
  apply IH. by apply unterminated_tail in H.
Qed.

(** A text in which no empty line and no letter z occurs gives no status,
    marker or not. *)
Lemma parseRalphStatus_unterminated (text : jstring) :
  unterminated text = true -> parseRalphStatus text = None.
Proof.
  intros H. unfold parseRalphStatus, str_match. by rewrite status_block_unterminated.
Qed.

End StatusBlock.

(** C5: the text [RALPH_STATUS: EXIT_SIGNAL: true] holds the marker and the
    parser returns no status for it, where the claim promises a status
    object; the same text followed by an empty line gives the status with
    the exit signal and the other fields at their defaults. *)
Theorem C5_status_needs_terminator :
  includes Sample.status_line (js "RALPH_STATUS") = true
  /\ parseRalphStatus Sample.status_line = None
  /\ parseRalphStatus (Sample.status_line ++ [LF; LF])
     = Some {| taskCompleted := []; filesCreated := []; nextTask := [];
               exitSignal := true; notes := [] |}.
Proof. repeat split; vm_compute; reflexivity. Qed.

(** ** The review report *)

Section Captures.

(** An expression without groups hands the captures it was given to its
    continuation. *)
Lemma star_greedy_through (p : cu -> bool) (k : cont) s : forall pv c res,
  star_greedy p k pv s c = Some res -> exists pv' s', k pv' s' c = Some res.
Proof.
  induction s as [|x s IH]; intros pv c res; cbn [star_greedy]; [by eauto|].
  destruct (p x); [|by eauto].
  destruct (star_greedy p k (Some x) s c) as [r|] eqn:E; [|by eauto].
  intros [= <-]. by apply (IH _ _ _ E).
Qed.

Lemma star_lazy_through (p : cu -> bool) (k : cont) s : forall pv c res,
  star_lazy p k pv s c = Some res -> exists pv' s', k pv' s' c = Some res.
Proof.
  induction s as [|x s IH]; intros pv c res; cbn [star_lazy].
  - destruct (k pv [] c) as [r|] eqn:E; [|done]. intros [= <-]. by eauto.
  - destruct (k pv (x :: s) c) as [r|] eqn:E; [intros [= <-]; by eauto|].
    destruct (p x); [|done]. apply IH.
Qed.

Lemma rmatch_groupless r : forall pv s c k res,
  groupless r = true ->
  rmatch r pv s c k = Some res -> exists pv' s', k pv' s' c = Some res.
Proof.
  induction r as [|l|l|p|r1 IH1 r2 IH2|r1 IH1 r2 IH2|p|p|i r1 IH1|r1 IH1| |];
    intros pv s c k res Hg; cbn [rmatch groupless] in *.
  - by eauto.
  - destruct (strip_prefix l s); [by eauto|done].
  - destruct (strip_prefix_ci l s); [by eauto|done].
  - destruct s as [|x s]; [done|]. destruct (p x); [by eauto|done].
  - apply andb_true_iff in Hg as [H1 H2]. intros H.
    destruct (IH1 _ _ _ _ _ H1 H) as (pv1 & s1 & H'). by apply (IH2 _ _ _ _ _ H2 H').
  - apply andb_true_iff in Hg as [H1 H2].
    destruct (rmatch r1 pv s c k) as [x|] eqn:E.
    + intros [= <-]. by apply (IH1 _ _ _ _ _ H1 E).
    + by apply IH2.
  - apply star_greedy_through.
  - apply star_lazy_through.
  - done.
  - destruct (rmatch r1 pv s c (fun _ s' c' => Some (s', c'))) as [[s1 c1]|] eqn:E; [|done].
    destruct (IH1 _ _ _ _ _ Hg E) as (pv1 & s2 & [= _ <-]). by eauto.
  - destruct (at_line_start pv); [by eauto|done].
  - destruct s; [by eauto|done].
Qed.

Lemma rmatch_seq_eq r1 r2 pv s c k :
  rmatch (RSeq r1 r2) pv s c k = rmatch r1 pv s c (fun pv' s' c' => rmatch r2 pv' s' c' k).
Proof. reflexivity. Qed.

Lemma rmatch_group_eq i r pv s c k :
  rmatch (RGroup i r) pv s c k
  = rmatch r pv s c (fun pv' s' c' => k pv' s' ((i, consumed s s') :: c')).
Proof. reflexivity. Qed.

Lemma rmatch_alt_cases r1 r2 pv s c k res :
  rmatch (RAlt r1 r2) pv s c k = Some res ->
  rmatch r1 pv s c k = Some res \/ rmatch r2 pv s c k = Some res.
Proof. cbn [rmatch]. destruct (rmatch r1 pv s c k); [intros [= <-]; by left|by right]. Qed.

(** A literal under the [i] flag as the whole of group 1, followed by an
    expression without groups. *)
Lemma group_literal_ci lit r2 pv s res :
  rmatch (RLitI lit) pv s []
    (fun pv' s' c' => rmatch r2 pv' s' ((1%nat, consumed s s') :: c') accept) = Some res ->
  groupless r2 = true ->
  exists s', strip_prefix_ci lit s = Some s' /\ snd res = [(1%nat, consumed s s')].
Proof.
  cbn [rmatch]. destruct (strip_prefix_ci lit s) as [s'|]; [|done].
  intros H Hg. apply rmatch_groupless in H as (pv' & s'' & [= <-]); [|done].
  by exists s'.
Qed.

(** What a literal under the [i] flag consumes is in ASCII and has the upper
    case of the literal. *)
Lemma strip_prefix_ci_consumed l : forall s s',
  strip_prefix_ci l s = Some s' ->
  all_ascii (consumed s s') = true
  /\ List.map ascii_upper (consumed s s') = List.map ascii_upper l.
Proof.
  assert (forall s s', strip_prefix_ci l s = Some s' ->
            exists x, s = x ++ s' /\ all_ascii x = true
                      /\ List.map ascii_upper x = List.map ascii_upper l) as H.
  { induction l as [|a l IH]; intros s s'; cbn [strip_prefix_ci].
    - intros [= ->]. by exists [].
    - destruct s as [|b s]; [done|].
      destruct (b <? 128) eqn:Hb; [|done]. cbn [andb].
      destruct (N.eqb_spec (ascii_upper a) (ascii_upper b)) as [Hab|]; [|done].
      intros E. destruct (IH _ _ E) as (x & -> & Hx & Hm).
      exists (b :: x). split; [done|]. split.
      + cbn. rewrite Hb. exact Hx.
      + cbn. by rewrite Hm, Hab. }
  intros s s' E. destruct (H _ _ E) as (x & -> & Hx & Hm).
  unfold consumed. rewrite length_app.
  replace (length x + length s' - length s')%nat with (length x) by lia.
  by rewrite take_app_length.
Qed.

Lemma search_from_match r s : forall pv idx m,
  search_from r pv s idx = Some m ->
  exists pv' t t', rmatch r pv' t [] accept = Some (t', m_caps m).
Proof.
  induction s as [|x s IH]; intros pv idx m; cbn [search_from].
  - destruct (rmatch r pv [] [] accept) as [[t' c]|] eqn:E; [|done].
    intros [= <-]. by eauto.
  - destruct (rmatch r pv (x :: s) [] accept) as [[t' c]|] eqn:E; [|apply IH].
    intros [= <-]. by eauto.
Qed.

End Captures.

Section ReviewReport.
Variable rt : Runtime.

Lemma jeqb_eq a : forall b, jeqb a b = true -> a = b.
Proof.
  induction a as [|x a IH]; intros [|y b]; cbn [jeqb]; try done.
  intros [?%N.eqb_eq ?%IH]%andb_true_iff. by subst.
Qed.

Lemma lookup_set_field_ne key key' v fields :
  key <> key' ->
  lookup_field key (set_field key' v fields) = lookup_field key fields.
Proof.
  intros Hne. induction fields as [|[k v0] fields IH]; cbn [set_field lookup_field].
  - destruct (jeqb key' key) eqn:E; [|done]. by apply jeqb_eq in E.
  - destruct (jeqb k key') eqn:E1; cbn [lookup_field]; [|by rewrite IH].
    apply jeqb_eq in E1 as ->.
    destruct (jeqb key' key) eqn:E2; [|done]. by apply jeqb_eq in E2.
Qed.

(** The status found by the partial extraction. *)
Lemma partial_status_group output m :
  str_match ReviewParser.re_partial_status output = Some m ->
  str_in (JStr (toUpperCase rt (group 1 m))) ["COMPLETE"; "PARTIAL"; "INCOMPLETE"] = true.
Proof.
  intros Hm. apply search_from_match in Hm as (pv & t & t' & H).
  unfold ReviewParser.re_partial_status in H. cbn [rseq] in H.
  do 6 (rewrite rmatch_seq_eq in H; apply rmatch_groupless in H as (? & ? & H);
        [cbn beta in H|done]).
  rewrite rmatch_seq_eq, rmatch_group_eq in H. cbn beta in H.
  assert (exists lit s0 s',
            lit ∈ [js "COMPLETE"; js "PARTIAL"; js "INCOMPLETE"]
            /\ strip_prefix_ci lit s0 = Some s'
            /\ m_caps m = [(1%nat, consumed s0 s')]) as (lit & s0 & s' & Hlit & E & Hc).
  { apply rmatch_alt_cases in H as [H|H]; [|apply rmatch_alt_cases in H as [H|H]];
      apply group_literal_ci in H as (s' & E & Hc); try done;
      eexists _, _, s'; (split; [|by split]); set_solver. }
  destruct (strip_prefix_ci_consumed _ _ _ E) as [Ha Hu].
  unfold group. rewrite Hc. cbn [cap_lookup Nat.eqb default from_option id].
  unfold toUpperCase. rewrite Ha, Hu.
  repeat (apply elem_of_cons in Hlit as [->|Hlit]; [reflexivity|]).
  by apply elem_of_nil in Hlit.
Qed.

Lemma status_is_truthy v :
  str_in v ReviewParser.review_statuses = true -> truthy v = true.
Proof.
  destruct v as [| | | |s| |]; try done. destruct s; [|done]. by vm_compute.
Qed.

(** The status of a normalized result is the one it was given, when that
    is one of the five. *)
Lemma normalize_status now output partial :
  str_in (lookup_field (js "reviewStatus") partial) ReviewParser.review_statuses = true ->
  ReviewParser.status_ok
    (ReviewParser.normalizeReviewResult now
       (set_field (js "rawOutput") (JStr output)
          (set_field (js "timestamp") (JNum (num_of_Z now)) partial))) = true.
Proof.
  intros H. unfold ReviewParser.status_ok, ReviewParser.normalizeReviewResult.
  cbn [get_prop_opt try_catch get_prop].
  change (lookup_field (js "reviewStatus") ((js "reviewStatus", ?v) :: _)) with v.
  rewrite !lookup_set_field_ne by done.
  unfold js_or. by rewrite (status_is_truthy _ H).
Qed.

Lemma partial_review_status text partial :
  ReviewParser.extractPartialReview rt text = Some partial ->
  str_in (lookup_field (js "reviewStatus") partial) ReviewParser.review_statuses = true.
Proof.
  unfold ReviewParser.extractPartialReview.
  destruct (is_some _ || is_some _); [|done]. intros [= <-].
  change (lookup_field (js "reviewStatus") ((js "reviewStatus", ?v) :: _)) with v.
  destruct (str_match ReviewParser.re_partial_status text) as [m|] eqn:E; [|done].
  pose proof (partial_status_group _ _ E) as H.
  apply existsb_exists in H as (lit & Hin & Hlit). apply existsb_exists.
  exists lit. split; [|done]. unfold ReviewParser.review_statuses. cbn in *. tauto.
Qed.

Lemma fix_status_ok v st :
  ReviewParser.fix_status rt v = Ok st ->
  str_in st ReviewParser.review_statuses = true.
Proof.
  unfold ReviewParser.fix_status.
  destruct (String_ rt _) as [text|]; cbn [bind]; [|done].
  destruct (str_in (JStr _) ReviewParser.review_statuses) eqn:E; [by intros [= <-]|].
  repeat destruct (includes _ _); by intros [= <-].
Qed.


(** Its string branch does not. *)
Lemma fix_score_string_unclamped :
  ReviewParser.fix_score rt (JStr (js "150")) = JNum (num_of_Z 150).
Proof. vm_compute. reflexivity. Qed.

Local Ltac bind_cases :=
  repeat (match goal with
          | |- context [bind ?m _] => destruct m eqn:?; cbn [bind]; [|done]
          end).

Lemma fixReviewResult_status parsed fixed :
  ReviewParser.fixReviewResult rt parsed = Ok fixed ->
  str_in (lookup_field (js "reviewStatus") fixed) ReviewParser.review_statuses = true.
Proof.
  unfold ReviewParser.fixReviewResult.
  destruct (get_prop parsed "reviewStatus") as [reviewStatus|]; cbn [bind]; [|done].
  destruct (ReviewParser.fix_status rt reviewStatus) as [st|] eqn:Est; cbn [bind]; [|done].
  apply fix_status_ok in Est. bind_cases.
  destruct (_ && _); [bind_cases|]; intros [= <-];
    change (lookup_field (js "reviewStatus") ((js "reviewStatus", ?v) :: _)) with v;
    exact Est.
Qed.

(** An object that passes the validation has one of the five statuses. *)
Lemma valid_status parsed errors :
  ReviewParser.validateReviewResultWithDetails rt parsed = Ok errors ->
  ReviewParser.valid errors = true ->
  str_in (lookup_field (js "reviewStatus") (own_fields parsed)) ReviewParser.review_statuses
  = true.
Proof.
  unfold ReviewParser.validateReviewResultWithDetails.
  destruct (negb (truthy parsed) || _) eqn:E; [by intros [= <-]|].
  destruct (negb (str_in (get_prop_opt parsed "reviewStatus") _)) eqn:Es.
  - destruct (String_ rt _); cbn [bind]; [|done]. by intros [= <-].
  - intros _ _. apply negb_false_iff in Es.
    destruct parsed as [| | | | |items|fields]; try done.
Qed.

Lemma parse_candidate_status now output jsonStr r :
  ReviewParser.parse_candidate rt now output jsonStr = Ok r ->
  ReviewParser.status_ok r = true.
Proof.
  unfold ReviewParser.parse_candidate.
  destruct (JSON_parse rt jsonStr) as [parsed|]; [|done].
  destruct (ReviewParser.validateReviewResultWithDetails rt parsed) as [errors|] eqn:Eval;
    cbn [bind]; [|done].
  destruct (ReviewParser.valid errors) eqn:Ev.
  - intros [= <-]. unfold ReviewParser.status_ok. cbn [get_prop_opt try_catch get_prop].
    rewrite !lookup_set_field_ne by done. by apply (valid_status _ errors).
  - destruct (ReviewParser.fixReviewResult rt parsed) as [fixed|] eqn:Ef; cbn [bind]; [|done].
    intros [= <-]. apply normalize_status. by apply (fixReviewResult_status parsed).
Qed.

(** Whatever the text, a result of the tiers has one of the five
    statuses. *)
Lemma parse_text_status now output textContent r :
  ReviewParser.parse_text rt now output textContent = Ok (Some r) ->
  ReviewParser.status_ok r = true.
Proof.
  unfold ReviewParser.parse_text.
  assert (forall x,
    match ReviewParser.extractPartialReview rt textContent with
    | Some partialResult =>
        Ok (Some (ReviewParser.normalizeReviewResult now
                    (set_field (js "rawOutput") (JStr output)
                       (set_field (js "timestamp") (JNum (num_of_Z now)) partialResult))))
    | None => Ok None
    end = Ok (Some x) -> ReviewParser.status_ok x = true) as H3.
  { intros x. destruct (ReviewParser.extractPartialReview rt textContent) eqn:E; [|done].
    intros [= <-]. apply normalize_status. by apply (partial_review_status textContent). }
  assert (forall x,
    match str_match ReviewParser.re_raw_json textContent with
    | Some rawJsonMatch =>
        match
          match ReviewParser.indexOf textContent (m_text rawJsonMatch) 0 with
          | Some startIdx =>
              ReviewParser.parse_candidate rt now output
                (ReviewParser.substring textContent startIdx
                   (ReviewParser.brace_end (drop startIdx textContent) startIdx 0 startIdx))
          | None => ReviewParser.parse_candidate rt now output []
          end
        with
        | Ok r0 => Ok (Some r0)
        | Throw _ =>
            match ReviewParser.extractPartialReview rt textContent with
            | Some partialResult =>
                Ok (Some (ReviewParser.normalizeReviewResult now
                            (set_field (js "rawOutput") (JStr output)
                               (set_field (js "timestamp") (JNum (num_of_Z now))
                                  partialResult))))
            | None => Ok None
            end
        end
    | None =>
        match ReviewParser.extractPartialReview rt textContent with
        | Some partialResult =>
            Ok (Some (ReviewParser.normalizeReviewResult now
                        (set_field (js "rawOutput") (JStr output)
                           (set_field (js "timestamp") (JNum (num_of_Z now)) partialResult))))
        | None => Ok None
        end
    end = Ok (Some x) -> ReviewParser.status_ok x = true) as H2.
  { intros x. destruct (str_match ReviewParser.re_raw_json textContent); [|apply H3].
    match goal with |- context [match ?c with Ok _ => _ | Throw _ => _ end] =>
      destruct c eqn:Ec end; [|apply H3].
    intros [= <-].
    destruct (ReviewParser.indexOf _ _ _); by apply parse_candidate_status in Ec. }
  destruct (str_match ReviewParser.re_json_block textContent); [|apply H2].
  match goal with |- context [match ?c with Ok _ => _ | Throw _ => _ end] =>
    destruct c eqn:Ec end; [|apply H2].
  intros [= <-]. by apply parse_candidate_status in Ec.
Qed.

(** Whatever the output, a result of the parser has one of the five
    statuses. *)
Lemma parseReviewOutput_status now output r :
  ReviewParser.parseReviewOutput rt now output = Ok (Some r) ->
  ReviewParser.status_ok r = true.
Proof.
  unfold ReviewParser.parseReviewOutput.
  destruct (if ReviewParser.is_stream_json output then _ else _) as [textContent|];
    cbn [bind]; [|done].
  apply parse_text_status.
Qed.

Lemma parse_tier3_total now output textContent :
  exists r,
    match ReviewParser.extractPartialReview rt textContent with
    | Some partialResult =>
        Ok (Some (ReviewParser.normalizeReviewResult now
                    (set_field (js "rawOutput") (JStr output)
                       (set_field (js "timestamp") (JNum (num_of_Z now)) partialResult))))
    | None => Ok None
    end = Ok r.
Proof. destruct (ReviewParser.extractPartialReview rt textContent); by eexists. Qed.

(** The tiers hand every exception to the next tier. *)
Lemma parse_text_total now output textContent :
  exists r, ReviewParser.parse_text rt now output textContent = Ok r.
Proof.
  unfold ReviewParser.parse_text.
  destruct (parse_tier3_total now output textContent) as [r3 E3]. rewrite E3.
  assert (exists r2,
    match str_match ReviewParser.re_raw_json textContent with
    | Some rawJsonMatch =>
        match
          match ReviewParser.indexOf textContent (m_text rawJsonMatch) 0 with
          | Some startIdx =>
              ReviewParser.parse_candidate rt now output
                (ReviewParser.substring textContent startIdx
                   (ReviewParser.brace_end (drop startIdx textContent) startIdx 0 startIdx))
          | None => ReviewParser.parse_candidate rt now output []
          end
        with
        | Ok r => Ok (Some r)
        | Throw _ => Ok r3
        end
    | None => Ok r3
    end = Ok r2) as [r2 E2].
  { destruct (str_match ReviewParser.re_raw_json textContent); [|by eexists].
    match goal with |- context [match ?x with Ok _ => _ | Throw _ => _ end] =>
      destruct x end; by eexists. }
  rewrite E2.
  destruct (str_match ReviewParser.re_json_block textContent); [|by eexists].
  match goal with |- context [match ?x with Ok _ => _ | Throw _ => _ end] =>
    destruct x end; by eexists.
Qed.

(** An exception leaves the parser only from the extraction of the text of
    a stream, and it is then the one the extraction throws. *)
Lemma parseReviewOutput_throws now output e :
  ReviewParser.parseReviewOutput rt now output = Throw e ->
  ReviewParser.is_stream_json output = true
  /\ ReviewParser.extractTextFromStreamJson rt output = Throw e.
Proof.
  unfold ReviewParser.parseReviewOutput.
  destruct (ReviewParser.is_stream_json output); cbn [bind].
  - destruct (ReviewParser.extractTextFromStreamJson rt output) as [text|e'];
      cbn [bind]; [|by intros [= <-]].
    destruct (parse_text_total now output text) as [r ->]. done.
  - destruct (parse_text_total now output output) as [r ->]. done.
Qed.

Lemma jsval_ind_nested (P : jsval -> Prop) :
  P JUndefined -> P JNull -> (forall b, P (JBool b)) -> (forall n, P (JNum n)) ->
  (forall s, P (JStr s)) -> (forall items, Forall P items -> P (JArr items)) ->
  (forall fields, P (JObj fields)) -> forall v, P v.
Proof.
  intros HU HN HB HNum HS HA HO. fix IH 1.
  intros [| |b|n|s|items|fields];
    [exact HU|exact HN|apply HB|apply HNum|apply HS| |apply HO].
  apply HA. induction items as [|x items IHitems]; constructor; [apply IH|exact IHitems].
Qed.

(** What can be thrown while a value is converted to a string is a
    TypeError. *)
Lemma String_throws v : forall e, String_ rt v = Throw e -> e = TypeError.
Proof.
  induction v as [| | | | |items IH|fields] using jsval_ind_nested; intros e;
    cbn [String_]; try done.
  - match goal with |- context [bind ?m _] => destruct m as [parts|e'] eqn:E end;
      cbn [bind]; [done|]. intros [= <-].
    revert e' E. induction IH as [|x l Hx Hl IHl]; intros e' E; [done|].
    cbn in E.
    destruct (match x with JUndefined | JNull => Ok [] | _ => String_ rt x end)
      as [s|e1] eqn:E1; cbn [bind] in E.
    + match type of E with context [bind ?m _] => destruct m as [ss|e2] eqn:E2 end;
        cbn [bind] in E; [done|]. injection E as <-. by apply IHl.
    + injection E as <-. destruct x; try done; by apply Hx.
  - destruct (has_own _ _); [by intros [= <-]|done].
Qed.

Lemma join_values_throws sep parts e :
  join_values rt sep parts = Throw e -> e = TypeError.
Proof.
  unfold join_values.
  match goal with |- context [bind ?m _] => destruct m as [ss|e'] eqn:E end;
    cbn [bind]; [done|]. intros [= <-].
  revert e' E. induction parts as [|x parts IH]; intros e' E; [done|].
  cbn [mapM] in E.
  destruct (match x with JUndefined | JNull => Ok [] | _ => String_ rt x end)
    as [s|e1] eqn:E1; cbn [bind] in E.
  - destruct (mapM _ parts) as [ss|e2] eqn:E2; cbn [bind] in E; [done|].
    injection E as <-. by apply IH.
  - injection E as <-. destruct x; try done; by apply String_throws in E1.
Qed.

End ReviewReport.

(** C6: a report cut short in the middle of its object, with
    [overallScore] 250, is parsed by the partial extraction into a result of
    status PARTIAL whose score is 250, above the 100 the claim bounds it
    by. *)
Theorem C6_partial_score_not_clamped (rt : Runtime) (now : Z) :
  exists r,
    ReviewParser.parseReviewOutput rt now Sample.truncated_report = Ok (Some r)
    /\ get_prop_opt r "reviewStatus" = JStr (js "PARTIAL")
    /\ get_prop_opt r "overallScore" = JNum (num_of_Z 250)
    /\ num_ltb ReviewParser.hundred (num_of_Z 250) = true.
Proof.
  eexists. split; [vm_compute; reflexivity|]. repeat split; vm_compute; reflexivity.
Qed.

(** ** Starting a session *)

(** The guard of [startLoop]: a start of a session that has a process in
    the registry throws and returns the manager as it was. *)
Lemma startLoop_running_rejected (w : World) (config : LoopConfig) (s : ProcessManager)
    (proc : ChildProcess) :
  processes s !! sessionId config = Some proc ->
  startLoop w config s
  = (Throw (Error_ (js ("Session " +:+ sessionId config +:+ " is already running"))), s)
  /\ processes (snd (startLoop w config s)) !! sessionId config = Some proc
  /\ spawned (snd (startLoop w config s)) = spawned s.
Proof.
  intros H. unfold startLoop. rewrite H. cbn [is_some snd]. done.
Qed.

(** C2: a session can have two active processes.  The guard of [startLoop]
    looks at the registry, and the registry can lose the entry of a process
    that is running.  The first process of session s1 exits with code 0 and
    the handler waits two seconds before its restart; the session is started
    again during the wait (process 1); the restart of the handler then
    throws, the session being already running, and its [catch] cleans the
    session up, which drops the entry of process 1 and ends the session with
    exit code 1 although process 1 runs on; the next start finds no entry and
    spawns process 2.  Three processes were spawned for s1, one has exited,
    no signal was sent: processes 1 and 2 are active together, and the
    registry knows process 2 only. *)
Theorem C2_second_process_after_failed_restart :
  let already := Error_ (js "Session s1 is already running") in
  fst SampleRestart.exited = RestartPending SampleRestart.config
  /\ processes (snd SampleRestart.exited) !! "s1" = None
  /\ fst SampleRestart.started_again = Ok tt
  /\ processes (snd SampleRestart.started_again) !! "s1" = Some (SampleRestart.handle 1)
  /\ startLoop SampleRestart.w SampleRestart.config (snd SampleRestart.started_again)
     = (Throw already, snd SampleRestart.started_again)
  /\ SampleRestart.restarted
     = emit (OnSessionEnd "s1" (Some 1%Z))
         (emitEvent "s1"
            (EvError (js "Failed to restart loop: Session s1 is already running"))
            (cleanupSession "s1" (snd SampleRestart.started_again)))
  /\ processes SampleRestart.restarted !! "s1" = None
  /\ active_handles [0%nat] "s1" SampleRestart.restarted = [SampleRestart.handle 1]
  /\ fst SampleRestart.started_third = Ok tt
  /\ spawned (snd SampleRestart.started_third)
     = [SampleRestart.handle 0; SampleRestart.handle 1; SampleRestart.handle 2]
  /\ signals (snd SampleRestart.started_third) = []
  /\ active_handles [0%nat] "s1" (snd SampleRestart.started_third)
     = [SampleRestart.handle 1; SampleRestart.handle 2]
  /\ processes (snd SampleRestart.started_third) !! "s1" = Some (SampleRestart.handle 2).
Proof.
  cbv zeta.
  repeat match goal with |- _ /\ _ => split end; vm_compute; reflexivity.
Qed.

(** A start that succeeds found no process for the session and leaves
    exactly one, newly spawned. *)
Lemma startLoop_ok_fresh (w : World) (config : LoopConfig) (s s' : ProcessManager) :
  startLoop w config s = (Ok tt, s') ->
  processes s !! sessionId config = None
  /\ exists proc, spawned s' = spawned s ++ [proc]
                  /\ processes s' = <[sessionId config := proc]> (processes s).
Proof.
  unfold startLoop. destruct (processes s !! sessionId config) eqn:E; cbn [is_some]; [done|].
  destruct (existsSync _ _); cbn [negb]; [|done].
  destruct (existsSync _ _); cbn [negb];
    destruct (git_branch w (projectPath config)); cbn; intros [= <-]; cbn;
    (split; [done|]); eexists; split; reflexivity.
Qed.

(** ** The iteration cap *)

(** C3: with max-iterations 3, a tracking document that keeps an unchecked
    item and a process that exits with code 0 each time, the manager spawns
    four processes before it stops; the completion event then carries the
    reason "Max iterations (3) reached" and reports 3 iterations. *)
Theorem C3_cap_three_runs_four :
  let final := run_exits 10 (Sample.world (Some Sample.open_plan)) Sample.rt "s1" (Some 0%Z)
                 (Sample.started (Some 3%Z)) in
  length (spawned final) = 4%nat
  /\ completions "s1" final = [(Some 0%Z, MaxIterations (Some 3%Z), 3%Z)]
  /\ reason_text (MaxIterations (Some 3%Z)) = "Max iterations (3) reached"
  /\ isRunning "s1" final = false.
Proof. repeat split; vm_compute; reflexivity. Qed.

Section IterationCap.
Variables (w : World) (rt : Runtime) (config : LoopConfig) (cap : Z).
Hypothesis Hcap : maxIterations config = Some cap.
Hypothesis Hprompt :
  existsSync (fs w) (join (fs w) (projectPath config) (promptFile config)) = true.
Hypothesis Hplan : checkPlanExhausted (fs w) (projectPath config) = false.

(** A start of a session that has no process. *)
Lemma startLoop_fresh s :
  processes s !! sessionId config = None ->
  exists s',
    startLoop w config s = (Ok tt, s')
    /\ mid_cycle config (default 0%Z (iterationCounts s !! sessionId config))
         (S (length (spawned s))) s'.
Proof using Hprompt.
  intros Hnone. unfold startLoop. rewrite Hnone, Hprompt. cbn [is_some negb].
  unfold mid_cycle.
  destruct (negb (existsSync _ _)); destruct (git_branch w (projectPath config)); cbn;
    (eexists; split; [reflexivity|]; cbn; rewrite !lookup_insert_eq;
     repeat split; try done; try (by eexists);
     try (by rewrite length_app, Nat.add_1_r);
     by destruct (iterationCounts s !! sessionId config)).
Qed.

(** Below the cap, an exit with code 0 is followed by a restart: the count
    goes up by one and one more process is spawned. *)
Lemma exit_below_cap count runs s :
  mid_cycle config count runs s ->
  (count < cap)%Z ->
  exists s1,
    onClose w rt (sessionId config) (Some 0%Z) s = (RestartPending config, s1)
    /\ mid_cycle config (count + 1) (S runs)
         (closeRestart w rt (sessionId config) config s1).
Proof using Hcap Hprompt Hplan.
  intros (Hc & Hp & Hi & Hf & He & Hs) Hlt. unfold onClose.
  set (sid := sessionId config) in *.
  assert (closeBegin sid s
          = (fst (closeBegin sid s),
             upd_outputBuffers (delete sid) (upd_processes (delete sid) s))) as Hb
    by reflexivity.
  set (cx := fst (closeBegin sid s)) in *.
  assert (cx_config cx = Some config) as Hxc by exact Hc.
  assert (cx_shouldContinue cx = Some true) as Hxf by exact Hf.
  assert (cx_exitSignal cx = Some false) as Hxe by exact He.
  assert (cx_currentIteration cx = count) as Hxi.
  { unfold cx, closeBegin. cbn. by rewrite Hi. }
  assert (cx_maxReached cx = false) as Hxm.
  { unfold cx, closeBegin. cbn. rewrite Hc, Hcap, Hi. cbn.
    replace (cap <=? count)%Z with false by (symmetry; apply Z.leb_gt; lia).
    by rewrite andb_false_r. }
  rewrite Hb. clearbody cx. unfold closePlanCheck. rewrite Hxc, Hplan.
  unfold shouldRestart. rewrite Hxc, Hxf, Hxe, Hxm. cbn [exit_ok default from_option id negb andb is_some].
  eexists. split; [reflexivity|].
  set (s1 := closeIterate w sid config cx _).
  assert (processes s1 !! sid = None) as Hp1.
  { unfold s1, closeIterate. destruct (default false (autoPush config));
      [destruct (git_push w _ _)|]; cbn; apply lookup_delete_eq. }
  assert (iterationCounts s1 !! sid = Some (count + 1)%Z) as Hi1.
  { unfold s1, closeIterate. rewrite Hxi. destruct (default false (autoPush config));
      [destruct (git_push w _ _)|]; cbn; apply lookup_insert_eq. }
  assert (shouldContinueLoop s1 !! sid = Some true) as Hf1.
  { unfold s1, closeIterate. destruct (default false (autoPush config));
      [destruct (git_push w _ _)|]; exact Hf. }
  assert (length (spawned s1) = runs) as Hs1.
  { unfold s1, closeIterate. destruct (default false (autoPush config));
      [destruct (git_push w _ _)|]; exact Hs. }
  clearbody s1. unfold closeRestart. rewrite Hf1. cbn [default from_option id].
  destruct (startLoop_fresh s1 Hp1) as (s2 & -> & H2).
  fold sid in H2. by rewrite Hi1, Hs1 in H2.
Qed.

(** As many exits as the cap allows all restart. *)
Lemma exits_below_cap n : forall count runs s,
  mid_cycle config count runs s ->
  (count + Z.of_nat n <= cap)%Z ->
  mid_cycle config (count + Z.of_nat n) (runs + n)
    (run_exits n w rt (sessionId config) (Some 0%Z) s).
Proof using Hcap Hprompt Hplan.
  induction n as [|n IH]; intros count runs s Hmid Hle; cbn [run_exits].
  - by rewrite Z.add_0_r, Nat.add_0_r.
  - destruct (exit_below_cap count runs s Hmid) as (s1 & -> & Hnext); [lia|].
    replace (count + Z.of_nat (S n))%Z with (count + 1 + Z.of_nat n)%Z by lia.
    replace (runs + S n)%nat with (S runs + n)%nat by lia.
    apply IH; [done|lia].
Qed.

(** With a cap of [cap] iterations, a fresh session whose process exits with
    code 0 [cap] times in a row is running again after the last of these
    exits: [cap + 1] processes have been spawned for it. *)
Lemma cap_exits_leave_it_running s :
  (0 < cap)%Z ->
  processes s !! sessionId config = None ->
  iterationCounts s !! sessionId config = None ->
  let final := run_exits (Z.to_nat cap) w rt (sessionId config) (Some 0%Z)
                 (snd (startLoop w config s)) in
  isRunning (sessionId config) final = true
  /\ getIterationCount (sessionId config) final = cap
  /\ length (spawned final) = (length (spawned s) + Z.to_nat cap + 1)%nat.
Proof using Hcap Hprompt Hplan.
  intros Hpos Hnone Hcount final.
  destruct (startLoop_fresh s Hnone) as (s0 & E & Hmid).
  rewrite Hcount in Hmid. cbn [default from_option id] in Hmid.
  pose proof (exits_below_cap (Z.to_nat cap) 0%Z _ s0 Hmid) as H.
  rewrite Z2Nat.id in H by lia.
  destruct (H ltac:(lia)) as (_ & [p Hp] & Hi & _ & _ & Hs).
  subst final. rewrite E. cbn [snd]. unfold isRunning, getIterationCount.
  rewrite Hp, Hi, Hs. cbn. split; [done|]. split; lia.
Qed.

End IterationCap.

(** ** What the output handlers leave alone *)

Section OutputFrame.

Lemma output_frame_refl s : output_frame s s.
Proof. constructor; try done. by exists []; rewrite app_nil_r. Qed.

Lemma output_frame_trans a b c : output_frame a b -> output_frame b c -> output_frame a c.
Proof.
  intros [] []. constructor; try congruence.
  - destruct of_emitted0 as [n1 E1], of_emitted1 as [n2 E2].
    exists (n1 ++ n2). by rewrite E2, E1, app_assoc.
  - eauto.
Qed.

Lemma emitEvent_frame sid ev s : output_frame s (emitEvent sid ev s).
Proof. constructor; try done. by eexists. Qed.

Lemma handleRalphStatus_frame sid status s : output_frame s (handleRalphStatus sid status s).
Proof.
  unfold handleRalphStatus. destruct (exitSignal status); [|apply emitEvent_frame].
  constructor; cbn; try done.
  - eexists. by rewrite <- app_assoc.
  - intros sid' H. destruct (decide (sid = sid')) as [->|Hne].
    + apply lookup_insert_eq.
    + by rewrite lookup_insert_ne.
Qed.

Lemma scan_status_frame sid text s : output_frame s (scan_status sid text s).
Proof.
  unfold scan_status. destruct (parseRalphStatus text);
    [apply handleRalphStatus_frame|apply output_frame_refl].
Qed.

Lemma stdout_raw_frame sid line s : output_frame s (stdout_raw sid line s).
Proof.
  unfold stdout_raw. eapply output_frame_trans; [apply emitEvent_frame|apply scan_status_frame].
Qed.

Lemma claudeSessionIds_frame f s : output_frame s (upd_claudeSessionIds f s).
Proof. constructor; try done. by exists []; rewrite app_nil_r. Qed.

Lemma stdout_parsed_frame sid parsed s : output_frame s (snd (stdout_parsed sid parsed s)).
Proof.
  unfold stdout_parsed. destruct (get_prop parsed "type") as [ty|e]; cbn [snd];
    [|apply emitEvent_frame].
  eapply output_frame_trans; [apply emitEvent_frame|].
  set (s1 := emitEvent sid (EvStdoutParsed parsed) s).
  match goal with
  | |- context [if ?c then upd_claudeSessionIds ?f s1 else s1] =>
      set (s2 := if c then upd_claudeSessionIds f s1 else s1);
      assert (output_frame s1 s2) as H12
        by (unfold s2; destruct c; [apply claudeSessionIds_frame|apply output_frame_refl])
  end.
  eapply output_frame_trans; [exact H12|]. clearbody s2.
  destruct (truthy _); [|apply output_frame_refl].
  destruct (get_prop_opt _ "text"); cbn [snd];
    try apply output_frame_refl. apply scan_status_frame.
Qed.

Lemma stdout_line_frame rt sid s line : output_frame s (stdout_line rt sid s line).
Proof.
  unfold stdout_line. destruct (negb _); [apply output_frame_refl|].
  destruct (JSON_parse rt line) as [parsed|]; [|apply stdout_raw_frame].
  pose proof (stdout_parsed_frame sid parsed s) as H.
  destruct (stdout_parsed sid parsed s) as [[u|e] s']; cbn [snd] in H; [done|].
  eapply output_frame_trans; [exact H|apply stdout_raw_frame].
Qed.

Lemma stdout_lines_frame rt sid lines : forall s,
  output_frame s (fold_left (stdout_line rt sid) lines s).
Proof.
  induction lines as [|l lines IH]; intros s; cbn [fold_left]; [apply output_frame_refl|].
  eapply output_frame_trans; [apply stdout_line_frame|apply IH].
Qed.

Lemma onStdout_frame rt sid chunk s : output_frame s (onStdout rt sid chunk s).
Proof.
  unfold onStdout. eapply output_frame_trans; [|apply stdout_lines_frame].
  constructor; try done. by exists []; rewrite app_nil_r.
Qed.

End OutputFrame.

(** ** The cache of review results *)

Section ReviewCache.

Lemma startLoop_cache w config s :
  latestReviewResults (snd (startLoop w config s)) = latestReviewResults s.
Proof.
  unfold startLoop. destruct (is_some _); [done|]. destruct (negb _); [done|].
  destruct (negb _); destruct (git_branch w (projectPath config)); done.
Qed.

Lemma stopLoop_cache sid s :
  latestReviewResults (snd (stopLoop sid s)) = latestReviewResults s.
Proof.
  unfold stopLoop, stopLoop_terminate, stopLoop_mark. cbn.
  by destruct (processes s !! sid).
Qed.

End ReviewCache.

(** C9, as stated, fails: the result cached for a session is still there
    after the clean-up of the session. *)
Lemma C9_cache_survives_cleanup :
  let s := upd_latestReviewResults (insert "s1" Sample.a_result) (Sample.started None) in
  getLatestReviewResult "s1" s = Some Sample.a_result
  /\ getLatestReviewResult "s1" (cleanupSession "s1" s) = Some Sample.a_result.
Proof. split; vm_compute; reflexivity. Qed.

(** C9, amended: a review run that passes its guards caches its result
    under the session id, replacing the earlier one (a run stopped by its
    guards caches nothing and changes no entry); the clean-up of a session
    keeps the cache as it is, and so do starting, stopping and the output of
    the supervised process. *)
Theorem C9_review_cache (w : World) (rt : Runtime) (config : ReviewConfig)
    (sid : string) (lc : LoopConfig) (chunk : jstring) (s : ProcessManager) :
  match runAutoReview w rt config s with
  | (Ok r, s') =>
      if existsSync (fs w) (join (fs w) (rv_projectPath config) "IMPLEMENTATION_PLAN.md")
      then latestReviewResults s' = <[rv_sessionId config := r]> (latestReviewResults s)
      else latestReviewResults s' = latestReviewResults s
  | (Throw _, s') => s' = s
  end
  /\ latestReviewResults (cleanupSession sid s) = latestReviewResults s
  /\ latestReviewResults (snd (startLoop w lc s)) = latestReviewResults s
  /\ latestReviewResults (snd (stopLoop sid s)) = latestReviewResults s
  /\ latestReviewResults (onStdout rt sid chunk s) = latestReviewResults s.
Proof.
  split; [|split; [done|split; [apply startLoop_cache|split;
    [apply stopLoop_cache|apply onStdout_frame]]]].
  unfold runAutoReview.
  destruct (default false (reviewInProgress s !! rv_sessionId config)); [done|].
  destruct (existsSync _ _); cbn [negb]; [|done].
  unfold review_try, review_output, spawn, review_promise, review_catch.
  destruct (writeFile w _); [done|].
  destruct (review_outcome w) as [code out err| |m]; cbn; try done.
  destruct (reviewClose code out err) as [output|]; cbn; [|done].
  unfold review_after_output.
  destruct (writeFile w _); [done|].
  destruct (ReviewParser.parseReviewOutput rt (review_end w) output) as [[r|]|]; done.
Qed.

(** ** The exit code of the review subprocess *)

Section ReviewExit.

Lemma reviewClose_output code stdout stderr :
  nonempty stdout = true -> reviewClose code stdout stderr = Ok (stdout ++ stderr).
Proof.
  intros H. unfold reviewClose. destruct stdout; [done|]. cbn. by rewrite orb_true_r.
Qed.

Lemma reviewClose_clean stdout stderr :
  reviewClose (Some 0%Z) stdout stderr = Ok (stdout ++ stderr).
Proof. done. Qed.

Lemma reviewClose_reject code stderr :
  exit_ok code = false ->
  reviewClose code [] stderr
  = Throw (Error_ (js ("Review process exited with code " +:+ show_code code +:+ ": ")
                   ++ stderr)).
Proof. intros H. unfold reviewClose. by rewrite H. Qed.

(** The result of a review depends on the subprocess through what its
    output settles to. *)
Lemma runAutoReview_outcome w rt config s code1 code2 stdout stderr :
  reviewClose code1 stdout stderr = reviewClose code2 stdout stderr ->
  runAutoReview (with_outcome w (RvClose code1 stdout stderr)) rt config s
  = runAutoReview (with_outcome w (RvClose code2 stdout stderr)) rt config s.
Proof.
  intros H. unfold runAutoReview, review_try, review_output, review_promise.
  cbn [with_outcome fs writeFile review_outcome review_end now isWindows].
  unfold spawn, reviewCommand. cbn [with_outcome isWindows]. by rewrite H.
Qed.

Lemma error_result_status now error raw :
  get_prop_opt (ReviewParser.createErrorReviewResult now error raw) "reviewStatus"
  = JStr (js "ERROR").
Proof. vm_compute. reflexivity. Qed.

Lemma timed_error_result_status now error raw ms :
  get_prop_opt (set_duration ms (ReviewParser.createErrorReviewResult now error raw))
    "reviewStatus" = JStr (js "ERROR").
Proof. vm_compute. reflexivity. Qed.

(** A rejected output makes the [try] block of the review throw. *)
Lemma review_try_reject w rt config startTime s code stderr :
  exit_ok code = false ->
  exists e s',
    review_try (with_outcome w (RvClose code [] stderr)) rt config startTime s
    = (Throw e, s').
Proof.
  intros Hcode. unfold review_try.
  match goal with |- context [writeFile ?w' ?p] => destruct (writeFile w' p) end;
    [by eexists _, _|].
  unfold review_output, spawn, review_promise. cbn [with_outcome review_outcome].
  rewrite (reviewClose_reject _ _ Hcode). by eexists _, _.
Qed.

(** The promise is rejected for the exit code exactly when the code is not
    0 and the standard output is empty. *)
Lemma reviewClose_throws code stdout stderr :
  (exists e, reviewClose code stdout stderr = Throw e)
  <-> exit_ok code = false /\ stdout = [].
Proof.
  unfold reviewClose. destruct (exit_ok code); cbn [orb].
  - split; [by intros [e ?]|by intros [? _]].
  - destruct stdout as [|c stdout]; cbn.
    + split; [done|]. intros _. by eexists.
    + split; [by intros [e ?]|by intros [_ ?]].
Qed.

(** A run whose guards pass and whose files are written: the result is made
    of what the promise of the output settles to. *)
Lemma runAutoReview_runs w rt config s code stdout stderr :
  review_runs w config s ->
  let run := with_outcome w (RvClose code stdout stderr) in
  let r :=
    match reviewClose code stdout stderr with
    | Ok output => spec_parsed_result w rt output
    | Throw e => spec_failed_result w (error_message rt e)
    end in
  exists s',
    runAutoReview run rt config s = (Ok r, s')
    /\ latestReviewResults s' !! rv_sessionId config = Some r
    /\ match reviewClose code stdout stderr with
       | Ok _ => True
       | Throw e => OnReviewError (rv_sessionId config) (JStr (error_message rt e)) ∈ emitted s'
       end.
Proof.
  intros (Hidle & Hplan & Hw1 & Hw2) run r. subst run r.
  unfold isReviewInProgress in Hidle. unfold runAutoReview.
  cbn [with_outcome fs now review_end]. rewrite Hidle, Hplan. cbn [negb].
  unfold review_try, review_output, spawn, review_promise.
  cbn [with_outcome fs writeFile review_outcome review_end now isWindows].
  rewrite Hw1.
  destruct (reviewClose code stdout stderr) as [output|e].
  - unfold review_after_output, spec_parsed_result, spec_failed_result, review_catch.
    cbn [with_outcome fs writeFile review_outcome review_end now isWindows].
    rewrite Hw2.
    destruct (ReviewParser.parseReviewOutput rt (review_end w) output) as [[parsed|]|e];
      (eexists; split; [reflexivity|]); cbn; by rewrite lookup_insert_eq.
  - unfold spec_failed_result, review_catch.
    cbn [with_outcome fs writeFile review_outcome review_end now isWindows].
    eexists. split; [reflexivity|]. cbn. rewrite lookup_insert_eq. split; [done|].
    apply elem_of_app. right. by apply list_elem_of_singleton.
Qed.

End ReviewExit.

(** C10: when the review subprocess exits with a code other than 0, the run
    goes on exactly as for exit code 0 as soon as its standard output is not
    empty: the promise of the output is rejected for an exit code only when
    the code is not 0 and the standard output is empty; otherwise the review
    parser receives the standard output followed by the standard error, and
    what the run returns and caches is what the parser makes of that text,
    with the duration of the run.  With an empty standard output the run
    returns and caches the result of status ERROR built from the message of
    the exit code, and emits a review error with that message. *)
Theorem C10_review_exit_code (w : World) (rt : Runtime) (config : ReviewConfig)
    (s : ProcessManager) (code : option Z) (stdout stderr : jstring) :
  exit_ok code = false ->
  let failed := with_outcome w (RvClose code stdout stderr) in
  let clean := with_outcome w (RvClose (Some 0%Z) stdout stderr) in
  fst (review_output clean config s) = Ok (stdout ++ stderr)
  /\ (if nonempty stdout
      then fst (review_output failed config s) = Ok (stdout ++ stderr)
           /\ runAutoReview failed rt config s = runAutoReview clean rt config s
      else fst (review_output failed config s)
           = Throw (Error_ (js ("Review process exited with code " +:+ show_code code +:+ ": ")
                            ++ stderr))
           /\ match runAutoReview failed rt config s with
              | (Ok r, _) => get_prop_opt r "reviewStatus" = JStr (js "ERROR")
              | (Throw _, _) => isReviewInProgress (rv_sessionId config) s = true
              end)
  /\ (forall code',
        (exists e, reviewClose code' stdout stderr = Throw e)
        <-> exit_ok code' = false /\ stdout = [])
  /\ (review_runs w config s ->
      let r :=
        if nonempty stdout then spec_parsed_result w rt (stdout ++ stderr)
        else spec_failed_result w (exit_code_message code stderr) in
      exists s',
        runAutoReview failed rt config s = (Ok r, s')
        /\ latestReviewResults s' !! rv_sessionId config = Some r
        /\ (if nonempty stdout then True
            else get_prop_opt r "reviewStatus" = JStr (js "ERROR")
                 /\ get_prop_opt r "summary"
                    = JStr (js "Review failed: " ++ exit_code_message code stderr)
                 /\ OnReviewError (rv_sessionId config)
                      (JStr (exit_code_message code stderr)) ∈ emitted s')).
Proof.
  intros Hcode failed clean. split; [done|]. split; [|split].
  - destruct (nonempty stdout) eqn:Hout.
    + split.
      * unfold review_output, spawn, review_promise. cbn. by apply reviewClose_output.
      * apply runAutoReview_outcome. by rewrite reviewClose_output.
    + destruct stdout; [|done]. split.
      * unfold review_output, spawn, review_promise. cbn. by apply reviewClose_reject.
      * unfold runAutoReview, isReviewInProgress.
        destruct (default false (reviewInProgress s !! rv_sessionId config)); [done|].
        destruct (negb _); [apply error_result_status|].
        match goal with |- context [review_try failed rt config ?t ?st] =>
          destruct (review_try_reject w rt config t st code stderr Hcode) as (e & s' & E)
        end.
        fold failed in E. rewrite E. apply timed_error_result_status.
  - intros code'. apply reviewClose_throws.
  - intros Hruns r.
    destruct (runAutoReview_runs w rt config s code stdout stderr Hruns)
      as (s' & Hrun & Hcache & Hev).
    fold failed in Hrun. subst r. destruct (nonempty stdout) eqn:Hout.
    + rewrite (reviewClose_output code stdout stderr Hout) in Hrun, Hcache.
      exists s'. by rewrite Hrun, Hcache.
    + destruct stdout; [|done].
      rewrite (reviewClose_reject code stderr Hcode) in Hrun, Hcache, Hev.
      cbn [error_message] in Hrun, Hcache, Hev.
      exists s'. split; [exact Hrun|]. split; [exact Hcache|].
      split; [by vm_compute|]. split; [|exact Hev].
      unfold spec_failed_result, set_duration, ReviewParser.createErrorReviewResult.
      reflexivity.
Qed.

Lemma C10_review_exit_code_witness :
  let w := Sample.world (Some Sample.open_plan) in
  let failed := with_outcome w (RvClose (Some 1%Z) SampleReport.fenced (js "warn")) in
  exists s',
    runAutoReview failed SampleReport.rt Sample.review_config (Sample.started None)
    = (Ok (spec_parsed_result w SampleReport.rt (SampleReport.fenced ++ js "warn")), s')
    /\ get_prop_opt (spec_parsed_result w SampleReport.rt (SampleReport.fenced ++ js "warn"))
         "reviewStatus" = JStr (js "COMPLETE")
    /\ get_prop_opt (spec_parsed_result w SampleReport.rt (SampleReport.fenced ++ js "warn"))
         "reviewDurationMs" = JNum (num_of_Z 1000).
Proof.
  intros w failed.
  destruct (C10_review_exit_code w SampleReport.rt Sample.review_config
              (Sample.started None) (Some 1%Z) SampleReport.fenced (js "warn") eq_refl)
    as (_ & _ & _ & Hrun).
  destruct Hrun as (s' & Hrun & _).
  { repeat split; vm_compute; reflexivity. }
  exists s'. split; [exact Hrun|]. split; vm_compute; reflexivity.
Defined.

(** ** The exit signal *)

Section ExitSignal.

Lemma handleRalphStatus_raises sid status s :
  exitSignal status = true ->
  exitSignalReceived (handleRalphStatus sid status s) !! sid = Some true.
Proof. intros H. unfold handleRalphStatus. rewrite H. cbn. apply lookup_insert_eq. Qed.

Lemma stdout_chunks_frame rt sid chunks : forall s,
  output_frame s (fold_left (fun st chunk => onStdout rt sid chunk st) chunks s).
Proof.
  induction chunks as [|c chunks IH]; intros s; cbn [fold_left]; [apply output_frame_refl|].
  eapply output_frame_trans; [apply onStdout_frame|apply IH].
Qed.

Lemma completions_app sid s s' news :
  emitted s' = emitted s ++ news ->
  completions sid s'
  = completions sid s
    ++ flat_map (fun e => match e with
                          | OnEvent sid' (EvComplete code reason total) =>
                              if String.eqb sid' sid then [(code, reason, total)] else []
                          | _ => []
                          end) news.
Proof. intros E. unfold completions. by rewrite E, flat_map_app. Qed.

Lemma shouldRestart_exit_signal code cx planExhausted :
  cx_exitSignal cx = Some true -> shouldRestart code cx planExhausted = false.
Proof.
  intros H. unfold shouldRestart. rewrite H.
  by destruct (exit_ok code), (default false (cx_shouldContinue cx)).
Qed.

Lemma closeReason_exit_signal code cx planExhausted :
  cx_exitSignal cx = Some true ->
  closeReason code cx planExhausted = if planExhausted then PlanExhausted else ExitSignal.
Proof. intros H. unfold closeReason. by rewrite H. Qed.

(** With the exit flag raised there is no review: the completed branch
    emits the completion event, cleans up and ends the session. *)
Lemma closeFinish_exit_signal w rt sid code cx planExhausted s :
  cx_exitSignal cx = Some true ->
  closeFinish w rt sid code cx planExhausted s
  = (SessionEnded,
     emit (OnSessionEnd sid code)
       (cleanupSession sid
          (emitEvent sid
             (EvComplete code (if planExhausted then PlanExhausted else ExitSignal)
                (cx_currentIteration cx)) s))).
Proof.
  intros H. unfold closeFinish. rewrite (closeReason_exit_signal _ _ _ H), H.
  destruct (cx_config cx) as [config|]; [|done].
  by destruct (exit_ok code), (default false (autoReview config)).
Qed.

(** The exit with code 0 of a session whose exit flag is raised. *)
Lemma onClose_exit_signal w rt sid s :
  exitSignalReceived s !! sid = Some true ->
  let exhausted :=
    match sessionConfigs s !! sid with
    | Some c => checkPlanExhausted (fs w) (projectPath c)
    | None => false
    end in
  exists s',
    onClose w rt sid (Some 0%Z) s = (SessionEnded, s')
    /\ completions sid s'
       = completions sid s
         ++ [(Some 0%Z, if exhausted then PlanExhausted else ExitSignal,
              getIterationCount sid s)]
    /\ spawned s' = spawned s
    /\ processes s' !! sid = None
    /\ shouldContinueLoop s' !! sid = None.
Proof.
  intros Hexit exhausted. unfold onClose.
  assert (closeBegin sid s
          = (fst (closeBegin sid s),
             upd_outputBuffers (delete sid) (upd_processes (delete sid) s))) as Hb
    by reflexivity.
  set (cx := fst (closeBegin sid s)) in *.
  assert (cx_exitSignal cx = Some true) as Hx by exact Hexit.
  assert (cx_config cx = sessionConfigs s !! sid) as Hc by reflexivity.
  assert (cx_currentIteration cx = getIterationCount sid s) as Hi by reflexivity.
  rewrite Hb. clearbody cx. unfold closePlanCheck. rewrite Hc. subst exhausted.
  destruct (sessionConfigs s !! sid) as [config|];
    [destruct (checkPlanExhausted (fs w) (projectPath config))|];
    rewrite (shouldRestart_exit_signal _ _ _ Hx), (closeFinish_exit_signal _ _ _ _ _ _ _ Hx),
      Hi;
    (eexists; split; [reflexivity|]; split;
     [erewrite completions_app by (cbn; rewrite <- ?app_assoc; reflexivity);
      cbn; by rewrite String.eqb_refl
     |split; [reflexivity|split; cbn; apply lookup_delete_eq]]).
Qed.

End ExitSignal.

(** C1, as stated, fails on the reason of the completion event: when the
    tracking document has no unchecked item left at the exit, the event
    carries the reason "All tasks completed in IMPLEMENTATION_PLAN.md", not
    the exit signal. *)
Lemma C1_exit_signal_reason_counterexample :
  let s1 := onStdout Sample.rt "s1" (Sample.status_line ++ js " z" ++ [LF])
              (Sample.started None) in
  exitSignalReceived s1 !! "s1" = Some true
  /\ completions "s1"
       (snd (onClose (Sample.world (Some Sample.done_plan)) Sample.rt "s1" (Some 0%Z) s1))
     = [(Some 0%Z, PlanExhausted, 0%Z)].
Proof. split; vm_compute; reflexivity. Qed.

(** C1, amended: once a status block with exit-signal true was handled,
    whatever output follows, the exit with code 0 ends the session: nothing
    is spawned, the handle and the flags of the session are removed, no
    restart is pending, and one completion event is emitted, whose reason is
    the exit signal unless the plan-exhaustion check holds at that exit, in
    which case the reason is the exhausted plan. *)
Theorem C1_exit_signal_stops (w : World) (rt : Runtime) (sid : string) (status : RalphStatus)
    (chunks : list jstring) (s : ProcessManager) :
  exitSignal status = true ->
  let s1 := fold_left (fun st chunk => onStdout rt sid chunk st) chunks
              (handleRalphStatus sid status s) in
  let exhausted :=
    match sessionConfigs s1 !! sid with
    | Some c => checkPlanExhausted (fs w) (projectPath c)
    | None => false
    end in
  exists s2,
    onClose w rt sid (Some 0%Z) s1 = (SessionEnded, s2)
    /\ completions sid s2
       = completions sid s1
         ++ [(Some 0%Z, if exhausted then PlanExhausted else ExitSignal,
              getIterationCount sid s1)]
    /\ spawned s2 = spawned s1
    /\ processes s2 !! sid = None
    /\ shouldContinueLoop s2 !! sid = None.
Proof.
  intros Hexit s1 exhausted. apply onClose_exit_signal.
  apply (of_exit _ _ (stdout_chunks_frame rt sid chunks _)).
  by apply handleRalphStatus_raises.
Qed.

Lemma C1_exit_signal_stops_witness :
  let w := Sample.world (Some Sample.open_plan) in
  let status := {| taskCompleted := []; filesCreated := []; nextTask := [];
                   exitSignal := true; notes := [] |} in
  let s1 := fold_left (fun st chunk => onStdout Sample.rt "s1" chunk st) [js "bye" ++ [LF]]
              (handleRalphStatus "s1" status (Sample.started None)) in
  let exhausted :=
    match sessionConfigs s1 !! "s1" with
    | Some c => checkPlanExhausted (fs w) (projectPath c)
    | None => false
    end in
  exists s2,
    onClose w Sample.rt "s1" (Some 0%Z) s1 = (SessionEnded, s2)
    /\ completions "s1" s2
       = completions "s1" s1
         ++ [(Some 0%Z, if exhausted then PlanExhausted else ExitSignal,
              getIterationCount "s1" s1)]
    /\ spawned s2 = spawned s1
    /\ processes s2 !! "s1" = None
    /\ shouldContinueLoop s2 !! "s1" = None.
Proof.
  apply (C1_exit_signal_stops (Sample.world (Some Sample.open_plan)) Sample.rt "s1"
           {| taskCompleted := []; filesCreated := []; nextTask := [];
              exitSignal := true; notes := [] |}
           [js "bye" ++ [LF]] (Sample.started None)).
  reflexivity.
Defined.

(** ** The lines of the standard output *)

Section StdoutLines.
Variable rt : Runtime.





End StdoutLines.

(** A last line without its line feed waits in the buffer of the session and
    nothing is emitted for it; the exit of the process deletes the buffer. *)
Lemma unfinished_line_waits :
  let s := onStdout Sample.rt "s1" (js "tail") (Sample.started None) in
  outputBuffers s !! "s1" = Some (js "tail")
  /\ emitted s = emitted (Sample.started None)
  /\ outputBuffers (snd (closeBegin "s1" s)) !! "s1" = None.
Proof. repeat split; vm_compute; reflexivity. Qed.




(** ** Stopping *)

Section Stop.
Variables (w : World) (rt : Runtime).

Lemma stopLoop_total sid s : exists b, fst (stopLoop sid s) = Ok b.
Proof.
  unfold stopLoop, stopLoop_terminate.
  destruct (processes (stopLoop_mark sid s) !! sid); by eexists.
Qed.

(** The continue flag of a stopped session is not true. *)
Lemma stopLoop_flag sid sid' s :
  default false (shouldContinueLoop s !! sid) = false ->
  default false (shouldContinueLoop (snd (stopLoop sid' s)) !! sid) = false.
Proof.
  intros H. unfold stopLoop, stopLoop_terminate, stopLoop_mark. cbn [processes upd_shouldContinueLoop].
  destruct (processes s !! sid'); cbn.
  - destruct (decide (sid' = sid)) as [->|Hne]; [by rewrite lookup_insert_eq|].
    by rewrite lookup_insert_ne.
  - destruct (decide (sid' = sid)) as [->|Hne]; [by rewrite lookup_delete_eq|].
    by rewrite lookup_delete_ne, lookup_insert_ne.
Qed.

Lemma stopLoop_flag_self sid s :
  default false (shouldContinueLoop (snd (stopLoop sid s)) !! sid) = false.
Proof.
  unfold stopLoop, stopLoop_terminate, stopLoop_mark. cbn [processes upd_shouldContinueLoop].
  destruct (processes s !! sid); cbn.
  - by rewrite lookup_insert_eq.
  - by rewrite lookup_delete_eq.
Qed.

Lemma startLoop_flag sid config s :
  sessionId config <> sid ->
  shouldContinueLoop (snd (startLoop w config s)) !! sid = shouldContinueLoop s !! sid.
Proof.
  intros Hne. unfold startLoop. destruct (is_some _); [done|]. destruct (negb _); [done|].
  destruct (negb _); destruct (git_branch w (projectPath config)); cbn;
    by rewrite lookup_insert_ne.
Qed.

(** Nothing but a start of the session sets its continue flag. *)
Lemma apply_event_flag sid s e :
  event_starts sid e = false ->
  default false (shouldContinueLoop s !! sid) = false ->
  default false (shouldContinueLoop (apply_event w rt s e) !! sid) = false.
Proof.
  intros He H. destruct e as [sid' chunk|sid' chunk|sid'|sid'|sid'|sid' p|config];
    cbn [apply_event].
  - by rewrite (of_continue _ _ (onStdout_frame rt sid' chunk s)).
  - done.
  - by apply stopLoop_flag.
  - unfold pauseLoop. destruct (processes s !! sid'); [|done]. by destruct (negb _).
  - unfold resumeLoop. destruct (processes s !! sid'); [|done]. by destruct (negb _).
  - unfold onForceKill. by destruct (is_some _).
  - cbn [event_starts] in He. apply String.eqb_neq in He. by rewrite startLoop_flag.
Qed.

Lemma apply_events_flag sid events : forall s,
  forallb (fun e => negb (event_starts sid e)) events = true ->
  default false (shouldContinueLoop s !! sid) = false ->
  default false (shouldContinueLoop (fold_left (apply_event w rt) events s) !! sid) = false.
Proof.
  induction events as [|e events IH]; intros s Hall H; cbn [fold_left]; [done|].
  cbn [forallb] in Hall. apply andb_true_iff in Hall as [He Hall].
  apply IH; [done|]. apply apply_event_flag; [|done]. by destruct (event_starts sid e).
Qed.

(** With the continue flag off, the delayed restart does nothing. *)
Lemma closeRestart_stopped sid config s :
  default false (shouldContinueLoop s !! sid) = false -> closeRestart w rt sid config s = s.
Proof. intros H. unfold closeRestart. by rewrite H. Qed.

Lemma closeFinish_outcome sid code cx planExhausted s c s' :
  closeFinish w rt sid code cx planExhausted s <> (RestartPending c, s').
Proof.
  unfold closeFinish. destruct (cx_config cx) as [config|]; [|done].
  destruct (_ && _); [|done].
  by destruct (autoReviewAndContinue _ _ _ _ _) as [[[|]|e] s2].
Qed.

(** With the continue flag off, an exit leaves no restart pending. *)
Lemma onClose_stopped sid code s c s' :
  default false (shouldContinueLoop s !! sid) = false ->
  onClose w rt sid code s <> (RestartPending c, s').
Proof.
  intros H. unfold onClose.
  assert (closeBegin sid s
          = (fst (closeBegin sid s),
             upd_outputBuffers (delete sid) (upd_processes (delete sid) s))) as Hb
    by reflexivity.
  set (cx := fst (closeBegin sid s)) in *.
  assert (default false (cx_shouldContinue cx) = false) as Hx by exact H.
  rewrite Hb. clearbody cx.
  destruct (closePlanCheck w sid cx _) as [planExhausted s2].
  assert (shouldRestart code cx planExhausted = false) as ->.
  { unfold shouldRestart. rewrite Hx. by destruct (exit_ok code). }
  apply closeFinish_outcome.
Qed.

(** A second stop changes none of the maps. *)
Lemma stopLoop_twice sid s :
  same_registry (snd (stopLoop sid (snd (stopLoop sid s)))) (snd (stopLoop sid s)).
Proof.
  unfold stopLoop, stopLoop_terminate, stopLoop_mark. cbn [processes upd_shouldContinueLoop].
  destruct (processes s !! sid) as [proc|] eqn:E; cbn [snd].
  - cbn. rewrite E. unfold same_registry. cbn.
    repeat split. by rewrite insert_insert_eq.
  - cbn. rewrite lookup_delete_eq. unfold same_registry. cbn.
    repeat split; rewrite ?delete_insert_eq; by rewrite delete_delete_eq.
Qed.

End Stop.

(** C7: [stopLoop] never throws, the first time or the second, with or
    without a process; a second call changes none of the maps; its first
    step sets the continue flag to false before any signal is sent or timer
    armed; and from then on, whatever output, signals, stops or starts of
    other sessions follow, the flag is not true: the delayed restart of a
    pending iteration does nothing and an exit of the process leaves no
    restart pending. *)
Theorem C7_stop_idempotent (w : World) (rt : Runtime) (sid : string) (s : ProcessManager)
    (events : list LoopEvent) (config : LoopConfig) (code : option Z) :
  forallb (fun e => negb (event_starts sid e)) events = true ->
  let marked := stopLoop_mark sid s in
  let s1 := snd (stopLoop sid s) in
  let s2 := snd (stopLoop sid s1) in
  let later := fold_left (apply_event w rt) events s1 in
  (exists b1 b2, fst (stopLoop sid s) = Ok b1 /\ fst (stopLoop sid s1) = Ok b2)
  /\ (processes s !! sid = None -> stopLoop sid s = (Ok false, cleanupSession sid marked))
  /\ stopLoop sid s = stopLoop_terminate sid marked
  /\ shouldContinueLoop marked !! sid = Some false
  /\ signals marked = signals s
  /\ timers marked = timers s
  /\ same_registry s2 s1
  /\ default false (shouldContinueLoop later !! sid) = false
  /\ closeRestart w rt sid config later = later
  /\ (forall c s', onClose w rt sid code later <> (RestartPending c, s')).
Proof.
  intros Hevents marked s1 s2 later.
  assert (default false (shouldContinueLoop later !! sid) = false) as Hlater.
  { apply apply_events_flag; [done|]. apply stopLoop_flag_self. }
  split.
  { destruct (stopLoop_total sid s) as [b1 E1], (stopLoop_total sid s1) as [b2 E2].
    by exists b1, b2. }
  split.
  { intros Hnone. unfold stopLoop, stopLoop_terminate. fold marked.
    change (processes marked) with (processes s). by rewrite Hnone. }
  split; [done|]. split; [apply lookup_insert_eq|]. split; [done|]. split; [done|].
  split; [apply stopLoop_twice|]. split; [done|].
  split; [by apply closeRestart_stopped|].
  intros c s'. by apply onClose_stopped.
Qed.

Lemma C7_stop_idempotent_witness :
  let w := Sample.world (Some Sample.open_plan) in
  let rt := Sample.rt in
  let s := Sample.started None in
  let events := [Stdout "s1" (js "late" ++ [LF]); Stop "s1"; Pause "s1"] in
  let marked := stopLoop_mark "s1" s in
  let s1 := snd (stopLoop "s1" s) in
  let s2 := snd (stopLoop "s1" s1) in
  let later := fold_left (apply_event w rt) events s1 in
  (exists b1 b2, fst (stopLoop "s1" s) = Ok b1 /\ fst (stopLoop "s1" s1) = Ok b2)
  /\ (processes s !! "s1" = None -> stopLoop "s1" s = (Ok false, cleanupSession "s1" marked))
  /\ stopLoop "s1" s = stopLoop_terminate "s1" marked
  /\ shouldContinueLoop marked !! "s1" = Some false
  /\ signals marked = signals s
  /\ timers marked = timers s
  /\ same_registry s2 s1
  /\ default false (shouldContinueLoop later !! "s1") = false
  /\ closeRestart w rt "s1" (Sample.config None) later = later
  /\ (forall c s', onClose w rt "s1" (Some 0%Z) later <> (RestartPending c, s')).
Proof.
  apply (C7_stop_idempotent (Sample.world (Some Sample.open_plan)) Sample.rt "s1"
           (Sample.started None)
           [Stdout "s1" (js "late" ++ [LF]); Stop "s1"; Pause "s1"]
           (Sample.config None) (Some 0%Z)).
  reflexivity.
Defined.


(** * Further properties of the code *)

(** ** The review parser *)

Section ParserFacts.
Variable rt : Runtime.

Lemma strip_prefix_app p : forall s s', strip_prefix p s = Some s' -> s = p ++ s'.
Proof.
  induction p as [|a p IH]; intros s s'; cbn [strip_prefix]; [by intros [= ->]|].
  destruct s as [|b s]; [done|]. destruct (N.eqb_spec a b) as [->|]; [|done].
  intros E. by rewrite (IH _ _ E).
Qed.

Lemma strip_prefix_ci_suffix p : forall s s', strip_prefix_ci p s = Some s' -> suffix s' s.
Proof.
  induction p as [|a p IH]; intros s s'; cbn [strip_prefix_ci]; [by intros [= ->]|].
  destruct s as [|b s]; [done|]. destruct (_ && _); [|done].
  intros E. apply suffix_cons_r. by apply IH.
Qed.

(** A text that includes another holds every code unit of it. *)
Lemma includes_elem s : forall lit x,
  includes s lit = true -> x ∈ lit -> x ∈ s.
Proof.
  induction s as [|y s IH]; intros lit x; cbn [includes].
  - destruct (strip_prefix lit []) as [s'|] eqn:E; [|done].
    apply strip_prefix_app in E. symmetry in E. apply app_eq_nil in E as [-> _].
    by intros _ ?%elem_of_nil.
  - destruct (strip_prefix lit (y :: s)) as [s'|] eqn:E.
    + apply strip_prefix_app in E. rewrite E. intros _ Hx. apply elem_of_app. by left.
    + intros H Hx. right. by apply (IH lit).
Qed.

Lemma plain_text_elem s x :
  plain_text s = true -> x ∈ s ->
  (x =? 96) = false /\ (x =? 123) = false /\ ReviewParser.colon_or_eq x = false.
Proof.
  unfold plain_text. rewrite forallb_forall. intros H Hx%list_elem_of_In.
  specialize (H _ Hx). apply negb_true_iff in H.
  apply orb_false_iff in H as [[H1 H2]%orb_false_iff H3]. done.
Qed.

Lemma plain_text_excludes s lit x :
  plain_text s = true -> x ∈ lit ->
  ((x =? 96) || (x =? 123) || ReviewParser.colon_or_eq x) = true ->
  includes s lit = false.
Proof.
  intros Hs Hx Hc. destruct (includes s lit) eqn:E; [|done].
  destruct (plain_text_elem s x Hs (includes_elem _ _ _ E Hx)) as (H1 & H2 & H3).
  by rewrite H1, H2, H3 in Hc.
Qed.

(** Every success of the matcher hands a suffix of the input to the
    continuation. *)
Lemma star_greedy_suffix (p : cu -> bool) (k : cont) s : forall pv c res,
  star_greedy p k pv s c = Some res ->
  exists pv' s', k pv' s' c = Some res /\ suffix s' s.
Proof.
  induction s as [|x s IH]; intros pv c res; cbn [star_greedy]; [by eauto|].
  destruct (p x); [|by eauto].
  destruct (star_greedy p k (Some x) s c) as [r|] eqn:E; [|by eauto].
  intros [= <-]. destruct (IH _ _ _ E) as (pv' & s' & H & Hs).
  exists pv', s'. split; [done|]. by apply suffix_cons_r.
Qed.

Lemma star_lazy_suffix (p : cu -> bool) (k : cont) s : forall pv c res,
  star_lazy p k pv s c = Some res ->
  exists pv' s', k pv' s' c = Some res /\ suffix s' s.
Proof.
  induction s as [|x s IH]; intros pv c res; cbn [star_lazy].
  - destruct (k pv [] c) as [r|] eqn:E; [|done]. intros [= <-]. by eauto.
  - destruct (k pv (x :: s) c) as [r|] eqn:E; [intros [= <-]; by eauto|].
    destruct (p x); [|done]. intros H. destruct (IH _ _ _ H) as (pv' & s' & H' & Hs).
    exists pv', s'. split; [done|]. by apply suffix_cons_r.
Qed.

Lemma rmatch_suffix r : forall pv s c k res,
  rmatch r pv s c k = Some res ->
  exists pv' s' c', k pv' s' c' = Some res /\ suffix s' s.
Proof.
  induction r as [|l|l|p|r1 IH1 r2 IH2|r1 IH1 r2 IH2|p|p|i r1 IH1|r1 IH1| |];
    intros pv s c k res; cbn [rmatch].
  - by eauto.
  - destruct (strip_prefix l s) as [s'|] eqn:E; [|done]. intros H.
    exists (last_cu l pv), s', c. split; [done|].
    apply strip_prefix_app in E. rewrite E. by apply suffix_app_r.
  - destruct (strip_prefix_ci l s) as [s'|] eqn:E; [|done]. intros H.
    eexists _, s', c. split; [done|]. by apply (strip_prefix_ci_suffix l).
  - destruct s as [|x s]; [done|]. destruct (p x); [|done]. intros H.
    exists (Some x), s, c. split; [done|]. by apply suffix_cons_r.
  - intros H. destruct (IH1 _ _ _ _ _ H) as (pv1 & s1 & c1 & H1 & Hs1).
    destruct (IH2 _ _ _ _ _ H1) as (pv2 & s2 & c2 & H2 & Hs2).
    exists pv2, s2, c2. split; [done|]. by etrans.
  - destruct (rmatch r1 pv s c k) as [x|] eqn:E.
    + intros [= <-]. by apply IH1 in E.
    + apply IH2.
  - intros H. destruct (star_greedy_suffix _ _ _ _ _ _ H) as (pv' & s' & H' & Hs). by eauto.
  - intros H. destruct (star_lazy_suffix _ _ _ _ _ _ H) as (pv' & s' & H' & Hs). by eauto.
  - intros H. destruct (IH1 _ _ _ _ _ H) as (pv1 & s1 & c1 & H1 & Hs1). by eauto.
  - destruct (rmatch r1 pv s c (fun _ s' c' => Some (s', c'))) as [[s1 c1]|]; [|done].
    by eauto.
  - destruct (at_line_start pv); [by eauto|done].
  - destruct s; [by eauto|done].
Qed.

Lemma search_from_suffix r s : forall pv idx m,
  search_from r pv s idx = Some m ->
  exists pv' t res, rmatch r pv' t [] accept = Some res /\ suffix t s.
Proof.
  induction s as [|x s IH]; intros pv idx m; cbn [search_from].
  - destruct (rmatch r pv [] [] accept) as [[t' c]|] eqn:E; [|done]. by eauto.
  - destruct (rmatch r pv (x :: s) [] accept) as [[t' c]|] eqn:E; [by eauto|].
    intros H. destruct (IH _ _ _ H) as (pv' & t & res & H' & Hs).
    exists pv', t, res. split; [done|]. by apply suffix_cons_r.
Qed.

(** An expression made of a first part, white space or quotes, and then a
    colon or an equals sign finds nothing in a plain text. *)
Lemma assignment_needs_colon (r0 r1 r2 rest : re) s :
  plain_text s = true ->
  str_match (RSeq r0 (RSeq r1 (RSeq r2 (RSeq (RSet ReviewParser.colon_or_eq) rest)))) s = None.
Proof.
  intros Hs. unfold str_match.
  destruct (search_from _ None s 0) as [m|] eqn:E; [|done]. exfalso.
  apply search_from_suffix in E as (pv & t & res & H & Ht).
  do 3 (rewrite rmatch_seq_eq in H; apply rmatch_suffix in H as (? & ? & ? & H & ?)).
  rewrite rmatch_seq_eq in H. cbn [rmatch] in H.
  match type of H with match ?u with [] => _ | _ => _ end = _ => destruct u as [|y u'] eqn:Eu end;
    [done|].
  destruct (ReviewParser.colon_or_eq y) eqn:Ey; [|done].
  assert (y ∈ s) as Hy.
  { assert (suffix (y :: u') s) as [pre ->] by (repeat (etrans; [eassumption|]); done).
    apply elem_of_app. right. by left. }
  destruct (plain_text_elem s y Hs Hy) as (_ & _ & Hc). congruence.
Qed.

Lemma plain_text_no_partial s :
  plain_text s = true -> ReviewParser.extractPartialReview rt s = None.
Proof.
  intros Hs. unfold ReviewParser.extractPartialReview.
  unfold ReviewParser.re_partial_status, ReviewParser.re_partial_score. cbn [rseq].
  by rewrite !assignment_needs_colon.
Qed.

End ParserFacts.

(** X1: the parser throws only for an output that it takes for a stream
    of events, and then what it throws is the TypeError of the join of the
    extracted texts, which is outside every [try]; for any other output it
    returns (a result or null), the exceptions of its tiers, such as the one
    the repair throws on [null], being caught.  It does throw on a stream:
    an event whose text is an object with a property named toString. *)
Theorem X1_parser_throws_only_on_streams (rt : Runtime) (now : Z) (output : jstring) :
  (if ReviewParser.is_stream_json output
   then forall e, ReviewParser.parseReviewOutput rt now output = Throw e ->
                  e = TypeError
                  /\ ReviewParser.extractTextFromStreamJson rt output = Throw TypeError
   else exists r, ReviewParser.parseReviewOutput rt now output = Ok r)
  /\ ReviewParser.fixReviewResult rt JNull = Throw TypeError
  /\ ReviewParser.parseReviewOutput SampleStream.rt now SampleStream.event_line
     = Throw TypeError.
Proof.
  split; [|split; [reflexivity|by vm_compute]].
  destruct (ReviewParser.is_stream_json output) eqn:Es.
  - intros e H. apply parseReviewOutput_throws in H as [_ H].
    assert (e = TypeError) as ->; [|done].
    unfold ReviewParser.extractTextFromStreamJson in H.
    by apply join_values_throws in H.
  - unfold ReviewParser.parseReviewOutput. rewrite Es. cbn [bind].
    apply parse_text_total.
Qed.

Lemma X1_parser_throws_only_on_streams_witness :
  (exists r, ReviewParser.parseReviewOutput Sample.rt 7 Sample.truncated_report = Ok r)
  /\ ReviewParser.extractTextFromStreamJson SampleStream.rt SampleStream.event_line
     = Throw TypeError.
Proof.
  split.
  - apply (X1_parser_throws_only_on_streams Sample.rt 7 Sample.truncated_report).
  - destruct (X1_parser_throws_only_on_streams SampleStream.rt 7 SampleStream.event_line)
      as (H & _ & Ht).
    assert (ReviewParser.is_stream_json SampleStream.event_line = true) as Es
      by (vm_compute; reflexivity).
    rewrite Es in H. exact (proj2 (H TypeError Ht)).
Defined.

(** X2: the review status of every result the parser returns is one of
    COMPLETE, PARTIAL, INCOMPLETE, ERROR and PENDING. *)
Theorem X2_parser_status_in_enum (rt : Runtime) (now : Z) (output : jstring) (r : jsval) :
  ReviewParser.parseReviewOutput rt now output = Ok (Some r) ->
  str_in (get_prop_opt r "reviewStatus")
    ["COMPLETE"; "PARTIAL"; "INCOMPLETE"; "ERROR"; "PENDING"] = true.
Proof. apply parseReviewOutput_status. Qed.

Lemma X2_parser_status_in_enum_witness :
  str_in (get_prop_opt
            (ReviewParser.normalizeReviewResult 7
               (set_field (js "rawOutput") (JStr Sample.truncated_report)
                  (set_field (js "timestamp") (JNum (num_of_Z 7))
                     (default [] (ReviewParser.extractPartialReview Sample.rt
                                    Sample.truncated_report)))))
            "reviewStatus")
    ["COMPLETE"; "PARTIAL"; "INCOMPLETE"; "ERROR"; "PENDING"] = true.
Proof.
  apply (X2_parser_status_in_enum Sample.rt 7 Sample.truncated_report).
  vm_compute. reflexivity.
Defined.

(** X3: an output without backquote, opening brace, colon and equals sign
    holds no report: the parser returns null. *)
Theorem X3_plain_text_gives_null (rt : Runtime) (now : Z) (output : jstring) :
  plain_text output = true ->
  ReviewParser.parseReviewOutput rt now output = Ok None.
Proof.
  intros Hp. unfold ReviewParser.parseReviewOutput.
  assert (ReviewParser.is_stream_json output = false) as ->.
  { unfold ReviewParser.is_stream_json.
    rewrite !(plain_text_excludes output _ 58 Hp); try done;
      apply list_elem_of_In; vm_compute; tauto. }
  cbn [bind]. unfold ReviewParser.parse_text.
  unfold str_match, ReviewParser.re_json_block, ReviewParser.re_raw_json. cbn [rseq].
  rewrite !search_needs_literal.
  - by rewrite plain_text_no_partial.
  - apply (plain_text_excludes output _ 123 Hp); [|done]. vm_compute. left.
  - apply (plain_text_excludes output _ 96 Hp); [|done]. vm_compute. left.
Qed.

Lemma X3_plain_text_gives_null_witness :
  ReviewParser.parseReviewOutput Sample.rt 7 (js "All good, nothing to report.") = Ok None.
Proof.
  apply (X3_plain_text_gives_null Sample.rt 7 (js "All good, nothing to report.")).
  reflexivity.
Defined.

(** X4: when the first fenced json block of an output that is not a stream
    of events parses to an object that passes the validation, the parser
    returns that object with [timestamp] and [rawOutput] set and every other
    property as it was parsed. *)
Theorem X4_valid_block_kept (rt : Runtime) (now : Z) (output : jstring) (m : rmatch_result)
    (parsed : jsval) :
  ReviewParser.is_stream_json output = false ->
  str_match ReviewParser.re_json_block output = Some m ->
  JSON_parse rt (trim (group 1 m)) = Some parsed ->
  ReviewParser.validateReviewResultWithDetails rt parsed = Ok [] ->
  exists fields,
    parsed = JObj fields
    /\ ReviewParser.parseReviewOutput rt now output
       = Ok (Some (accepted_report now output fields))
    /\ get_prop_opt (accepted_report now output fields) "timestamp" = JNum (num_of_Z now)
    /\ get_prop_opt (accepted_report now output fields) "rawOutput" = JStr output
    /\ forall key, key <> js "timestamp" -> key <> js "rawOutput" ->
         lookup_field key (own_fields (accepted_report now output fields))
         = lookup_field key fields.
Proof.
  intros Hs Hm Hp Hv.
  assert (exists fields, parsed = JObj fields) as [fields ->].
  { pose proof Hv as Hv'. unfold ReviewParser.validateReviewResultWithDetails in Hv'.
    destruct (negb (truthy parsed) || _) eqn:E; [done|].
    destruct parsed as [| | | | |items|fields]; try done. by eexists. }
  exists fields. split; [done|]. split.
  { unfold ReviewParser.parseReviewOutput. rewrite Hs. cbn [bind].
    unfold ReviewParser.parse_text. rewrite Hm.
    unfold ReviewParser.parse_candidate. by rewrite Hp, Hv. }
  assert (forall key v l, lookup_field key (set_field key v l) = v) as Hset.
  { intros key v l. induction l as [|[k v0] l IH]; cbn [set_field lookup_field].
    - assert (jeqb key key = true) as ->; [|done].
      clear. induction key as [|x key IH]; [done|]. cbn. by rewrite N.eqb_refl.
    - destruct (jeqb k key) eqn:E; cbn [lookup_field]; by rewrite E. }
  unfold accepted_report. cbn [get_prop_opt get_prop try_catch own_fields].
  split; [by rewrite lookup_set_field_ne, Hset|]. split; [by rewrite Hset|].
  intros key H1 H2. by rewrite !lookup_set_field_ne.
Qed.

Lemma X4_valid_block_kept_witness :
  exists fields,
    JObj SampleReport.report_fields = JObj fields
    /\ ReviewParser.parseReviewOutput SampleReport.rt 7 SampleReport.fenced
       = Ok (Some (accepted_report 7 SampleReport.fenced fields))
    /\ get_prop_opt (accepted_report 7 SampleReport.fenced fields) "timestamp"
       = JNum (num_of_Z 7)
    /\ get_prop_opt (accepted_report 7 SampleReport.fenced fields) "rawOutput"
       = JStr SampleReport.fenced
    /\ forall key, key <> js "timestamp" -> key <> js "rawOutput" ->
         lookup_field key (own_fields (accepted_report 7 SampleReport.fenced fields))
         = lookup_field key fields.
Proof.
  apply (X4_valid_block_kept SampleReport.rt 7 SampleReport.fenced
           {| m_index := 20; m_text := js "```json" ++ [LF] ++ SampleReport.report_text
                                        ++ [LF] ++ js "```";
              m_caps := [(1%nat, SampleReport.report_text ++ [LF])] |}
           (JObj SampleReport.report_fields)); vm_compute; reflexivity.
Defined.



(** X6: the exported type guard is at least as strict as the validation
    the parser runs: a value it accepts has no validation error. *)
Theorem X6_guard_implies_validation (rt : Runtime) (result : jsval) :
  validateReviewResult result = true ->
  ReviewParser.validateReviewResultWithDetails rt result = Ok [].
Proof.
  unfold validateReviewResult, ReviewParser.validateReviewResultWithDetails.
  destruct (negb (truthy result) || _); [done|].
  destruct (negb (str_in _ _)); [done|]. cbn [bind app].
  destruct (get_prop_opt result "overallScore") as [| | |n| | |]; try done.
  destruct (num_ltb n ReviewParser.zero || num_ltb ReviewParser.hundred n); [done|].
  by destruct (get_prop_opt result "requirements").
Qed.

Lemma X6_guard_implies_validation_witness :
  ReviewParser.validateReviewResultWithDetails Sample.rt (JObj SampleReport.report_fields)
  = Ok [].
Proof.
  apply (X6_guard_implies_validation Sample.rt (JObj SampleReport.report_fields)).
  reflexivity.
Defined.

(** X7: every error result, whatever its message and raw output, passes the
    exported type guard, with status ERROR and score 0. *)
Theorem X7_error_result_well_formed (now : Z) (error : jstring) (rawOutput : jsval) :
  validateReviewResult (ReviewParser.createErrorReviewResult now error rawOutput) = true
  /\ get_prop_opt (ReviewParser.createErrorReviewResult now error rawOutput) "reviewStatus"
     = JStr (js "ERROR")
  /\ get_prop_opt (ReviewParser.createErrorReviewResult now error rawOutput) "overallScore"
     = JNum (num_of_Z 0)
  /\ get_prop_opt (ReviewParser.createErrorReviewResult now error rawOutput) "summary"
     = JStr (js "Review failed: " ++ error).
Proof. repeat split; vm_compute; reflexivity. Qed.

(** ** The status block, further *)

Section StatusFacts.

Lemma strip_prefix_self p : forall t, strip_prefix p (p ++ t) = Some t.
Proof.
  induction p as [|a p IH]; intros t; cbn; [done|]. by rewrite N.eqb_refl.
Qed.

Lemma includes_decompose s : forall lit,
  includes s lit = true <-> exists pre post, s = pre ++ lit ++ post.
Proof.
  induction s as [|y s IH]; intros lit.
  - cbn [includes]. destruct (strip_prefix lit []) as [s'|] eqn:E.
    + apply strip_prefix_app in E. split; [|done]. intros _. by exists [], s'.
    + split; [done|]. intros (pre & post & H). symmetry in H.
      apply app_eq_nil in H as [-> [-> ->]%app_eq_nil]. done.
  - cbn [includes]. destruct (strip_prefix lit (y :: s)) as [s'|] eqn:E.
    + apply strip_prefix_app in E. split; [|done]. intros _. by exists [], s'.
    + rewrite IH. split.
      * intros (pre & post & ->). by exists (y :: pre), post.
      * intros (pre & post & H). destruct pre as [|z pre].
        -- exfalso. cbn [app] in H. rewrite H in E.
           by rewrite strip_prefix_self in E.
        -- injection H as -> ->. by exists pre, post.
Qed.

Lemma includes_infix_of s lit : includes s lit = true <-> infix_of lit s.
Proof. apply includes_decompose. Qed.

Lemma infix_of_trans a b c : infix_of a b -> infix_of b c -> infix_of a c.
Proof.
  intros (p1 & q1 & ->) (p2 & q2 & ->). exists (p2 ++ p1), (q1 ++ q2).
  by rewrite <- !app_assoc.
Qed.

Lemma infix_of_nil s : infix_of [] s.
Proof. by exists [], s. Qed.

(** What a match consumes between two positions of a text is a piece of
    the text. *)
Lemma consumed_infix text s s' :
  suffix s text -> suffix s' s -> infix_of (consumed s s') text.
Proof.
  intros [p0 ->] [p1 ->]. exists p0, s'. unfold consumed. rewrite length_app.
  replace (length p1 + length s' - length s')%nat with (length p1) by lia.
  by rewrite take_app_length.
Qed.

(** Every capture of a match over a text is a piece of the text. *)
Lemma rmatch_caps text r : forall pv s c k res,
  suffix s text -> Forall (fun p => infix_of p.2 text) c ->
  rmatch r pv s c k = Some res ->
  exists pv' s' c', k pv' s' c' = Some res /\ suffix s' s
                    /\ Forall (fun p => infix_of p.2 text) c'.
Proof.
  induction r as [|l|l|p|r1 IH1 r2 IH2|r1 IH1 r2 IH2|p|p|i r1 IH1|r1 IH1| |];
    intros pv s c k res Hs Hc; cbn [rmatch].
  - by eauto 7.
  - destruct (strip_prefix l s) as [s'|] eqn:E; [|done]. intros H.
    exists (last_cu l pv), s', c. split; [done|]. split; [|done].
    apply strip_prefix_app in E. rewrite E. by apply suffix_app_r.
  - destruct (strip_prefix_ci l s) as [s'|] eqn:E; [|done]. intros H.
    eexists _, s', c. split; [done|]. split; [|done]. by apply (strip_prefix_ci_suffix l).
  - destruct s as [|x s]; [done|]. destruct (p x); [|done]. intros H.
    exists (Some x), s, c. split; [done|]. split; [|done]. by apply suffix_cons_r.
  - intros H. destruct (IH1 _ _ _ _ _ Hs Hc H) as (pv1 & s1 & c1 & H1 & Hs1 & Hc1).
    assert (suffix s1 text) as Hs1' by (by etrans).
    destruct (IH2 _ _ _ _ _ Hs1' Hc1 H1) as (pv2 & s2 & c2 & H2 & Hs2 & Hc2).
    exists pv2, s2, c2. split; [done|]. split; [by etrans|done].
  - destruct (rmatch r1 pv s c k) as [x|] eqn:E.
    + intros [= <-]. by apply (IH1 _ _ _ _ _ Hs Hc E).
    + by apply IH2.
  - intros H. destruct (star_greedy_suffix _ _ _ _ _ _ H) as (pv' & s' & H' & Hs'). by eauto 7.
  - intros H. destruct (star_lazy_suffix _ _ _ _ _ _ H) as (pv' & s' & H' & Hs'). by eauto 7.
  - intros H. destruct (IH1 _ _ _ _ _ Hs Hc H) as (pv1 & s1 & c1 & H1 & Hs1 & Hc1).
    exists pv1, s1, ((i, consumed s s1) :: c1). split; [done|]. split; [done|].
    constructor; [|done]. by apply consumed_infix.
  - destruct (rmatch r1 pv s c (fun _ s' c' => Some (s', c'))) as [[s1 c1]|] eqn:E; [|done].
    destruct (IH1 _ _ _ _ _ Hs Hc E) as (pv1 & s2 & c2 & [= <- <-] & Hs2 & Hc2).
    intros H. by eauto 7.
  - destruct (at_line_start pv); [by eauto 7|done].
  - destruct s; [by eauto 7|done].
Qed.

Lemma search_from_caps text r s : forall pv idx m,
  suffix s text -> search_from r pv s idx = Some m ->
  Forall (fun p => infix_of p.2 text) (m_caps m).
Proof.
  induction s as [|x s IH]; intros pv idx m Hs; cbn [search_from].
  - destruct (rmatch r pv [] [] accept) as [[t' c]|] eqn:E; [|done]. intros [= <-].
    apply (rmatch_caps text) in E as (? & ? & ? & [= <- <-] & _ & Hc); done.
  - destruct (rmatch r pv (x :: s) [] accept) as [[t' c]|] eqn:E.
    + intros [= <-].
      apply (rmatch_caps text) in E as (? & ? & ? & [= <- <-] & _ & Hc); done.
    + apply IH. by eapply suffix_cons_l.
Qed.

(** [m[i]] is a piece of the text that was searched. *)
Lemma group_infix r text m i : str_match r text = Some m -> infix_of (group i m) text.
Proof.
  intros H. apply (search_from_caps text) in H; [|done].
  unfold group. induction H as [|[j v] c Hv Hc IH]; cbn [cap_lookup].
  - apply infix_of_nil.
  - destruct (i =? j)%nat; [exact Hv|exact IH].
Qed.

(** One or more code units of a class, as the whole of a group: the group
    holds code units of the class only, and at least one. *)
Lemma star_greedy_class (p : cu -> bool) (k : cont) s : forall pv c res,
  star_greedy p k pv s c = Some res ->
  exists pv' x s', s = x ++ s' /\ forallb p x = true /\ k pv' s' c = Some res.
Proof.
  induction s as [|y s IH]; intros pv c res; cbn [star_greedy].
  - intros H. by exists pv, [], [].
  - destruct (p y) eqn:Hy; [|intros H; by exists pv, [], (y :: s)].
    destruct (star_greedy p k (Some y) s c) as [r|] eqn:E;
      [|intros H; by exists pv, [], (y :: s)].
    intros [= <-]. destruct (IH _ _ _ E) as (pv' & x & s' & -> & Hx & H).
    exists pv', (y :: x), s'. split; [done|]. split; [|done]. cbn. by rewrite Hy.
Qed.

Lemma group_of_class (p : cu -> bool) i r2 pv s c res :
  groupless r2 = true ->
  rmatch (RSeq (RGroup i (RPlusG p)) r2) pv s c accept = Some res ->
  exists v, snd res = (i, v) :: c /\ v <> [] /\ forallb p v = true.
Proof.
  intros Hg. cbn [rmatch RPlusG]. destruct s as [|y s]; [done|].
  destruct (p y) eqn:Hy; [|done]. intros H.
  apply star_greedy_class in H as (pv' & x & s' & -> & Hx & H).
  apply rmatch_groupless in H as (pv2 & s2 & [= <-]); [|done].
  exists (y :: x). cbn [snd]. split; [|split; [done|]].
  - f_equal. f_equal. unfold consumed. cbn [length]. rewrite length_app.
    replace (S (length x + length s') - length s')%nat with (S (length x)) by lia.
    cbn [take]. by rewrite take_app_length.
  - cbn. by rewrite Hy.
Qed.

(** The value of a quoted field is not empty and holds no double quote. *)
Lemma quoted_field_value key text m :
  str_match (re_quoted_field key) text = Some m ->
  group 1 m <> [] /\ forallb not_dquote (group 1 m) = true.
Proof.
  intros H. apply search_from_match in H as (pv & t & t' & H).
  unfold re_quoted_field in H. cbn [rseq] in H.
  do 3 (rewrite rmatch_seq_eq in H;
        apply rmatch_groupless in H as (? & ? & H); [|done]).
  apply group_of_class in H as (v & Hv & Hne & Hp); [|done].
  cbn [snd] in Hv. unfold group. rewrite Hv. cbn. done.
Qed.

Lemma remove_all_spec c s x : x ∈ remove_all c s -> x <> c.
Proof.
  unfold remove_all. intros [_ H]%list_elem_of_In%filter_In.
  by destruct (N.eqb_spec x c).
Qed.

End StatusFacts.

(** X8: a status is read only from a text that holds the marker
    RALPH_STATUS:, and its exit signal is true only when the text also
    holds EXIT_SIGNAL: and the word true. *)
Theorem X8_exit_signal_needs_text (text : jstring) (st : RalphStatus) :
  parseRalphStatus text = Some st ->
  includes text (js "RALPH_STATUS:") = true
  /\ (exitSignal st = true ->
      includes text (js "EXIT_SIGNAL:") = true /\ includes text (js "true") = true).
Proof.
  intros H. split.
  { destruct (includes text (js "RALPH_STATUS:")) eqn:E; [done|].
    by rewrite parseRalphStatus_without_marker in H. }
  unfold parseRalphStatus in H.
  destruct (str_match re_status_block text) as [sm|] eqn:Em; [|done].
  injection H as <-. cbn [exitSignal].
  pose proof (group_infix _ _ _ 1%nat Em) as Hblock.
  destruct (str_match re_exit_signal (group 1 sm)) as [m|] eqn:E; [|done].
  intros Ht. split.
  - destruct (includes text (js "EXIT_SIGNAL:")) eqn:Ei; [done|].
    assert (includes (group 1 sm) (js "EXIT_SIGNAL:") = false) as Hb.
    { destruct (includes (group 1 sm) (js "EXIT_SIGNAL:")) eqn:Eb; [|done].
      apply includes_infix_of in Eb.
      pose proof (infix_of_trans _ _ _ Eb Hblock) as Hi.
      apply includes_infix_of in Hi. congruence. }
    unfold str_match, re_exit_signal in E. cbn [rseq] in E.
    by rewrite search_needs_literal in E.
  - apply includes_infix_of. apply jeqb_eq in Ht.
    assert (infix_of (group 1 m) text) as Hi.
    { eapply infix_of_trans; [|exact Hblock]. by eapply group_infix. }
    by rewrite Ht in Hi.
Qed.

Lemma X8_exit_signal_needs_text_witness :
  let text := js "RALPH_STATUS: EXIT_SIGNAL: true" ++ [LF; LF] in
  exists st, parseRalphStatus text = Some st /\ exitSignal st = true
             /\ includes text (js "EXIT_SIGNAL:") = true.
Proof.
  eexists. split; [vm_compute; reflexivity|]. split; [reflexivity|].
  eapply (X8_exit_signal_needs_text _ _); [vm_compute; reflexivity|reflexivity].
Defined.

(** X9: in a status that was read, every entry of filesCreated is non-empty
    and holds no double quote, and each of taskCompleted, nextTask and notes
    holds no double quote. *)
Theorem X9_status_fields_unquoted (text : jstring) (st : RalphStatus) :
  parseRalphStatus text = Some st ->
  (forall f, f ∈ filesCreated st -> f <> [] /\ 34 ∉ f)
  /\ (34 ∉ taskCompleted st) /\ (34 ∉ nextTask st) /\ (34 ∉ notes st).
Proof.
  assert (forall key block,
            34 ∉ match str_match (re_quoted_field key) block with
                 | Some m => group 1 m
                 | None => []
                 end) as Hq.
  { intros key block. destruct (str_match _ block) as [m|] eqn:E; [|by apply not_elem_of_nil].
    apply quoted_field_value in E as [_ Hp]. intros Hin.
    rewrite forallb_forall in Hp. apply list_elem_of_In in Hin.
    by specialize (Hp _ Hin). }
  unfold parseRalphStatus. destruct (str_match re_status_block text) as [sm|]; [|done].
  intros [= <-]. cbn [filesCreated taskCompleted nextTask notes].
  split; [|by auto]. intros f Hf.
  destruct (str_match re_files_created (group 1 sm)) as [m|]; [|by apply elem_of_nil in Hf].
  apply list_elem_of_In, filter_In in Hf as [Hf Hne].
  split; [by destruct f|].
  apply in_map_iff in Hf as (g & <- & _). intros Hin. by apply remove_all_spec in Hin.
Qed.

Lemma X9_status_fields_unquoted_witness :
  let text := js "RALPH_STATUS: FILES_CREATED: [a.ts, , b.ts]" ++ [LF; LF] in
  exists st, parseRalphStatus text = Some st
             /\ filesCreated st = [js "a.ts"; js "b.ts"]
             /\ forall f, f ∈ filesCreated st -> f <> [] /\ 34 ∉ f.
Proof.
  intros text. eexists. split; [vm_compute; reflexivity|]. split; [reflexivity|].
  refine (proj1 (X9_status_fields_unquoted text _ _)). vm_compute; reflexivity.
Defined.

(** ** Starting a session, further *)

(** What a start that succeeds leaves behind. *)
Lemma startLoop_registers (w : World) (config : LoopConfig) (s s' : ProcessManager) :
  startLoop w config s = (Ok tt, s') ->
  let sid := sessionId config in
  isRunning sid s = false
  /\ existsSync (fs w) (join (fs w) (projectPath config) (promptFile config)) = true
  /\ (exists proc,
        spawned s' = spawned s ++ [proc]
        /\ processes s' !! sid = Some proc
        /\ cwd proc = projectPath config
        /\ env_RALPH_SESSION_ID proc = Some sid
        /\ env_RALPH_MODE proc = mode_text (mode config)
        /\ shell_args proc = [if isWindows w then "/c" else "-c"; loopCommand w config])
  /\ sessionConfigs s' !! sid = Some config
  /\ outputBuffers s' !! sid = Some []
  /\ getIterationCount sid s' = getIterationCount sid s
  /\ shouldContinueLoop s' !! sid = Some true
  /\ exitSignalReceived s' !! sid = Some false
  /\ signals s' = signals s /\ timers s' = timers s.
Proof.
  unfold startLoop, isRunning, getIterationCount.
  destruct (processes s !! sessionId config) eqn:E; cbn [is_some]; [done|].
  destruct (existsSync (fs w) (join (fs w) (projectPath config) (promptFile config)));
    cbn [negb]; [|done].
  destruct (existsSync _ _); cbn [negb];
    destruct (git_branch w (projectPath config)); cbn; intros [= <-]; cbn;
    rewrite !lookup_insert_eq;
    (split; [done|]); (split; [done|]);
    (split; [eexists; repeat split; reflexivity|]);
    repeat split; by destruct (iterationCounts s !! sessionId config).
Qed.

(** X10: a start that succeeds found no process for the session and the
    prompt file in place; it spawns exactly one process, in the project
    directory and tagged with the session id, and registers it with the
    configuration, an empty line buffer, the continue flag set and the exit
    flag cleared; the iteration count of the session is kept. *)
Theorem X10_start_registers (w : World) (config : LoopConfig) (s s' : ProcessManager) :
  startLoop w config s = (Ok tt, s') ->
  let sid := sessionId config in
  isRunning sid s = false
  /\ existsSync (fs w) (join (fs w) (projectPath config) (promptFile config)) = true
  /\ (exists proc,
        spawned s' = spawned s ++ [proc]
        /\ processes s' !! sid = Some proc
        /\ cwd proc = projectPath config
        /\ env_RALPH_SESSION_ID proc = Some sid
        /\ env_RALPH_MODE proc = mode_text (mode config)
        /\ shell_args proc = [if isWindows w then "/c" else "-c"; loopCommand w config])
  /\ sessionConfigs s' !! sid = Some config
  /\ outputBuffers s' !! sid = Some []
  /\ getIterationCount sid s' = getIterationCount sid s
  /\ shouldContinueLoop s' !! sid = Some true
  /\ exitSignalReceived s' !! sid = Some false
  /\ signals s' = signals s /\ timers s' = timers s.
Proof. apply startLoop_registers. Qed.

Lemma X10_start_registers_witness :
  let w := Sample.world (Some Sample.open_plan) in
  let config := Sample.config (Some 3%Z) in
  isRunning "s1" empty_manager = false
  /\ sessionConfigs (Sample.started (Some 3%Z)) !! "s1" = Some config
  /\ exitSignalReceived (Sample.started (Some 3%Z)) !! "s1" = Some false.
Proof.
  intros w config.
  pose proof (X10_start_registers w config empty_manager (Sample.started (Some 3%Z))) as H.
  cbv zeta in H. split; [apply H; vm_compute; reflexivity|].
  split; apply H; vm_compute; reflexivity.
Defined.

(** X11: a start that fails changes nothing: the manager is returned as it
    was, and the error is either the one of a session that is already
    running or the one of a prompt file that does not exist. *)
Theorem X11_start_failure_atomic (w : World) (config : LoopConfig) (s s' : ProcessManager)
    (e : JsError) :
  startLoop w config s = (Throw e, s') ->
  let promptPath := join (fs w) (projectPath config) (promptFile config) in
  s' = s
  /\ ((isRunning (sessionId config) s = true
       /\ e = Error_ (js ("Session " +:+ sessionId config +:+ " is already running")))
      \/ (isRunning (sessionId config) s = false
          /\ existsSync (fs w) promptPath = false
          /\ e = Error_ (js ("Prompt file not found: " +:+ promptPath)))).
Proof.
  unfold startLoop, isRunning.
  destruct (processes s !! sessionId config) eqn:E; cbn [is_some].
  { intros [= <- <-]. split; [done|]. by left. }
  destruct (existsSync (fs w) (join (fs w) (projectPath config) (promptFile config))) eqn:Ep;
    cbn [negb].
  - destruct (existsSync _ _); cbn [negb];
      destruct (git_branch w (projectPath config)); cbn; done.
  - intros [= <- <-]. split; [done|]. by right.
Qed.

Lemma X11_start_failure_atomic_witness :
  let w := SampleRuns.world_without ["/work/app/PROMPT_build.md"] RvTimeout in
  let config := Sample.config None in
  startLoop w config empty_manager
  = (Throw (Error_ (js "Prompt file not found: /work/app/PROMPT_build.md")), empty_manager)
  /\ snd (startLoop w config empty_manager) = empty_manager.
Proof.
  intros w config. split; [vm_compute; reflexivity|].
  apply (X11_start_failure_atomic w config empty_manager _
           (Error_ (js "Prompt file not found: /work/app/PROMPT_build.md"))).
  vm_compute. reflexivity.
Defined.

(** ** What is emitted is never taken back *)

Section EmitsMore.

Lemma emits_more_refl s : emits_more s s.
Proof. unfold emits_more. reflexivity. Qed.

Lemma emits_more_trans a b c : emits_more a b -> emits_more b c -> emits_more a c.
Proof. unfold emits_more. by etrans. Qed.

Lemma emits_more_emit e a b : emits_more a b -> emits_more a (emit e b).
Proof. unfold emits_more. cbn. intros H. etrans; [exact H|]. by apply prefix_app_r. Qed.

Local Ltac em :=
  first [ assumption
        | apply emits_more_refl
        | apply emits_more_emit; em
        | unfold emits_more; cbn; reflexivity
        | unfold emits_more; cbn; rewrite <- ?app_assoc; by apply prefix_app_r ].

Lemma emits_more_startLoop w config s : emits_more s (snd (startLoop w config s)).
Proof.
  unfold startLoop. destruct (is_some _); [em|].
  destruct (negb (existsSync _ _)); [em|].
  destruct (negb (existsSync _ _)); destruct (git_branch w (projectPath config)); em.
Qed.

Lemma emits_more_cleanup sid a b : emits_more a b -> emits_more a (cleanupSession sid b).
Proof. done. Qed.

Lemma emits_more_review_try w rt config startTime s :
  emits_more s (snd (review_try w rt config startTime s)).
Proof.
  unfold review_try, review_output, review_promise, review_after_output, spawn.
  destruct (writeFile w _); [em|].
  destruct (review_outcome w) as [code out err| |m]; [|em|em].
  destruct (reviewClose code out err); cbn [snd]; [|em].
  destruct (writeFile w _); [em|].
  destruct (ReviewParser.parseReviewOutput _ _ _) as [[r|]|]; cbn [snd]; em.
Qed.

Lemma emits_more_runAutoReview w rt config s :
  emits_more s (snd (runAutoReview w rt config s)).
Proof.
  unfold runAutoReview. destruct (default false _); [em|].
  destruct (negb _); [em|].
  match goal with |- context [review_try ?w ?rt ?c ?t ?s0] =>
    pose proof (emits_more_review_try w rt c t s0) as H;
    destruct (review_try w rt c t s0) as [[r|e] s'] end;
    unfold review_catch; cbn [snd] in *; unfold emits_more in *; cbn in *.
  - etrans; [|exact H]. rewrite <- ?app_assoc. by apply prefix_app_r.
  - etrans; [|apply prefix_app_r; apply prefix_app_r; exact H].
    rewrite <- ?app_assoc. by apply prefix_app_r.
Qed.

Lemma emits_more_docs w rt dir sid reviewResult s :
  emits_more s (snd (generateContinuationDocs w rt dir sid reviewResult s)).
Proof.
  unfold generateContinuationDocs.
  destruct (generateContinuationPromptMd rt reviewResult); [|em].
  destruct (writeFile w _); [em|].
  destruct (generateReviewFindingsSection rt reviewResult) as [[|] r']; [|em].
  destruct (writeFile w _); em.
Qed.

Lemma emits_more_cached f a b : emits_more a b -> emits_more a (upd_latestReviewResults f b).
Proof. done. Qed.

Lemma emits_more_autoReviewAndContinue w rt sid config s :
  emits_more s (snd (autoReviewAndContinue w rt sid config s)).
Proof.
  unfold autoReviewAndContinue.
  match goal with |- context [runAutoReview ?w ?rt ?c ?s0] =>
    pose proof (emits_more_runAutoReview w rt c s0) as H;
    destruct (runAutoReview w rt c s0) as [[r|e] s2] end; cbn [snd] in *.
  2: { eapply emits_more_trans; [|exact H]. em. }
  assert (emits_more s s2) as H2.
  { eapply emits_more_trans; [|exact H]. em. }
  destruct (autoContinue config) as [ac|]; [|done].
  destruct (negb (enabled ac)); [done|].
  match goal with |- context [bind ?m ?f] => destruct (bind m f) as [[|]|] end; [| |done].
  - pose proof (emits_more_docs w rt (projectPath config) sid r s2) as H3.
    destruct (generateContinuationDocs w rt (projectPath config) sid r s2)
      as [[[|] r'] s3]; cbn [snd] in *;
      [|by apply emits_more_cached; eapply emits_more_trans].
    match goal with |- context [startLoop ?w ?c ?s0] =>
      pose proof (emits_more_startLoop w c s0) as H4;
      destruct (startLoop w c s0) as [[|] s6] end; cbn [snd] in *;
      (eapply emits_more_trans; [|exact H4]);
      (eapply emits_more_trans; [exact H2|]);
      (eapply emits_more_trans; [exact H3|]); em.
  - destruct (_ <=? _)%Z; [by apply emits_more_emit|done].
Qed.

Lemma emits_more_closeFinish w rt sid code cx planExhausted s :
  emits_more s (snd (closeFinish w rt sid code cx planExhausted s)).
Proof.
  unfold closeFinish.
  set (s1 := emitEvent sid _ s).
  assert (emits_more s s1) as H1 by em.
  clearbody s1.
  destruct (cx_config cx) as [config|]; [|by apply emits_more_emit].
  destruct (_ && _); [|by apply emits_more_emit].
  pose proof (emits_more_autoReviewAndContinue w rt sid config s1) as H.
  destruct (autoReviewAndContinue w rt sid config s1) as [[[|]|e] s2]; cbn [snd] in *.
  - by eapply emits_more_trans.
  - apply emits_more_emit, emits_more_cleanup. by eapply emits_more_trans.
  - apply emits_more_emit, emits_more_cleanup, emits_more_emit. by eapply emits_more_trans.
Qed.

(** The completed branch reports the completion first; what follows only
    adds events. *)
Lemma closeFinish_after_report w rt sid code cx planExhausted s :
  emits_more
    (emitEvent sid
       (EvComplete code (closeReason code cx planExhausted) (cx_currentIteration cx)) s)
    (snd (closeFinish w rt sid code cx planExhausted s)).
Proof.
  unfold closeFinish.
  set (s1 := emitEvent sid _ s). clearbody s1.
  destruct (cx_config cx) as [config|]; [|em].
  destruct (_ && _); [|em].
  pose proof (emits_more_autoReviewAndContinue w rt sid config s1) as H.
  destruct (autoReviewAndContinue w rt sid config s1) as [[[|]|e] s2]; cbn [snd] in *.
  - done.
  - by apply emits_more_emit, emits_more_cleanup.
  - by apply emits_more_emit, emits_more_cleanup, emits_more_emit.
Qed.

Lemma closeFinish_reports w rt sid code cx planExhausted s :
  OnEvent sid (EvComplete code (closeReason code cx planExhausted) (cx_currentIteration cx))
  ∈ emitted (snd (closeFinish w rt sid code cx planExhausted s)).
Proof.
  destruct (closeFinish_after_report w rt sid code cx planExhausted s) as [news ->].
  cbn. rewrite !elem_of_app, list_elem_of_singleton. by auto.
Qed.

End EmitsMore.

(** ** The exit of a session in the middle of a cycle *)

Section Restart.
Variables (w : World) (rt : Runtime) (config : LoopConfig).

Lemma closeBegin_eq sid s :
  closeBegin sid s
  = (fst (closeBegin sid s), upd_outputBuffers (delete sid) (upd_processes (delete sid) s)).
Proof. reflexivity. Qed.

(** What the handler reads at the exit of a session in mid-cycle. *)
Lemma close_context_mid count runs s :
  mid_cycle config count runs s ->
  let cx := fst (closeBegin (sessionId config) s) in
  cx_config cx = Some config
  /\ cx_shouldContinue cx = Some true
  /\ cx_exitSignal cx = Some false
  /\ cx_currentIteration cx = count
  /\ cx_maxReached cx
     = match maxIterations config with
       | Some m => negb (m =? 0)%Z && (0 <? m)%Z && (m <=? count)%Z
       | None => false
       end.
Proof.
  intros (Hc & Hp & Hi & Hf & He & Hs) cx. subst cx. unfold closeBegin. cbn.
  rewrite Hc, Hi. cbn. done.
Qed.

Lemma cap_open_not_reached count :
  cap_open (maxIterations config) count ->
  match maxIterations config with
  | Some m => negb (m =? 0)%Z && (0 <? m)%Z && (m <=? count)%Z
  | None => false
  end = false.
Proof.
  unfold cap_open. destruct (maxIterations config) as [m|]; [|done].
  intros [H|H].
  - replace (0 <? m)%Z with false by (symmetry; apply Z.ltb_ge; lia).
    by destruct (negb _).
  - replace (m <=? count)%Z with false by (symmetry; apply Z.leb_gt; lia).
    by destruct (negb _), (0 <? m)%Z.
Qed.

Hypothesis Hprompt :
  existsSync (fs w) (join (fs w) (projectPath config) (promptFile config)) = true.
Hypothesis Hplan : checkPlanExhausted (fs w) (projectPath config) = false.



End Restart.





(** ** How an exit ends *)

Section CloseEnd.
Variables (w : World) (rt : Runtime).

Lemma onClose_eq sid code s :
  let cx := fst (closeBegin sid s) in
  let s1 := snd (closeBegin sid s) in
  let planExhausted := fst (closePlanCheck w sid cx s1) in
  let s2 := snd (closePlanCheck w sid cx s1) in
  onClose w rt sid code s
  = if shouldRestart code cx planExhausted then
      match cx_config cx with
      | Some config => (RestartPending config, closeIterate w sid config cx s2)
      | None => closeFinish w rt sid code cx planExhausted s2
      end
    else closeFinish w rt sid code cx planExhausted s2.
Proof.
  intros cx s1 planExhausted s2. unfold onClose. rewrite closeBegin_eq.
  subst cx s1 planExhausted s2. cbn [fst snd].
  by destruct (closePlanCheck w sid _ _).
Qed.

(** A session that ends was cleaned up, and the end of the session is the
    last thing emitted. *)
Lemma closeFinish_ended sid code cx planExhausted s s' :
  closeFinish w rt sid code cx planExhausted s = (SessionEnded, s') ->
  exists s0, s' = emit (OnSessionEnd sid code) (cleanupSession sid s0).
Proof.
  unfold closeFinish. destruct (cx_config cx) as [config|]; [|intros [= <-]; by eexists].
  destruct (_ && _); [|intros [= <-]; by eexists].
  destruct (autoReviewAndContinue _ _ _ _ _) as [[[|]|e] s2]; [done| |];
    intros [= <-]; by eexists.
Qed.

Lemma cleanupSession_cleaned sid s e : cleaned_up sid (emit e (cleanupSession sid s)).
Proof. unfold cleaned_up. cbn. by rewrite !lookup_delete_eq. Qed.

Lemma closeFinish_continued sid code cx planExhausted s s' :
  closeFinish w rt sid code cx planExhausted s = (Continued, s') ->
  exists config,
    cx_config cx = Some config
    /\ exit_ok code = true
    /\ default false (autoReview config) = true
    /\ default false (cx_exitSignal cx) = false
    /\ autoReviewAndContinue w rt sid config
         (emitEvent sid
            (EvComplete code (closeReason code cx planExhausted) (cx_currentIteration cx)) s)
       = (Ok true, s').
Proof.
  unfold closeFinish. destruct (cx_config cx) as [config|]; [|done].
  destruct (exit_ok code); [|done].
  destruct (default false (autoReview config)) eqn:Hrev; [|done].
  destruct (default false (cx_exitSignal cx)); [done|]. cbn [andb negb].
  destruct (autoReviewAndContinue _ _ _ _ _) as [[[|]|e] s2] eqn:E; [|done|done].
  intros [= <-]. exists config. do 4 (split; [done|]). exact E.
Qed.

Lemma autoReviewAndContinue_started sid config s s' :
  autoReviewAndContinue w rt sid config s = (Ok true, s') ->
  exists ac s5,
    autoContinue config = Some ac
    /\ enabled ac = true
    /\ (currentAutoIteration ac < maxAutoIterations ac)%Z
    /\ writeFile w (join (fs w) (projectPath config) "PROMPT_continue.md") = None
    /\ iterationCounts s5 !! sid = Some 0%Z
    /\ startLoop w (continueConfig config ac) s5 = (Ok tt, s').
Proof.
  unfold autoReviewAndContinue.
  destruct (runAutoReview _ _ _ _) as [[r|e] s2]; [|done].
  destruct (autoContinue config) as [ac|]; [|done].
  destruct (negb (enabled ac)) eqn:Een; [done|]. apply negb_false_iff in Een.
  match goal with |- context [bind ?m ?f] => destruct (bind m f) as [[|]|] eqn:Eb end;
    [| |done].
  2: { by destruct (_ <=? _)%Z. }
  unfold generateContinuationDocs.
  destruct (generateContinuationPromptMd rt r); [|done].
  destruct (writeFile w (join (fs w) (projectPath config) "PROMPT_continue.md")) eqn:Ew;
    [done|].
  destruct (generateReviewFindingsSection rt r) as [[|] r']; [|done].
  destruct (writeFile w (join (fs w) (projectPath config) "IMPLEMENTATION_PLAN.md"));
    [done|].
  cbv beta iota zeta.
  match goal with |- context [startLoop ?w0 ?c ?s0] =>
    destruct (startLoop w0 c s0) as [[[]|] s6] eqn:Es end; [|done].
  intros [= <-]. exists ac. eexists. split; [done|]. split; [done|].
  split.
  { unfold bind in Eb. destruct (get_prop r "reviewStatus") as [st|]; [|done].
    destruct (is_str st "COMPLETE"); [done|].
    destruct (get_prop r "missingItems") as [items|]; [|done].
    destruct (get_prop items "length") as [len|]; [|done].
    destruct (positive rt len) as [some|]; [|done].
    injection Eb as Eb. apply andb_true_iff in Eb as [_ Hlt]. by apply Z.ltb_lt. }
  split; [done|]. split; [|exact Es]. cbn. apply lookup_insert_eq.
Qed.

End CloseEnd.



(** An exit with a code other than 0 ends the session. *)
Lemma onClose_failed_exit (w : World) (rt : Runtime) (sid : string) (code : option Z)
    (s : ProcessManager) :
  exit_ok code = false ->
  exists s' reason,
    onClose w rt sid code s = (SessionEnded, s')
    /\ spawned s' = spawned s
    /\ completions sid s' = completions sid s ++ [(code, reason, getIterationCount sid s)]
    /\ reason <> Unknown
    /\ cleaned_up sid s'
    /\ last (emitted s') = Some (OnSessionEnd sid code)
    /\ (forall config count runs,
          sessionId config = sid -> mid_cycle config count runs s ->
          cap_open (maxIterations config) count ->
          checkPlanExhausted (fs w) (projectPath config) = false ->
          reason = ExitCode code).
Proof.
  intros Hcode. rewrite onClose_eq.
  assert (cx_currentIteration (fst (closeBegin sid s)) = getIterationCount sid s) as Hi
    by reflexivity.
  assert (forall config count runs,
            sessionId config = sid -> mid_cycle config count runs s ->
            cap_open (maxIterations config) count ->
            cx_config (fst (closeBegin sid s)) = Some config
            /\ default false (cx_exitSignal (fst (closeBegin sid s))) = false
            /\ cx_maxReached (fst (closeBegin sid s)) = false
            /\ default false (cx_shouldContinue (fst (closeBegin sid s))) = true) as Hmid.
  { intros config count runs <- Hm Hopen.
    destruct (close_context_mid _ _ _ _ Hm) as (Hxc & Hxf & Hxe & Hxi & Hxm).
    rewrite (cap_open_not_reached _ _ Hopen) in Hxm. by rewrite Hxc, Hxf, Hxe, Hxm. }
  set (cx := fst (closeBegin sid s)) in *. clearbody cx.
  set (pe := fst (closePlanCheck w sid cx (snd (closeBegin sid s)))).
  assert (shouldRestart code cx pe = false) as ->.
  { unfold shouldRestart. by rewrite Hcode. }
  assert (exists news,
            emitted (snd (closePlanCheck w sid cx (snd (closeBegin sid s))))
            = emitted s ++ news
            /\ spawned (snd (closePlanCheck w sid cx (snd (closeBegin sid s)))) = spawned s
            /\ flat_map (fun e => match e with
                                  | OnEvent sid' (EvComplete c r t) =>
                                      if String.eqb sid' sid then [(c, r, t)] else []
                                  | _ => []
                                  end) news = []
            /\ (forall config, cx_config cx = Some config ->
                  pe = checkPlanExhausted (fs w) (projectPath config))) as Hs2.
  { subst pe. unfold closePlanCheck. destruct (cx_config cx) as [config|]; cbn [fst snd].
    - destruct (checkPlanExhausted (fs w) (projectPath config)) eqn:Ep.
      + exists [OnEvent sid (EvSystem MsgPlanCompleted)]. split; [reflexivity|].
        split; [reflexivity|]. split; [reflexivity|]. by intros ? [= <-].
      + exists []. split; [cbn; by rewrite app_nil_r|].
        split; [reflexivity|]. split; [reflexivity|]. by intros ? [= <-].
    - exists []. split; [cbn; by rewrite app_nil_r|]. done. }
  destruct Hs2 as (news & Hem & Hsp & Hnone & Hpe).
  set (s2 := snd (closePlanCheck w sid cx (snd (closeBegin sid s)))) in *. clearbody s2.
  assert (closeFinish w rt sid code cx pe s2
          = (SessionEnded,
             emit (OnSessionEnd sid code)
               (cleanupSession sid
                  (emitEvent sid
                     (EvComplete code (closeReason code cx pe) (cx_currentIteration cx))
                     s2)))) as ->.
  { unfold closeFinish. destruct (cx_config cx); [|done]. by rewrite Hcode. }
  eexists _, (closeReason code cx pe). split; [reflexivity|].
  split; [exact Hsp|]. split.
  { erewrite completions_app by (cbn; rewrite Hem, <- !app_assoc; reflexivity).
    rewrite flat_map_app, Hnone. cbn. by rewrite String.eqb_refl, Hi. }
  split.
  { unfold closeReason. destruct pe; [done|]. destruct (default false _); [done|].
    destruct (cx_maxReached cx); [done|]. destruct (negb (default false _)); [done|].
    by rewrite Hcode. }
  split; [apply cleanupSession_cleaned|]. split.
  { cbn. by rewrite last_snoc. }
  intros config count runs Hsid Hm Hopen Hplan.
  destruct (Hmid _ _ _ Hsid Hm Hopen) as (Hxc & Hxe & Hxm & Hxf).
  unfold closeReason. rewrite (Hpe _ Hxc), Hplan, Hxe, Hxm, Hxf, Hcode. done.
Qed.



(** X16: the exit handler ends a session in two ways, and in both the ten
    per-session entries that clean-up empties are gone (the cached review and
    test results are not among them) and the end of the session is the last
    thing emitted.  When the completed branch ends the session, the end
    carries the exit code of the process and the completion of the loop has
    been reported.  When the restart after the two seconds of delay throws,
    the end carries exit code 1 instead, preceded by an error event that
    quotes the failure; nothing else is emitted, so no completion is
    reported, and nothing is spawned. *)
Theorem X16_ended_session_cleaned (w : World) (rt : Runtime) (sid : string)
    (code : option Z) (s s' : ProcessManager) :
  (onClose w rt sid code s = (SessionEnded, s') ->
   cleaned_up sid s'
   /\ isRunning sid s' = false
   /\ last (emitted s') = Some (OnSessionEnd sid code)
   /\ OnEvent sid
        (EvComplete code
           (closeReason code (fst (closeBegin sid s))
              (fst (closePlanCheck w sid (fst (closeBegin sid s)) (snd (closeBegin sid s)))))
           (getIterationCount sid s)) ∈ emitted s')
  /\ (forall config e s1,
        default false (shouldContinueLoop s !! sid) = true ->
        startLoop w config s = (Throw e, s1) ->
        let s2 := closeRestart w rt sid config s in
        cleaned_up sid s2
        /\ isRunning sid s2 = false
        /\ last (emitted s2) = Some (OnSessionEnd sid (Some 1%Z))
        /\ emitted s2
           = emitted s
             ++ [OnEvent sid (EvError (js "Failed to restart loop: " ++ error_message rt e));
                 OnSessionEnd sid (Some 1%Z)]
        /\ completions sid s2 = completions sid s
        /\ spawned s2 = spawned s).
Proof.
  split.
  - rewrite onClose_eq. cbv zeta.
    set (cx := fst (closeBegin sid s)).
    set (pe := fst (closePlanCheck w sid cx (snd (closeBegin sid s)))).
    set (s2 := snd (closePlanCheck w sid cx (snd (closeBegin sid s)))).
    intros H.
    assert (closeFinish w rt sid code cx pe s2 = (SessionEnded, s')) as Hf.
    { destruct (shouldRestart code cx pe); [|done]. by destruct (cx_config cx). }
    clear H. pose proof (closeFinish_reports w rt sid code cx pe s2) as Hr.
    rewrite Hf in Hr. cbn [snd] in Hr.
    apply closeFinish_ended in Hf as (s0 & ->).
    split; [apply cleanupSession_cleaned|]. split; [|split; [|exact Hr]].
    + unfold isRunning. cbn. by rewrite lookup_delete_eq.
    + cbn. by rewrite last_snoc.
  - intros config e s1 Hflag Hstart s2. subst s2.
    assert (s1 = s) as ->.
    { revert Hstart. unfold startLoop.
      destruct (is_some _); [by intros [= _ <-]|].
      destruct (negb (existsSync _ _)); [by intros [= _ <-]|].
      destruct (negb (existsSync _ _)); by destruct (git_branch w (projectPath config)). }
    unfold closeRestart. rewrite Hflag, Hstart.
    split; [unfold cleaned_up; cbn; by rewrite !lookup_delete_eq|].
    split; [unfold isRunning; cbn; by rewrite lookup_delete_eq|].
    split; [cbn; by rewrite last_snoc|].
    split; [cbn; by rewrite <- app_assoc|].
    split; [|done].
    unfold completions. cbn. rewrite <- app_assoc, flat_map_app. cbn.
    by rewrite app_nil_r.
Qed.

Lemma X16_ended_session_cleaned_witness :
  let w := Sample.world (Some Sample.done_plan) in
  let s' := snd (onClose w Sample.rt "s1" (Some 0%Z) (Sample.started None)) in
  let s2 := SampleRestart.restarted in
  (cleaned_up "s1" s'
   /\ isRunning "s1" s' = false
   /\ last (emitted s') = Some (OnSessionEnd "s1" (Some 0%Z))
   /\ OnEvent "s1" (EvComplete (Some 0%Z) PlanExhausted 0) ∈ emitted s')
  /\ (cleaned_up "s1" s2
      /\ isRunning "s1" s2 = false
      /\ last (emitted s2) = Some (OnSessionEnd "s1" (Some 1%Z))
      /\ emitted s2
         = emitted (snd SampleRestart.started_again)
           ++ [OnEvent "s1"
                 (EvError (js "Failed to restart loop: "
                           ++ error_message Sample.rt
                                (Error_ (js "Session s1 is already running"))));
               OnSessionEnd "s1" (Some 1%Z)]
      /\ completions "s1" s2 = completions "s1" (snd SampleRestart.started_again)
      /\ spawned s2 = spawned (snd SampleRestart.started_again)).
Proof.
  intros w s' s2. split.
  - apply (proj1 (X16_ended_session_cleaned w Sample.rt "s1" (Some 0%Z)
                    (Sample.started None) s')).
    vm_compute. reflexivity.
  - subst s2. unfold SampleRestart.restarted.
    apply (proj2 (X16_ended_session_cleaned SampleRestart.w Sample.rt "s1" (Some 0%Z)
                    (snd SampleRestart.started_again) (snd SampleRestart.started_again))
             SampleRestart.config (Error_ (js "Session s1 is already running"))
             (snd SampleRestart.started_again)).
    + vm_compute. reflexivity.
    + vm_compute. reflexivity.
Defined.

(** X17: the exit handler starts a continuation cycle only after an exit
    with code 0 of a session that has its configuration, with automatic
    review and continuation switched on, no exit signal, fewer automatic
    iterations done than allowed and the continuation documents written; the
    cycle then runs under the same session id with the continuation prompt
    and one more automatic iteration counted, a process is attached, the
    iteration count starts again at zero, and the completion of the finished
    cycle has been reported. *)
Theorem X17_continuation_cycle (w : World) (rt : Runtime) (sid : string) (code : option Z)
    (s s' : ProcessManager) :
  onClose w rt sid code s = (Continued, s') ->
  exists config ac,
    sessionConfigs s !! sid = Some config
    /\ autoContinue config = Some ac
    /\ code = Some 0%Z
    /\ default false (autoReview config) = true
    /\ exitSignalReceived s !! sid <> Some true
    /\ enabled ac = true
    /\ (currentAutoIteration ac < maxAutoIterations ac)%Z
    /\ writeFile w (join (fs w) (projectPath config) "PROMPT_continue.md") = None
    /\ existsSync (fs w) (join (fs w) (projectPath config) "PROMPT_continue.md") = true
    /\ sessionConfigs s' !! sessionId config = Some (continueConfig config ac)
    /\ isRunning (sessionId config) s' = true
    /\ shouldContinueLoop s' !! sessionId config = Some true
    /\ (sessionId config = sid -> getIterationCount sid s' = 0%Z)
    /\ (exists reason,
          OnEvent sid (EvComplete code reason (getIterationCount sid s)) ∈ emitted s').
Proof.
  rewrite onClose_eq. cbv zeta.
  set (cx := fst (closeBegin sid s)).
  set (pe := fst (closePlanCheck w sid cx (snd (closeBegin sid s)))).
  set (s2 := snd (closePlanCheck w sid cx (snd (closeBegin sid s)))).
  intros H.
  assert (closeFinish w rt sid code cx pe s2 = (Continued, s')) as Hf.
  { destruct (shouldRestart code cx pe); [|done]. by destruct (cx_config cx). }
  clear H. pose proof (closeFinish_reports w rt sid code cx pe s2) as Hr.
  rewrite Hf in Hr. cbn [snd] in Hr.
  apply closeFinish_continued in Hf as (config & Hxc & Hcode & Hrev & Hxe & Hf).
  apply autoReviewAndContinue_started in Hf as (ac & s5 & Hac & Hen & Hlt & Hw & Hi5 & Hst).
  apply startLoop_registers in Hst
    as (_ & Hprompt & (proc & _ & Hproc & _) & Hcfg & _ & Hcount & Hflag & _).
  cbn [sessionId continueConfig projectPath promptFile] in *.
  exists config, ac. split; [exact Hxc|]. split; [done|].
  split; [by destruct code as [[| |]|]|]. split; [done|].
  split.
  { intros Hsig. change (cx_exitSignal cx) with (exitSignalReceived s !! sid) in Hxe.
    by rewrite Hsig in Hxe. }
  do 5 (split; [done|]).
  split; [unfold isRunning; by rewrite Hproc|]. split; [done|]. split.
  - intros Hsid. rewrite Hsid in Hcount. rewrite Hcount. unfold getIterationCount.
    by rewrite Hi5.
  - eexists. exact Hr.
Qed.

Lemma X17_continuation_cycle_witness :
  let w := SampleContinuation.world in
  let s := SampleContinuation.started in
  let s' := snd (onClose w SampleContinuation.rt "s1" (Some 0%Z) s) in
  exists config ac,
    sessionConfigs s !! "s1" = Some config
    /\ autoContinue config = Some ac
    /\ Some 0%Z = Some 0%Z
    /\ default false (autoReview config) = true
    /\ exitSignalReceived s !! "s1" <> Some true
    /\ enabled ac = true
    /\ (currentAutoIteration ac < maxAutoIterations ac)%Z
    /\ writeFile w (join (fs w) (projectPath config) "PROMPT_continue.md") = None
    /\ existsSync (fs w) (join (fs w) (projectPath config) "PROMPT_continue.md") = true
    /\ sessionConfigs s' !! sessionId config = Some (continueConfig config ac)
    /\ isRunning (sessionId config) s' = true
    /\ shouldContinueLoop s' !! sessionId config = Some true
    /\ (sessionId config = "s1" -> getIterationCount "s1" s' = 0%Z)
    /\ (exists reason,
          OnEvent "s1" (EvComplete (Some 0%Z) reason (getIterationCount "s1" s)) ∈ emitted s').
Proof.
  intros w s s'.
  apply (X17_continuation_cycle w SampleContinuation.rt "s1" (Some 0%Z) s s').
  vm_compute. reflexivity.
Defined.

(** ** A review run *)

Section ReviewRun.
Variables (w : World) (rt : Runtime) (config : ReviewConfig).

Lemma set_duration_status ms r :
  ReviewParser.status_ok r = true -> ReviewParser.status_ok (set_duration ms r) = true.
Proof.
  unfold ReviewParser.status_ok, set_duration.
  destruct r as [| | | | |items|fields]; try done.
  cbn [own_fields get_prop_opt get_prop try_catch]. intros H.
  rewrite lookup_set_field_ne; [done|]. by vm_compute.
Qed.

Lemma error_result_status_ok now error raw ms :
  ReviewParser.status_ok
    (set_duration ms (ReviewParser.createErrorReviewResult now error raw)) = true.
Proof. vm_compute. reflexivity. Qed.

(** The [try] block: what it returns has a status of the five and is
    cached; it spawns at most the review process and leaves the guard flag
    and the loop alone. *)
Lemma review_try_ok startTime s r s' :
  review_try w rt config startTime s = (Ok r, s') ->
  ReviewParser.status_ok r = true
  /\ latestReviewResults s' = <[rv_sessionId config := r]> (latestReviewResults s).
Proof.
  unfold review_try, review_output, review_promise, review_after_output, spawn.
  destruct (writeFile w _); [done|].
  destruct (review_outcome w) as [code out err| |m]; [|done|done].
  destruct (reviewClose code out err) as [output|]; [|done].
  destruct (writeFile w _); [done|].
  destruct (ReviewParser.parseReviewOutput rt (review_end w) output) as [[parsed|]|] eqn:E;
    [| |done]; intros [= <- <-]; (split; [|cbn; done]).
  - apply set_duration_status. by eapply parseReviewOutput_status.
  - apply error_result_status_ok.
Qed.

Lemma review_try_frame startTime s :
  let s' := snd (review_try w rt config startTime s) in
  reviewInProgress s' = reviewInProgress s
  /\ processes s' = processes s
  /\ sessionConfigs s' = sessionConfigs s
  /\ shouldContinueLoop s' = shouldContinueLoop s
  /\ (spawned s' = spawned s
      \/ spawned s'
         = spawned s
           ++ [{| pid := length (spawned s);
                  shell := if isWindows w then "cmd.exe" else "bash";
                  shell_args := [if isWindows w then "/c" else "-c"; reviewCommand w config];
                  cwd := rv_projectPath config;
                  env_RALPH_MODE := "review";
                  env_RALPH_SESSION_ID := None |}]).
Proof.
  unfold review_try, review_output, review_promise, review_after_output, spawn.
  destruct (writeFile w _); [cbn; by auto 10|].
  destruct (review_outcome w) as [code out err| |m]; [|cbn; by auto 10|cbn; by auto 10].
  destruct (reviewClose code out err) as [output|]; [|cbn; by auto 10].
  destruct (writeFile w _); [cbn; by auto 10|].
  destruct (ReviewParser.parseReviewOutput rt (review_end w) output) as [[parsed|]|];
    cbn; by auto 10.
Qed.

Lemma runAutoReview_idle s :
  isReviewInProgress (rv_sessionId config) s = false ->
  exists r s',
    runAutoReview w rt config s = (Ok r, s')
    /\ ReviewParser.status_ok r = true
    /\ isReviewInProgress (rv_sessionId config) s' = false
    /\ processes s' = processes s
    /\ sessionConfigs s' = sessionConfigs s
    /\ shouldContinueLoop s' = shouldContinueLoop s
    /\ (length (spawned s') <= S (length (spawned s)))%nat.
Proof.
  unfold isReviewInProgress, runAutoReview. intros Hidle. rewrite Hidle.
  destruct (negb (existsSync _ _)).
  { eexists _, _. split; [reflexivity|]. split; [by vm_compute|].
    cbn. rewrite Hidle. repeat split; try done. lia. }
  set (s2 := emitEvent _ _ _).
  pose proof (review_try_frame (now w) s2) as (Hg & Hp & Hc & Hf & Hs).
  assert (length (spawned (snd (review_try w rt config (now w) s2)))
          <= S (length (spawned s)))%nat as Hlen.
  { destruct Hs as [-> | ->]; [cbn; lia|]. rewrite length_app. cbn. lia. }
  destruct (review_try w rt config (now w) s2) as [[r|e] s3] eqn:E;
    unfold review_catch; cbn [snd] in *.
  - apply review_try_ok in E as [Hst _].
    eexists _, _. split; [reflexivity|]. split; [exact Hst|].
    cbn. rewrite lookup_delete_eq. repeat split; done.
  - eexists _, _. split; [reflexivity|]. split; [apply error_result_status_ok|].
    cbn. rewrite lookup_delete_eq. repeat split; done.
Qed.

(** The run in one piece is its beginning followed, when it waits for its
    subprocess, by what it does when the outcome arrives. *)
Lemma runAutoReview_phases s :
  runAutoReview w rt config s
  = match reviewBegin w rt config s with
    | (ReviewThrew e, s1) => (Throw e, s1)
    | (ReviewReturned r, s1) => (Ok r, s1)
    | (ReviewWaiting startTime proc, s1) =>
        let '(r, s') := reviewSettle w rt config startTime proc (review_outcome w) s1 in
        (Ok r, s')
      end.
Proof.
  unfold runAutoReview, reviewBegin, reviewSettle, review_try, review_output.
  destruct (default false _); [done|].
  destruct (negb _); [done|].
  destruct (writeFile w _); [done|].
  unfold spawn.
  destruct (review_promise _ _ _) as [[output|e] s1]; [|done].
  by destruct (review_after_output _ _ _ _ _ _) as [[r|e] s'].
Qed.

(** A run that goes as far as its subprocess. *)
Lemma reviewBegin_waiting s startTime proc s1 :
  reviewBegin w rt config s = (ReviewWaiting startTime proc, s1) ->
  isReviewInProgress (rv_sessionId config) s = false
  /\ existsSync (fs w) (join (fs w) (rv_projectPath config) "IMPLEMENTATION_PLAN.md") = true
  /\ writeFile w (join (fs w) (rv_projectPath config) "PROMPT_review.md") = None
  /\ startTime = now w
  /\ proc = fst (spawn w (reviewCommand w config) (rv_projectPath config) "review" None s)
  /\ s1 = upd_spawned (fun l => l ++ [proc])
            (emitEvent (rv_sessionId config) (EvSystem MsgReviewStarting)
               (emit (OnReviewStart (rv_sessionId config))
                  (upd_reviewInProgress (insert (rv_sessionId config) true) s))).
Proof.
  unfold reviewBegin, isReviewInProgress.
  destruct (default false _); [done|].
  destruct (existsSync _ _); [|done]. cbn [negb].
  destruct (writeFile w _); [done|].
  unfold spawn. by intros [= <- <- <-].
Qed.

Lemma reviewSettle_releases startTime proc outcome s :
  isReviewInProgress (rv_sessionId config)
    (snd (reviewSettle w rt config startTime proc outcome s)) = false.
Proof.
  unfold reviewSettle, isReviewInProgress.
  destruct (review_promise _ _ _) as [[output|e] s1].
  - destruct (review_after_output _ _ _ _ _ _) as [[r|e] s']; unfold review_catch; cbn;
      by rewrite lookup_delete_eq.
  - unfold review_catch; cbn. by rewrite lookup_delete_eq.
Qed.

End ReviewRun.

(** X18: a run of the review guards itself with a flag, and the flag is
    not a lock.  While the flag of the session is set a run throws and
    changes nothing; otherwise the run, taken in one piece, returns a result
    whose status is one of the five values, with the flag clear again, at
    most one process spawned and the process, the configuration and the
    continue flag of every session as before.  A run that goes as far as its
    subprocess has set the flag and spawned one process; while it waits
    another run throws; whatever outcome arrives later, and whatever the
    manager then holds, the flag is clear afterwards; and the run in one
    piece is this beginning followed by the arrival of the outcome.  But
    while the run waits, stopping the session when it has no process cleans
    the session up, which clears the flag with the review process still
    running and no signal sent: the next run then spawns a second review
    process, so two reviews of the session are in flight. *)
Theorem X18_review_guard (w : World) (rt : Runtime) (config : ReviewConfig)
    (s : ProcessManager) :
  let sid := rv_sessionId config in
  (if isReviewInProgress sid s
   then runAutoReview w rt config s = (Throw (Error_ (js "Review already in progress")), s)
   else exists r s',
     runAutoReview w rt config s = (Ok r, s')
     /\ ReviewParser.status_ok r = true
     /\ isReviewInProgress sid s' = false
     /\ processes s' = processes s
     /\ sessionConfigs s' = sessionConfigs s
     /\ shouldContinueLoop s' = shouldContinueLoop s
     /\ (length (spawned s') <= S (length (spawned s)))%nat)
  /\ forall startTime proc s1,
       reviewBegin w rt config s = (ReviewWaiting startTime proc, s1) ->
       isReviewInProgress sid s1 = true
       /\ spawned s1 = spawned s ++ [proc]
       /\ env_RALPH_MODE proc = "review"
       /\ runAutoReview w rt config s1
          = (Throw (Error_ (js "Review already in progress")), s1)
       /\ (forall outcome s2,
             isReviewInProgress sid (snd (reviewSettle w rt config startTime proc outcome s2))
             = false)
       /\ runAutoReview w rt config s
          = (Ok (fst (reviewSettle w rt config startTime proc (review_outcome w) s1)),
             snd (reviewSettle w rt config startTime proc (review_outcome w) s1))
       /\ (processes s1 !! sid = None ->
           let s2 := snd (stopLoop sid s1) in
           fst (stopLoop sid s1) = Ok false
           /\ isReviewInProgress sid s2 = false
           /\ signals s2 = signals s
           /\ exists proc' s3,
                reviewBegin w rt config s2 = (ReviewWaiting startTime proc', s3)
                /\ spawned s3 = spawned s ++ [proc; proc']
                /\ pid proc' <> pid proc
                /\ env_RALPH_MODE proc' = "review"
                /\ signals s3 = signals s).
Proof.
  intros sid. split.
  { destruct (isReviewInProgress sid s) eqn:E.
    - unfold runAutoReview. unfold isReviewInProgress in E. subst sid. by rewrite E.
    - by apply runAutoReview_idle. }
  intros startTime proc s1 Hb.
  pose proof (runAutoReview_phases w rt config s) as Hrun. rewrite Hb in Hrun.
  apply reviewBegin_waiting in Hb as (Hidle & Hplan & Hw & -> & Hproc & ->).
  assert (isReviewInProgress sid
            (upd_spawned (fun l => l ++ [proc])
               (emitEvent sid (EvSystem MsgReviewStarting)
                  (emit (OnReviewStart sid) (upd_reviewInProgress (insert sid true) s))))
          = true) as Hset.
  { unfold isReviewInProgress. cbn. by rewrite lookup_insert_eq. }
  split; [exact Hset|]. split; [done|]. split; [by rewrite Hproc|].
  split.
  { unfold runAutoReview. unfold isReviewInProgress in Hset. fold sid. by rewrite Hset. }
  split; [intros outcome s2; apply reviewSettle_releases|].
  split.
  { rewrite Hrun. by destruct (reviewSettle _ _ _ _ _ _ _). }
  intros Hnone s2. subst s2.
  unfold stopLoop, stopLoop_terminate.
  cbn [stopLoop_mark processes upd_shouldContinueLoop upd_spawned emitEvent emit
       upd_reviewInProgress upd_emitted] in Hnone |- *.
  rewrite Hnone. cbn [fst snd].
  split; [done|]. split.
  { unfold isReviewInProgress. cbn. by rewrite lookup_delete_eq. }
  split; [done|].
  unfold reviewBegin. fold sid. cbn [reviewInProgress cleanupSession upd_e2eInProgress
    upd_reviewInProgress upd_currentBranches upd_exitSignalReceived upd_shouldContinueLoop
    upd_claudeSessionIds upd_iterationCounts upd_sessionConfigs upd_outputBuffers
    upd_processes upd_spawned emitEvent emit upd_emitted].
  rewrite lookup_delete_eq. cbn [default]. rewrite Hplan. cbn [negb]. rewrite Hw.
  unfold spawn. eexists _, _. split; [reflexivity|].
  cbn. rewrite <- app_assoc. split; [done|]. split; [|done].
  rewrite Hproc. cbn. rewrite length_app. cbn. lia.
Qed.

Lemma X18_review_guard_witness :
  let w := Sample.world (Some Sample.open_plan) in
  let s := empty_manager in
  let proc := {| pid := 0; shell := "bash";
                 shell_args := ["-c"; reviewCommand w Sample.review_config];
                 cwd := "/work/app"; env_RALPH_MODE := "review";
                 env_RALPH_SESSION_ID := None |} in
  let s1 := snd (reviewBegin w Sample.rt Sample.review_config s) in
  reviewBegin w Sample.rt Sample.review_config s = (ReviewWaiting (now w) proc, s1)
  /\ isReviewInProgress "s1" s1 = true
  /\ isReviewInProgress "s1" (snd (stopLoop "s1" s1)) = false
  /\ exists proc' s3,
       reviewBegin w Sample.rt Sample.review_config (snd (stopLoop "s1" s1))
       = (ReviewWaiting (now w) proc', s3)
       /\ spawned s3 = spawned s ++ [proc; proc']
       /\ pid proc' <> pid proc
       /\ env_RALPH_MODE proc' = "review"
       /\ signals s3 = signals s.
Proof.
  intros w s proc s1.
  assert (reviewBegin w Sample.rt Sample.review_config s = (ReviewWaiting (now w) proc, s1))
    as Hb by (vm_compute; reflexivity).
  destruct (X18_review_guard w Sample.rt Sample.review_config s) as [_ H].
  destruct (H (now w) proc s1 Hb) as (Hset & _ & _ & _ & _ & _ & Hstop).
  destruct Hstop as (_ & Hclear & _ & Hsecond); [vm_compute; reflexivity|].
  split; [exact Hb|]. split; [exact Hset|]. split; [exact Hclear|]. exact Hsecond.
Defined.

(** X19: a review of a project without its tracking document, asked for
    while no review of the session is in progress, does not run: nothing is
    spawned, nothing is cached, the guard flag is not touched; the result has
    status ERROR and a summary that names the missing file, and the only
    effect is one review-error event carrying that summary. *)
Theorem X19_review_needs_plan (w : World) (rt : Runtime) (config : ReviewConfig)
    (s : ProcessManager) :
  isReviewInProgress (rv_sessionId config) s = false ->
  existsSync (fs w) (join (fs w) (rv_projectPath config) "IMPLEMENTATION_PLAN.md") = false ->
  let summary := JStr (js "Review failed: Missing required files: IMPLEMENTATION_PLAN.md") in
  exists r,
    runAutoReview w rt config s
    = (Ok r, emit (OnReviewError (rv_sessionId config) summary) s)
    /\ get_prop_opt r "reviewStatus" = JStr (js "ERROR")
    /\ get_prop_opt r "summary" = summary
    /\ validateReviewResult r = true.
Proof.
  unfold isReviewInProgress, runAutoReview. intros -> ->. cbn [negb].
  eexists. split; [reflexivity|]. by vm_compute.
Qed.

Lemma X19_review_needs_plan_witness :
  let w := SampleRuns.world_without ["/work/app/IMPLEMENTATION_PLAN.md"] RvTimeout in
  let summary := JStr (js "Review failed: Missing required files: IMPLEMENTATION_PLAN.md") in
  exists r,
    runAutoReview w Sample.rt Sample.review_config empty_manager
    = (Ok r, emit (OnReviewError "s1" summary) empty_manager)
    /\ get_prop_opt r "reviewStatus" = JStr (js "ERROR")
    /\ get_prop_opt r "summary" = summary
    /\ validateReviewResult r = true.
Proof.
  intros w.
  apply (X19_review_needs_plan w Sample.rt Sample.review_config empty_manager);
    vm_compute; reflexivity.
Defined.

(** X20: when the review does not finish within its ten minutes, the review
    process (the one spawned by this run, without a session tag) is sent
    SIGTERM, and the run returns and caches a result of status ERROR whose
    summary says that the review timed out; the guard flag is released. *)
Theorem X20_review_timeout (w : World) (rt : Runtime) (config : ReviewConfig)
    (s : ProcessManager) :
  isReviewInProgress (rv_sessionId config) s = false ->
  existsSync (fs w) (join (fs w) (rv_projectPath config) "IMPLEMENTATION_PLAN.md") = true ->
  writeFile w (join (fs w) (rv_projectPath config) "PROMPT_review.md") = None ->
  review_outcome w = RvTimeout ->
  exists r s' proc,
    runAutoReview w rt config s = (Ok r, s')
    /\ spawned s' = spawned s ++ [proc]
    /\ env_RALPH_SESSION_ID proc = None
    /\ cwd proc = rv_projectPath config
    /\ signals s' = signals s ++ [(pid proc, SIGTERM)]
    /\ get_prop_opt r "reviewStatus" = JStr (js "ERROR")
    /\ get_prop_opt r "summary"
       = JStr (js "Review failed: Review timed out after 10 minutes")
    /\ latestReviewResults s' !! rv_sessionId config = Some r
    /\ isReviewInProgress (rv_sessionId config) s' = false
    /\ processes s' = processes s.
Proof.
  unfold isReviewInProgress, runAutoReview. intros -> -> Hw Ht. cbn [negb].
  unfold review_try, review_output, review_promise, review_catch, spawn. rewrite Hw, Ht.
  eexists _, _, _. split; [reflexivity|]. cbn.
  rewrite lookup_delete_eq, lookup_insert_eq. repeat split.
Qed.

Lemma X20_review_timeout_witness :
  let w := with_outcome (Sample.world (Some Sample.open_plan)) RvTimeout in
  exists r s' proc,
    runAutoReview w Sample.rt Sample.review_config (Sample.started None) = (Ok r, s')
    /\ spawned s' = spawned (Sample.started None) ++ [proc]
    /\ env_RALPH_SESSION_ID proc = None
    /\ cwd proc = "/work/app"
    /\ signals s' = signals (Sample.started None) ++ [(pid proc, SIGTERM)]
    /\ get_prop_opt r "reviewStatus" = JStr (js "ERROR")
    /\ get_prop_opt r "summary"
       = JStr (js "Review failed: Review timed out after 10 minutes")
    /\ latestReviewResults s' !! "s1" = Some r
    /\ isReviewInProgress "s1" s' = false
    /\ processes s' = processes (Sample.started None).
Proof.
  intros w.
  apply (X20_review_timeout w Sample.rt Sample.review_config (Sample.started None));
    vm_compute; reflexivity.
Defined.

(** ** Stopping a running session *)

(** X23: stopping a session that has a process returns true, sends that
    process one SIGTERM and arms one timer for the forced kill; the process
    stays registered until it exits and the continue flag is off.  If the
    timer goes off while the process is still registered it is sent SIGKILL;
    once the process has exited with a code other than 0 the session has
    ended, and the timer then sends nothing. *)
Theorem X23_stop_running (w : World) (rt : Runtime) (sid : string) (proc : ChildProcess)
    (code : option Z) (s : ProcessManager) :
  processes s !! sid = Some proc ->
  exit_ok code = false ->
  let s1 := snd (stopLoop sid s) in
  let s2 := snd (onClose w rt sid code s1) in
  fst (stopLoop sid s) = Ok true
  /\ signals s1 = signals s ++ [(pid proc, SIGTERM)]
  /\ timers s1 = timers s ++ [ForceKill sid (pid proc)]
  /\ processes s1 = processes s
  /\ shouldContinueLoop s1 !! sid = Some false
  /\ spawned s1 = spawned s
  /\ emitted s1 = emitted s
  /\ signals (onForceKill sid proc s1) = signals s1 ++ [(pid proc, SIGKILL)]
  /\ fst (onClose w rt sid code s1) = SessionEnded
  /\ spawned s2 = spawned s
  /\ onForceKill sid proc s2 = s2.
Proof.
  intros Hp Hcode s1 s2.
  assert (stopLoop sid s
          = (Ok true,
             upd_timers (fun l => l ++ [ForceKill sid (pid proc)])
               (kill proc SIGTERM (stopLoop_mark sid s)))) as Hstop.
  { unfold stopLoop, stopLoop_terminate. cbn [stopLoop_mark processes upd_shouldContinueLoop].
    by rewrite Hp. }
  subst s2 s1. rewrite Hstop. cbn [fst snd].
  set (s1 := upd_timers _ _).
  split; [done|]. split; [done|]. split; [done|]. split; [done|].
  split; [cbn; apply lookup_insert_eq|]. split; [done|]. split; [done|].
  split.
  { unfold onForceKill. cbn [s1 processes upd_timers kill upd_signals stopLoop_mark
      upd_shouldContinueLoop]. by rewrite Hp. }
  destruct (onClose_failed_exit w rt sid code s1 Hcode)
    as (s' & reason & -> & Hsp & _ & _ & Hclean & _).
  cbn [fst snd]. split; [done|]. split; [by rewrite Hsp|].
  unfold onForceKill. destruct Hclean as [-> _]. done.
Qed.

Lemma X23_stop_running_witness :
  let w := Sample.world (Some Sample.open_plan) in
  let s := Sample.started None in
  let proc := {| pid := 0; shell := "bash";
                 shell_args := ["-c"; loopCommand w (Sample.config None)];
                 cwd := "/work/app"; env_RALPH_MODE := "build";
                 env_RALPH_SESSION_ID := Some "s1" |} in
  let s1 := snd (stopLoop "s1" s) in
  let s2 := snd (onClose w Sample.rt "s1" None s1) in
  fst (stopLoop "s1" s) = Ok true
  /\ signals s1 = signals s ++ [(pid proc, SIGTERM)]
  /\ timers s1 = timers s ++ [ForceKill "s1" (pid proc)]
  /\ processes s1 = processes s
  /\ shouldContinueLoop s1 !! "s1" = Some false
  /\ spawned s1 = spawned s
  /\ emitted s1 = emitted s
  /\ signals (onForceKill "s1" proc s1) = signals s1 ++ [(pid proc, SIGKILL)]
  /\ fst (onClose w Sample.rt "s1" None s1) = SessionEnded
  /\ spawned s2 = spawned s
  /\ onForceKill "s1" proc s2 = s2.
Proof.
  intros w s proc.
  apply (X23_stop_running w Sample.rt "s1" proc None s).
  - vm_compute. reflexivity.
  - reflexivity.
Defined.

(** ** The line buffer *)

Section LineBuffer.
Variables (rt : Runtime) (sid : string).

Lemma split_on_nonempty sep s : split_on sep s <> [].
Proof.
  destruct s as [|x s]; cbn [split_on]; [done|].
  destruct (x =? sep); [done|]. by destruct (split_on sep s).
Qed.

Lemma last_default_app (l l' : list jstring) d :
  l' <> [] -> List.last (l ++ l') d = List.last l' d.
Proof.
  intros Hne. induction l as [|x l IH]; [done|]. cbn [app List.last].
  destruct (l ++ l') eqn:E; [|exact IH]. by apply app_eq_nil in E as [_ ->].
Qed.

(** The lines of a text in two parts: the complete lines of the first part,
    then the lines of its unfinished last line followed by the second
    part. *)
Lemma split_on_app sep x : forall y,
  split_on sep (x ++ y)
  = removelast (split_on sep x) ++ split_on sep (List.last (split_on sep x) [] ++ y).
Proof.
  induction x as [|c x IH]; intros y; [done|]. cbn [app split_on].
  pose proof (split_on_nonempty sep x) as Hx.
  destruct (c =? sep) eqn:Hc.
  - rewrite IH. destruct (split_on sep x) as [|l ls]; [done|]. done.
  - rewrite IH. destruct (split_on sep x) as [|l [|l2 ls]]; [done| |].
    + cbn [removelast List.last app split_on]. by rewrite Hc.
    + cbn [removelast List.last app]. done.
Qed.

Lemma stdout_line_buffer f s line :
  stdout_line rt sid (upd_outputBuffers f s) line
  = upd_outputBuffers f (stdout_line rt sid s line).
Proof.
  unfold stdout_line. destruct (negb _); [done|].
  assert (forall text st, scan_status sid text (upd_outputBuffers f st)
                          = upd_outputBuffers f (scan_status sid text st)) as Hscan.
  { intros text st. unfold scan_status. destruct (parseRalphStatus text) as [status|]; [|done].
    unfold handleRalphStatus. by destruct (exitSignal status). }
  assert (forall l st, stdout_raw sid l (upd_outputBuffers f st)
                       = upd_outputBuffers f (stdout_raw sid l st)) as Hraw.
  { intros l st. unfold stdout_raw. by rewrite <- Hscan. }
  destruct (JSON_parse rt line) as [parsed|]; [|apply Hraw].
  assert (stdout_parsed sid parsed (upd_outputBuffers f s)
          = (fst (stdout_parsed sid parsed s),
             upd_outputBuffers f (snd (stdout_parsed sid parsed s)))) as ->.
  { unfold stdout_parsed. destruct (get_prop parsed "type") as [ty|]; [|done].
    destruct (_ && _ && _);
      (destruct (truthy _); [|done]);
      (destruct (get_prop_opt _ "text"); try done; cbn [fst snd]; by rewrite <- Hscan). }
  destruct (stdout_parsed sid parsed s) as [[|] s']; cbn [fst snd]; [done|apply Hraw].
Qed.

Lemma stdout_lines_buffer f lines : forall s,
  fold_left (stdout_line rt sid) lines (upd_outputBuffers f s)
  = upd_outputBuffers f (fold_left (stdout_line rt sid) lines s).
Proof.
  induction lines as [|l lines IH]; intros s; cbn [fold_left]; [done|].
  by rewrite stdout_line_buffer, IH.
Qed.

(** Feeding the output in two chunks is feeding it in one. *)
Lemma onStdout_app a b s :
  onStdout rt sid b (onStdout rt sid a s) = onStdout rt sid (a ++ b) s.
Proof.
  unfold onStdout.
  set (buffer := default [] (outputBuffers s !! sid)).
  rewrite !stdout_lines_buffer. cbn [outputBuffers upd_outputBuffers].
  rewrite lookup_insert_eq. cbn [default from_option id].
  rewrite (app_assoc buffer a b), (split_on_app LF (buffer ++ a) b).
  set (lines1 := split_on LF (buffer ++ a)).
  set (lines2 := split_on LF (List.last lines1 [] ++ b)).
  assert (lines2 <> []) as Hne by apply split_on_nonempty.
  rewrite last_default_app, removelast_app, fold_left_app by done.
  rewrite ?stdout_lines_buffer.
  unfold upd_outputBuffers. cbn. by rewrite insert_insert_eq.
Qed.

End LineBuffer.

(** X22: how the output of the process is cut into chunks makes no
    difference: handling two chunks one after the other leaves the manager
    (events, flags, line buffer) exactly as handling their concatenation in
    one piece. *)
Theorem X22_chunking_irrelevant (rt : Runtime) (sid : string) (a b : jstring)
    (s : ProcessManager) :
  onStdout rt sid b (onStdout rt sid a s) = onStdout rt sid (a ++ b) s.
Proof. apply onStdout_app. Qed.

(** ** Sessions side by side *)

Section Isolation.
Variables (w : World) (rt : Runtime).

Lemma others_kept_refl sid s : others_kept sid s s.
Proof. by intros other _. Qed.

Lemma others_kept_trans sid a b c :
  others_kept sid a b -> others_kept sid b c -> others_kept sid a c.
Proof. intros H1 H2 other Hne. by rewrite (H2 other Hne), (H1 other Hne). Qed.

Local Ltac iso :=
  first [ apply others_kept_refl
        | let other := fresh "other" in
          let Hne := fresh "Hne" in
          intros other Hne; unfold session_entries; cbn;
          repeat first [ rewrite lookup_insert_ne by done
                       | rewrite lookup_delete_ne by done ];
          reflexivity ].

Lemma others_kept_emit sid e s : others_kept sid s (emit e s).
Proof. iso. Qed.

Lemma others_kept_cleanup sid s : others_kept sid s (cleanupSession sid s).
Proof. iso. Qed.

Lemma others_kept_startLoop config s :
  others_kept (sessionId config) s (snd (startLoop w config s)).
Proof.
  unfold startLoop. destruct (is_some _); [iso|].
  destruct (negb (existsSync _ _)); [iso|].
  destruct (negb (existsSync _ _)); destruct (git_branch w (projectPath config)); iso.
Qed.

Lemma others_kept_scan sid text s : others_kept sid s (scan_status sid text s).
Proof.
  unfold scan_status. destruct (parseRalphStatus text) as [status|]; [|iso].
  unfold handleRalphStatus. destruct (exitSignal status); iso.
Qed.

Lemma others_kept_stdout_line sid s line : others_kept sid s (stdout_line rt sid s line).
Proof.
  unfold stdout_line. destruct (negb _); [iso|].
  assert (forall l st, others_kept sid st (stdout_raw sid l st)) as Hraw.
  { intros l st. unfold stdout_raw.
    eapply others_kept_trans; [|apply others_kept_scan]. iso. }
  destruct (JSON_parse rt line) as [parsed|]; [|apply Hraw].
  assert (others_kept sid s (snd (stdout_parsed sid parsed s))) as Hp.
  { unfold stdout_parsed. destruct (get_prop parsed "type") as [ty|]; [|iso].
    destruct (_ && _ && _);
      (destruct (truthy _); [|iso]);
      (destruct (get_prop_opt _ "text"); try iso; cbn [snd];
       (eapply others_kept_trans; [|apply others_kept_scan]); iso). }
  destruct (stdout_parsed sid parsed s) as [[|] s']; cbn [snd] in Hp; [done|].
  eapply others_kept_trans; [exact Hp|apply Hraw].
Qed.

Lemma others_kept_onStdout sid chunk s : others_kept sid s (onStdout rt sid chunk s).
Proof.
  unfold onStdout.
  set (lines := removelast _). set (s1 := upd_outputBuffers _ s).
  assert (others_kept sid s s1) as H1 by iso. clearbody s1 lines.
  revert s1 H1. induction lines as [|l lines IH]; intros s1 H1; cbn [fold_left]; [done|].
  apply IH. eapply others_kept_trans; [exact H1|apply others_kept_stdout_line].
Qed.

Lemma others_kept_stopLoop sid s : others_kept sid s (snd (stopLoop sid s)).
Proof.
  unfold stopLoop, stopLoop_terminate, stopLoop_mark, kill.
  cbn [processes upd_shouldContinueLoop]. destruct (processes s !! sid); iso.
Qed.

Lemma others_kept_event e s : others_kept (event_session e) s (apply_event w rt s e).
Proof.
  destruct e as [sid chunk|sid chunk|sid|sid|sid|sid p|config];
    cbn [apply_event event_session].
  - apply others_kept_onStdout.
  - iso.
  - apply others_kept_stopLoop.
  - unfold pauseLoop, kill. destruct (processes s !! sid); [|iso]. destruct (negb _); iso.
  - unfold resumeLoop, kill. destruct (processes s !! sid); [|iso]. destruct (negb _); iso.
  - unfold onForceKill, kill. destruct (is_some _); iso.
  - apply others_kept_startLoop.
Qed.

Lemma others_kept_review_try config startTime s :
  others_kept (rv_sessionId config) s (snd (review_try w rt config startTime s)).
Proof.
  unfold review_try, review_output, review_promise, review_after_output, spawn.
  destruct (writeFile w _); [iso|].
  destruct (review_outcome w) as [code out err| |m]; [|iso|iso].
  destruct (reviewClose code out err); cbn [snd]; [|iso].
  destruct (writeFile w _); [iso|].
  destruct (ReviewParser.parseReviewOutput _ _ _) as [[r|]|]; cbn [snd]; iso.
Qed.

Lemma others_kept_runAutoReview config s :
  others_kept (rv_sessionId config) s (snd (runAutoReview w rt config s)).
Proof.
  unfold runAutoReview. destruct (default false _); [iso|].
  destruct (negb _); [iso|].
  match goal with |- context [review_try ?w0 ?rt0 ?c ?t ?s0] =>
    pose proof (others_kept_review_try c t s0) as H;
    assert (others_kept (rv_sessionId config) s s0) as H0 by iso;
    destruct (review_try w0 rt0 c t s0) as [[r|e] s'] end;
    unfold review_catch; cbn [snd] in *;
    (eapply others_kept_trans; [exact H0|]);
    (eapply others_kept_trans; [exact H|]); iso.
Qed.

Lemma others_kept_autoReviewAndContinue sid config s :
  sessionId config = sid ->
  others_kept sid s (snd (autoReviewAndContinue w rt sid config s)).
Proof.
  intros Hsid. unfold autoReviewAndContinue.
  match goal with |- context [runAutoReview ?w0 ?rt0 ?c ?s0] =>
    pose proof (others_kept_runAutoReview c s0) as H;
    assert (others_kept sid s s0) as H0 by iso;
    destruct (runAutoReview w0 rt0 c s0) as [[r|e] s2] end; cbn [snd rv_sessionId] in *.
  2: { by eapply others_kept_trans. }
  assert (others_kept sid s s2) as H2 by (by eapply others_kept_trans).
  destruct (autoContinue config) as [ac|]; [|done].
  destruct (negb (enabled ac)); [done|].
  match goal with |- context [bind ?m ?f] => destruct (bind m f) as [[|]|] end; [| |done].
  - assert (forall f st, others_kept sid s st ->
                           others_kept sid s (upd_latestReviewResults (insert sid f) st))
      as Hcache.
    { intros f st Hst. eapply others_kept_trans; [exact Hst|]. iso. }
    unfold generateContinuationDocs.
    destruct (generateContinuationPromptMd rt r); [|by apply Hcache].
    destruct (writeFile w _); [by apply Hcache|].
    destruct (generateReviewFindingsSection rt r) as [[|] r']; [|by apply Hcache].
    destruct (writeFile w _); [by apply Hcache|].
    cbv beta iota zeta.
    match goal with |- context [startLoop ?w0 ?c ?s0] =>
      pose proof (others_kept_startLoop c s0) as H4;
      assert (others_kept sid s2 s0) as H3 by iso;
      destruct (startLoop w0 c s0) as [[|] s6] end;
      cbn [snd sessionId] in H4; rewrite Hsid in H4; cbn [snd];
      (eapply others_kept_trans; [exact H2|]);
      (eapply others_kept_trans; [exact H3|]); exact H4.
  - destruct (_ <=? _)%Z; [|done]. eapply others_kept_trans; [exact H2|]. iso.
Qed.

Lemma others_kept_closeFinish sid code cx planExhausted s :
  (forall config, cx_config cx = Some config -> sessionId config = sid) ->
  others_kept sid s (snd (closeFinish w rt sid code cx planExhausted s)).
Proof.
  intros Hid. unfold closeFinish.
  set (s1 := emitEvent sid _ s).
  assert (others_kept sid s s1) as H1 by iso. clearbody s1.
  assert (forall st, others_kept sid s st ->
            others_kept sid s (emit (OnSessionEnd sid code) (cleanupSession sid st))) as Hfin.
  { intros st Hst. eapply others_kept_trans; [exact Hst|]. iso. }
  destruct (cx_config cx) as [config|]; [|by apply Hfin].
  destruct (_ && _); [|by apply Hfin].
  pose proof (others_kept_autoReviewAndContinue sid config s1 (Hid _ eq_refl)) as H.
  destruct (autoReviewAndContinue w rt sid config s1) as [[[|]|e] s2]; cbn [snd] in *.
  - by eapply others_kept_trans.
  - apply Hfin. by eapply others_kept_trans.
  - apply Hfin. eapply others_kept_trans; [exact H1|].
    eapply others_kept_trans; [exact H|]. iso.
Qed.

Lemma others_kept_exit_step sid code s :
  (forall config, sessionConfigs s !! sid = Some config -> sessionId config = sid) ->
  others_kept sid s (exit_step w rt sid code s).
Proof.
  intros Hid. unfold exit_step. rewrite onClose_eq. cbv zeta.
  set (cx := fst (closeBegin sid s)).
  assert (forall config, cx_config cx = Some config -> sessionId config = sid) as Hcx
    by exact Hid.
  assert (others_kept sid s (snd (closeBegin sid s))) as H1 by iso.
  set (s1 := snd (closeBegin sid s)) in *. clearbody s1 cx.
  assert (others_kept sid s (snd (closePlanCheck w sid cx s1))) as H2.
  { unfold closePlanCheck. destruct (cx_config cx) as [config|]; [|done].
    destruct (checkPlanExhausted _ _); [|done].
    eapply others_kept_trans; [exact H1|]. iso. }
  set (pe := fst (closePlanCheck w sid cx s1)).
  set (s2 := snd (closePlanCheck w sid cx s1)) in *. clearbody s2 pe.
  pose proof (others_kept_closeFinish sid code cx pe s2 Hcx) as Hf.
  assert (others_kept sid s
            (match closeFinish w rt sid code cx pe s2 with
             | (RestartPending config, s3) => closeRestart w rt sid config s3
             | (_, s3) => s3
             end)) as Hfin.
  { destruct (closeFinish w rt sid code cx pe s2) as [[c| |] s3] eqn:E; cbn [snd] in Hf;
      [by apply closeFinish_outcome in E| |]; by eapply others_kept_trans. }
  destruct (shouldRestart code cx pe); [|exact Hfin].
  destruct (cx_config cx) as [config|] eqn:Ec; [|exact Hfin].
  assert (others_kept sid s (closeIterate w sid config cx s2)) as H3.
  { eapply others_kept_trans; [exact H2|]. unfold closeIterate.
    destruct (default false (autoPush config)); [destruct (git_push w _ _)|]; iso. }
  set (s3 := closeIterate w sid config cx s2) in *. clearbody s3.
  unfold closeRestart. destruct (default false _); [|done].
  pose proof (others_kept_startLoop config s3) as H4. rewrite (Hcx _ eq_refl) in H4.
  destruct (startLoop w config s3) as [[|e] s4]; cbn [snd] in H4.
  - by eapply others_kept_trans.
  - eapply others_kept_trans; [exact H3|]. eapply others_kept_trans; [exact H4|]. iso.
Qed.

End Isolation.

(** X21: sessions do not touch one another.  Whatever is done for one
    session (a start, a chunk of output, a stop, a pause, a resume, the
    forced kill, a review, or the exit of its process with the restart or the
    continuation that follows) leaves the entries of every other session in
    all twelve maps as they were; for the exit this holds when the
    configuration registered for the session carries its id. *)
Theorem X21_sessions_isolated (w : World) (rt : Runtime) (s : ProcessManager)
    (sid other : string) :
  sid <> other ->
  (forall e, event_session e = sid ->
             session_entries other (apply_event w rt s e) = session_entries other s)
  /\ (forall rc, rv_sessionId rc = sid ->
                 session_entries other (snd (runAutoReview w rt rc s))
                 = session_entries other s)
  /\ (forall code,
        (forall config, sessionConfigs s !! sid = Some config -> sessionId config = sid) ->
        session_entries other (exit_step w rt sid code s) = session_entries other s).
Proof.
  intros Hne. split; [|split].
  - intros e <-. by apply others_kept_event.
  - intros rc <-. by apply others_kept_runAutoReview.
  - intros code Hid. by apply others_kept_exit_step.
Qed.

Lemma X21_sessions_isolated_witness :
  let w := Sample.world (Some Sample.open_plan) in
  let s := Sample.started None in
  session_entries "s2" (apply_event w Sample.rt s (Stop "s1")) = session_entries "s2" s
  /\ session_entries "s2" (exit_step w Sample.rt "s1" (Some 0%Z) s) = session_entries "s2" s.
Proof.
  intros w s.
  pose proof (X21_sessions_isolated w Sample.rt s "s1" "s2" ltac:(done)) as (He & _ & Hx).
  split; [by apply He|]. apply Hx.
  intros config. vm_compute. by intros [= <-].
Defined.

(** ** The registered configurations *)

Section ConfigIds.
Variables (w : World) (rt : Runtime).

Lemma configs_from_refl s : configs_from s s.
Proof. intros sid config H. by left. Qed.

Lemma configs_from_trans a b c : configs_from a b -> configs_from b c -> configs_from a c.
Proof.
  intros H1 H2 sid config H. destruct (H2 _ _ H) as [H'|H']; [|by right].
  by apply H1.
Qed.

Lemma configs_from_same a b : sessionConfigs b = sessionConfigs a -> configs_from a b.
Proof. intros E sid config H. left. by rewrite <- E. Qed.

Lemma configs_from_emit e s : configs_from s (emit e s).
Proof. intros sid config H. by left. Qed.

Lemma configs_from_cleanup sid s : configs_from s (cleanupSession sid s).
Proof.
  intros sid' config. cbn. intros [_ H]%lookup_delete_Some. by left.
Qed.

Lemma configs_from_startLoop config s : configs_from s (snd (startLoop w config s)).
Proof.
  unfold startLoop. destruct (is_some _); [apply configs_from_refl|].
  destruct (negb (existsSync _ _)); [apply configs_from_refl|].
  destruct (negb (existsSync _ _)); destruct (git_branch w (projectPath config));
    intros sid' c; cbn; intros [[<- <-]|[_ H]]%lookup_insert_Some; by auto.
Qed.

Lemma configs_from_event e s : configs_from s (apply_event w rt s e).
Proof.
  destruct e as [sid chunk|sid chunk|sid|sid|sid|sid p|config]; cbn [apply_event].
  - apply configs_from_same, (of_configs _ _ (onStdout_frame rt sid chunk s)).
  - by apply configs_from_same.
  - unfold stopLoop, stopLoop_terminate, stopLoop_mark, kill.
    cbn [processes upd_shouldContinueLoop]. destruct (processes s !! sid); cbn [snd].
    + by apply configs_from_same.
    + eapply configs_from_trans; [|apply configs_from_cleanup]. by apply configs_from_same.
  - unfold pauseLoop, kill. destruct (processes s !! sid); [|apply configs_from_refl].
    destruct (negb _); by apply configs_from_same.
  - unfold resumeLoop, kill. destruct (processes s !! sid); [|apply configs_from_refl].
    destruct (negb _); by apply configs_from_same.
  - unfold onForceKill, kill. destruct (is_some _); by apply configs_from_same.
  - apply configs_from_startLoop.
Qed.

Lemma configs_from_runAutoReview config s :
  configs_from s (snd (runAutoReview w rt config s)).
Proof.
  unfold isReviewInProgress, runAutoReview.
  destruct (default false _); [apply configs_from_refl|].
  destruct (negb _); [by apply configs_from_same|].
  match goal with |- context [review_try ?w0 ?rt0 ?c ?t ?s0] =>
    pose proof (review_try_frame w0 rt0 c t s0) as (_ & _ & Hc & _);
    destruct (review_try w0 rt0 c t s0) as [[r|e] s'] end;
    cbn [snd] in *; by apply configs_from_same.
Qed.

Lemma configs_from_autoReviewAndContinue sid config s :
  configs_from s (snd (autoReviewAndContinue w rt sid config s)).
Proof.
  unfold autoReviewAndContinue.
  match goal with |- context [runAutoReview ?w0 ?rt0 ?c ?s0] =>
    pose proof (configs_from_runAutoReview c s0) as H;
    destruct (runAutoReview w0 rt0 c s0) as [[r|e] s2] end; cbn [snd] in *; [|done].
  destruct (autoContinue config) as [ac|]; [|done].
  destruct (negb (enabled ac)); [done|].
  match goal with |- context [bind ?m ?f] => destruct (bind m f) as [[|]|] end; [| |done].
  - unfold generateContinuationDocs.
    destruct (generateContinuationPromptMd rt r); [|done].
    destruct (writeFile w _); [done|].
    destruct (generateReviewFindingsSection rt r) as [[|] r']; [|done].
    destruct (writeFile w _); [done|].
    cbv beta iota zeta.
    match goal with |- context [startLoop ?w0 ?c ?s0] =>
      pose proof (configs_from_startLoop c s0) as H4;
      destruct (startLoop w0 c s0) as [[|] s6] end; cbn [snd] in *;
      (eapply configs_from_trans; [exact H|]);
      (eapply configs_from_trans; [|exact H4]); by apply configs_from_same.
  - destruct (_ <=? _)%Z; [|done]. eapply configs_from_trans; [exact H|].
    by apply configs_from_same.
Qed.

Lemma configs_from_closeFinish sid code cx planExhausted s :
  configs_from s (snd (closeFinish w rt sid code cx planExhausted s)).
Proof.
  unfold closeFinish. set (s1 := emitEvent sid _ s).
  assert (configs_from s s1) as H1 by (by apply configs_from_same). clearbody s1.
  assert (forall st, configs_from s st ->
            configs_from s (emit (OnSessionEnd sid code) (cleanupSession sid st))) as Hfin.
  { intros st Hst. eapply configs_from_trans; [exact Hst|].
    eapply configs_from_trans; [apply (configs_from_cleanup sid)|].
    apply configs_from_emit. }
  destruct (cx_config cx) as [config|]; [|by apply Hfin].
  destruct (_ && _); [|by apply Hfin].
  pose proof (configs_from_autoReviewAndContinue sid config s1) as H.
  destruct (autoReviewAndContinue w rt sid config s1) as [[[|]|e] s2]; cbn [snd] in *.
  - by eapply configs_from_trans.
  - apply Hfin. by eapply configs_from_trans.
  - apply Hfin. eapply configs_from_trans; [exact H1|].
    eapply configs_from_trans; [exact H|]. apply configs_from_emit.
Qed.

Lemma configs_from_exit_step sid code s : configs_from s (exit_step w rt sid code s).
Proof.
  unfold exit_step. rewrite onClose_eq. cbv zeta.
  set (cx := fst (closeBegin sid s)).
  assert (configs_from s (snd (closeBegin sid s))) as H1 by (by apply configs_from_same).
  set (s1 := snd (closeBegin sid s)) in *. clearbody s1 cx.
  assert (configs_from s (snd (closePlanCheck w sid cx s1))) as H2.
  { unfold closePlanCheck. destruct (cx_config cx) as [config|]; [|done].
    destruct (checkPlanExhausted _ _); [|done].
    eapply configs_from_trans; [exact H1|]. by apply configs_from_same. }
  set (pe := fst (closePlanCheck w sid cx s1)).
  set (s2 := snd (closePlanCheck w sid cx s1)) in *. clearbody s2 pe.
  pose proof (configs_from_closeFinish sid code cx pe s2) as Hf.
  assert (configs_from s
            (match closeFinish w rt sid code cx pe s2 with
             | (RestartPending config, s3) => closeRestart w rt sid config s3
             | (_, s3) => s3
             end)) as Hfin.
  { destruct (closeFinish w rt sid code cx pe s2) as [[c| |] s3] eqn:E; cbn [snd] in Hf;
      [by apply closeFinish_outcome in E| |]; by eapply configs_from_trans. }
  destruct (shouldRestart code cx pe); [|exact Hfin].
  destruct (cx_config cx) as [config|] eqn:Ec; [|exact Hfin].
  assert (configs_from s (closeIterate w sid config cx s2)) as H3.
  { eapply configs_from_trans; [exact H2|]. unfold closeIterate.
    destruct (default false (autoPush config)); [destruct (git_push w _ _)|];
      by apply configs_from_same. }
  set (s3 := closeIterate w sid config cx s2) in *. clearbody s3.
  unfold closeRestart. destruct (default false _); [|done].
  pose proof (configs_from_startLoop config s3) as H4.
  destruct (startLoop w config s3) as [[|e] s4]; cbn [snd] in H4.
  - by eapply configs_from_trans.
  - eapply configs_from_trans; [exact H3|]. eapply configs_from_trans; [exact H4|].
    eapply configs_from_trans; [apply (configs_from_cleanup sid)|].
    eapply configs_from_trans; apply configs_from_emit.
Qed.

End ConfigIds.

Lemma configs_from_ok a b : configs_from a b -> config_ids_ok a -> config_ids_ok b.
Proof. intros H Ha sid config Hb. destruct (H _ _ Hb) as [H'|H']; [by apply Ha|done]. Qed.

Lemma apply_step_ids rt s ws : config_ids_ok s -> config_ids_ok (apply_step rt s ws).
Proof.
  apply configs_from_ok. destruct ws as [w [e|config|sid code]]; cbn [apply_step].
  - apply configs_from_event.
  - apply configs_from_runAutoReview.
  - apply configs_from_exit_step.
Qed.

Lemma run_steps_ids rt steps : forall s,
  config_ids_ok s -> config_ids_ok (fold_left (apply_step rt) steps s).
Proof.
  induction steps as [|ws steps IH]; intros s Hs; cbn [fold_left]; [done|].
  by apply IH, apply_step_ids.
Qed.

(** X24: in every state that the manager reaches from the empty one by
    starts, output, stops, pauses, resumes, forced kills, reviews and exits
    (each in the world of its time), every configuration is registered under
    the session id it carries; so in every such state the exit of a session
    leaves the entries of all other sessions as they were. *)
Theorem X24_configurations_keyed_by_id (rt : Runtime) (steps : list (World * Step))
    (w : World) (sid other : string) (code : option Z) :
  let s := fold_left (apply_step rt) steps empty_manager in
  config_ids_ok s
  /\ (sid <> other ->
      session_entries other (exit_step w rt sid code s) = session_entries other s).
Proof.
  intros s.
  assert (config_ids_ok s) as Hok.
  { apply run_steps_ids. intros sid' config H. cbn in H. by rewrite lookup_empty in H. }
  split; [exact Hok|]. intros Hne.
  apply others_kept_exit_step; [|done]. intros config. apply Hok.
Qed.

Lemma X24_configurations_keyed_by_id_witness :
  let w := Sample.world (Some Sample.open_plan) in
  let s := fold_left (apply_step Sample.rt)
             [(w, StepEvent (Start (Sample.config None)));
              (w, StepExit "s1" (Some 0%Z))] empty_manager in
  session_entries "s2" (exit_step w Sample.rt "s1" (Some 1%Z) s) = session_entries "s2" s.
Proof.
  intros w s.
  apply (X24_configurations_keyed_by_id Sample.rt
           [(w, StepEvent (Start (Sample.config None))); (w, StepExit "s1" (Some 0%Z))]
           w "s1" "s2" (Some 1%Z)).
  done.
Defined.

(** ** The continuation documents *)

Section Findings.
Variable rt : Runtime.

Lemma insert_ranked_perm x l : insert_ranked x l ≡ₚ x :: l.
Proof.
  induction l as [|y l IH]; cbn [insert_ranked]; [done|].
  destruct (fst x <=? fst y)%nat; [done|]. rewrite IH. apply Permutation_swap.
Qed.

Lemma sort_ranked_perm l : sort_ranked l ≡ₚ l.
Proof.
  induction l as [|x l IH]; [done|]. cbn [sort_ranked fold_right].
  rewrite insert_ranked_perm. by f_equiv.
Qed.

Lemma insert_ranked_sorted x l :
  Sorted le (List.map fst l) -> Sorted le (List.map fst (insert_ranked x l)).
Proof.
  induction l as [|y l IH]; cbn [insert_ranked List.map]; intros Hs.
  - by repeat constructor.
  - destruct (Nat.leb_spec (fst x) (fst y)) as [Hle|Hlt]; cbn [List.map].
    + constructor; [done|]. by constructor.
    + apply Sorted_inv in Hs as [Hs Hhd]. constructor; [by apply IH|].
      destruct l as [|z l]; cbn [insert_ranked List.map].
      * constructor. lia.
      * destruct (fst x <=? fst z)%nat; cbn [List.map]; constructor; [lia|].
        by apply HdRel_inv in Hhd.
Qed.

Lemma sort_ranked_sorted l : Sorted le (List.map fst (sort_ranked l)).
Proof.
  induction l as [|x l IH]; [constructor|]. by apply insert_ranked_sorted.
Qed.

(** The ranks that were read are those of the items, one each. *)
Lemma ranks_of_items (items : list jsval) : forall ranks,
  mapM (item_rank rt) items = Ok (List.map Some ranks) ->
  List.map snd (combine ranks items) = items
  /\ Forall (fun ri => item_rank rt (snd ri) = Ok (Some (fst ri))) (combine ranks items).
Proof.
  induction items as [|i items IH]; intros ranks; cbn [mapM].
  - destruct ranks; [done|]. done.
  - destruct (item_rank rt i) as [r|] eqn:Er; cbn [bind]; [|done].
    destruct (mapM (item_rank rt) items) as [rs|] eqn:Em; cbn [bind]; [|done].
    destruct ranks as [|r0 ranks]; [done|]. cbn [List.map]. intros [= -> ->].
    destruct (IH ranks eq_refl) as [Hs Hf]. cbn [combine List.map snd].
    split; [by rewrite Hs|]. by constructor.
Qed.

Lemma ranks_of_sorted (l : list (nat * jsval)) :
  Forall (fun ri => item_rank rt (snd ri) = Ok (Some (fst ri))) l ->
  mapM (item_rank rt) (List.map snd l) = Ok (List.map Some (List.map fst l)).
Proof.
  induction 1 as [|[r i] l Hi _ IH]; [done|].
  cbn [List.map mapM fst snd] in *. by rewrite Hi, IH.
Qed.

Lemma sort_by_priority_ranked (items : list jsval) (ranks : list nat) :
  mapM (item_rank rt) items = Ok (List.map Some ranks) ->
  sort_by_priority rt items = Ok (List.map snd (sort_ranked (combine ranks items))).
Proof.
  intros H. unfold sort_by_priority. rewrite H. cbn [bind].
  assert (forallb is_some (List.map Some ranks) = true) as ->
    by (clear; by induction ranks).
  assert (omap id (List.map Some ranks) = ranks) as ->; [|done].
  clear. induction ranks as [|r ranks IH]; [done|]. cbn. by rewrite IH.
Qed.

(** What the findings section leaves of the review result. *)
Lemma findings_result (reviewResult : jsval) (items sorted : list jsval) :
  get_prop reviewResult "missingItems" = Ok (JArr items) ->
  sort_by_priority rt items = Ok sorted ->
  let sortedResult :=
    JObj (set_field (js "missingItems") (JArr sorted) (own_fields reviewResult)) in
  match generateReviewFindingsSection rt reviewResult with
  | (Ok _, r') => r' = sortedResult
  | (Throw _, r') => r' = reviewResult \/ r' = sortedResult
  end.
Proof.
  intros Hitems Hsort sortedResult. unfold generateReviewFindingsSection.
  rewrite Hitems.
  repeat (match goal with
          | |- context [bind ?m _] =>
              lazymatch m with
              | get_prop _ _ => destruct m
              | interpolate _ _ => destruct m
              end; cbn [bind]; [|by left]
          end).
  rewrite Hsort.
  match goal with |- context [bind ?m ?f] => by destruct (bind m f); [|right] end.
Qed.

End Findings.

(** X25: the continuation documents are built from the review result, and
    building them changes it.  When the missing items of the result are not
    an array, nothing is written: the call throws a TypeError and leaves the
    result and the manager as they were.  When they are an array whose items
    all carry one of the three priorities, the findings section sorts them
    in place by priority, HIGH first: what the call leaves of the result,
    whenever it returns, is the result with its missing items rearranged,
    the same items in ascending order of rank. *)
Theorem X25_documents_sort_the_result (w : World) (rt : Runtime) (dir sid : string)
    (reviewResult : jsval) (s : ProcessManager) :
  ((forall items, get_prop reviewResult "missingItems" <> Ok (JArr items)) ->
   generateContinuationDocs w rt dir sid reviewResult s = (Throw TypeError, reviewResult, s))
  /\ (forall items ranks,
        get_prop reviewResult "missingItems" = Ok (JArr items) ->
        mapM (item_rank rt) items = Ok (List.map Some ranks) ->
        exists sorted sortedRanks,
          sort_by_priority rt items = Ok sorted
          /\ sorted ≡ₚ items
          /\ mapM (item_rank rt) sorted = Ok (List.map Some sortedRanks)
          /\ Sorted le sortedRanks
          /\ (fst (fst (generateContinuationDocs w rt dir sid reviewResult s)) = Ok tt ->
              snd (fst (generateContinuationDocs w rt dir sid reviewResult s))
              = JObj (set_field (js "missingItems") (JArr sorted)
                        (own_fields reviewResult)))).
Proof.
  split.
  - intros Hno. unfold generateContinuationDocs, generateContinuationPromptMd.
    destruct (get_prop reviewResult "missingItems") as [[| | | | |items|fields]|e] eqn:E;
      cbn [bind]; try done.
    + by destruct (Hno items).
    + by destruct reviewResult; try done; injection E as <-.
  - intros items ranks Hitems Hranks.
    destruct (ranks_of_items rt items ranks Hranks) as [Hsnd Hall].
    pose proof (sort_by_priority_ranked rt items ranks Hranks) as Hsort.
    exists (List.map snd (sort_ranked (combine ranks items))),
           (List.map fst (sort_ranked (combine ranks items))).
    split; [exact Hsort|]. split.
    { rewrite (sort_ranked_perm (combine ranks items)). by rewrite Hsnd. }
    split.
    { apply ranks_of_sorted. by rewrite (sort_ranked_perm (combine ranks items)). }
    split; [apply sort_ranked_sorted|].
    pose proof (findings_result rt reviewResult items _ Hitems Hsort) as Hf.
    cbv zeta in Hf. unfold generateContinuationDocs.
    destruct (generateContinuationPromptMd rt reviewResult); [|done].
    destruct (writeFile w _); [done|].
    destruct (generateReviewFindingsSection rt reviewResult) as [[|] r']; [|done].
    by destruct (writeFile w _).
Qed.

Lemma X25_documents_sort_the_result_witness :
  let w := Sample.world (Some Sample.done_plan) in
  generateContinuationDocs w Sample.rt "/work/app" "s1" SampleFindings.odd_report
    empty_manager
  = (Throw TypeError, SampleFindings.odd_report, empty_manager)
  /\ exists sorted sortedRanks,
       sort_by_priority Sample.rt
         [SampleFindings.item "LOW" "docs"; SampleFindings.item "HIGH" "tests";
          SampleFindings.item "MEDIUM" "lint"; SampleFindings.item "HIGH" "build"]
       = Ok sorted
       /\ sorted ≡ₚ [SampleFindings.item "LOW" "docs"; SampleFindings.item "HIGH" "tests";
                     SampleFindings.item "MEDIUM" "lint"; SampleFindings.item "HIGH" "build"]
       /\ mapM (item_rank Sample.rt) sorted = Ok (List.map Some sortedRanks)
       /\ Sorted le sortedRanks
       /\ (fst (fst (generateContinuationDocs w Sample.rt "/work/app" "s1"
                       SampleFindings.report empty_manager)) = Ok tt ->
           snd (fst (generateContinuationDocs w Sample.rt "/work/app" "s1"
                       SampleFindings.report empty_manager))
           = JObj (set_field (js "missingItems") (JArr sorted)
                     (own_fields SampleFindings.report))).
Proof.
  intros w. split.
  - apply (proj1 (X25_documents_sort_the_result w Sample.rt "/work/app" "s1"
                    SampleFindings.odd_report empty_manager)).
    intros items. vm_compute. discriminate.
  - apply (proj2 (X25_documents_sort_the_result w Sample.rt "/work/app" "s1"
                    SampleFindings.report empty_manager) _ [2; 0; 1; 0]%nat).
    + vm_compute. reflexivity.
    + vm_compute. reflexivity.
Defined.
